(** * ExpenseTracker: the expense store ([services/DatabaseService.ts])

    A shallow embedding of the [DatabaseService] class and of the SQLite
    statements it issues, followed by the properties of the store that the
    specification states.

    Layout of the development:
    - [Js]      the few JavaScript coercions the service relies on;
    - [Sql]     the [expenses] table and the SQL statements, one definition
                per statement text found in the service;
    - [Service] the methods of [DatabaseService], written in a small
                state-and-exception monad over the process state;
    - [Spec], [Store], [Exact] the vocabulary of the statements: inputs,
                histories and lifetimes of the store, invariants of the
                file, amounts that add up without rounding;
    - [AppContext], [Screens] the provider of the application state, the
                screens that call the store, and the demo data;
    - the theorems, grouped by operation.

    Text is modelled by [string]; one [ascii] stands for one character (the
    code points U+0000 to U+00FF).  Amounts are IEEE-754 binary64 numbers, as
    JavaScript's [number] and SQLite's REAL are. *)

From Stdlib Require Import Bool Ascii String List ZArith Lia Floats.
From Stdlib Require Import Sorted Permutation OrderedTypeEx.

Set Warnings "-inexact-float".
Import ListNotations.

Local Open Scope string_scope.
Local Open Scope list_scope.

Definition text := string.

(* ------------------------------------------------------------------ *)
(** ** Data model *)

(** [interface Expense].  Rows read back from the table always carry their
    primary key, so [id] is not optional here; [description] and [created_at]
    are nullable columns. *)
Record Expense := mkExpense {
  id : Z;
  title : text;
  amount : float;
  category : text;
  date : text;
  description : option text;
  created_at : option text
}.

(** [Omit<Expense, 'id' | 'created_at'>], the argument of [addExpense] and
    [updateExpense]. *)
Record NewExpense := mkNewExpense {
  n_title : text;
  n_amount : float;
  n_category : text;
  n_date : text;
  n_description : option text
}.

(* ------------------------------------------------------------------ *)
(** ** JavaScript coercions *)

Module Js.

(** [s || ''] on a [string | null | undefined]: the empty string is falsy. *)
Definition or_empty (s : option text) : text :=
  match s with
  | Some (String c r) => String c r
  | _ => ""
  end.

(** [s || fallback] on a [string | null | undefined]. *)
Definition or_text (s : option text) (fallback : text) : text :=
  match s with
  | Some (String c r) => String c r
  | _ => fallback
  end.

(** Truthiness of a [number]: [0], [-0] and [NaN] are falsy. *)
Definition truthy (x : float) : bool :=
  negb (PrimFloat.is_nan x || PrimFloat.is_zero x).

(** [x || 0] on a [number | null]. *)
Definition or_zero (x : option float) : float :=
  match x with
  | Some v => if truthy v then v else 0%float
  | None => 0%float
  end.

(** A plain object used as a dictionary, [{ [key: string]: number }]:
    own properties in insertion order. *)
Definition Dict := list (text * option float).

Fixpoint dict_put (k : text) (v : option float) (d : Dict) : Dict :=
  match d with
  | [] => [(k, v)]
  | (k', v') :: d' =>
      if String.eqb k k' then (k, v) :: d' else (k', v') :: dict_put k v d'
  end.

(** [obj[k] = v] on an object created by [{}].  The key ["__proto__"] is
    not an own property: the assignment reaches the accessor inherited from
    [Object.prototype]: its setter ignores a number, and on [null] it
    changes the prototype only.  Either way no own property is created.
    (Enumeration order of integer-like keys is not modelled: properties
    are kept in insertion order.) *)
Definition assign (d : Dict) (k : text) (v : option float) : Dict :=
  if String.eqb k "__proto__" then d else dict_put k v d.

(** [Object.values(obj)]. *)
Definition values (d : Dict) : list (option float) := map snd d.

(** [values.reduce((a, b) => a + b, 0)]; [null] coerces to [0]. *)
Definition sum_values (vs : list (option float)) : float :=
  fold_left (fun acc v => match v with
                       | Some x => (acc + x)%float
                       | None => (acc + 0)%float
                       end) vs 0%float.

End Js.

(* ------------------------------------------------------------------ *)
(** ** The SQLite engine, restricted to the statements of the service *)

Module Sql.

Inductive Error :=
| SQLITE_IOERR            (* the storage layer failed *)
| NoSuchTable
| NoSuchColumn
| DuplicateColumn
| TableExists
| NotNullConstraint
| PrimaryKeyConstraint
| SQLITE_FULL             (* AUTOINCREMENT ran out of rowids *)
| PatternTooComplex.      (* "LIKE or GLOB pattern too complex" *)

(** State of the [created_at] column of [expenses]: absent (installations
    older than the column), added by [ALTER TABLE ... ADD COLUMN created_at
    DATETIME] (no default), or declared by [CREATE TABLE] with
    [DEFAULT (datetime('now'))]. *)
Inductive CreatedAt := Absent | Plain | DefaultNow.

Record Table := mkTable {
  created_at_column : CreatedAt;
  rows : list Expense            (* in rowid order *)
}.

(** The file [expenses.db]: the [expenses] table, the scratch table
    [expenses_backup], and the [sqlite_sequence] entry that AUTOINCREMENT
    keeps for [expenses]. *)
Record Database := mkDatabase {
  expenses : option Table;
  expenses_backup : option (list Expense);
  sqlite_sequence : option Z
}.

Definition Result (A : Type) : Type := (Error + A * Database)%type.

(** The largest rowid, 2^63 - 1. *)
Definition MAX_ROWID : Z := 9223372036854775807.

Definition empty_file : Database := mkDatabase None None None.

Definition with_table (db : Database) (t : option Table) : Database :=
  mkDatabase t (expenses_backup db) (sqlite_sequence db).

Definition with_rows (db : Database) (t : Table) (rs : list Expense) : Database :=
  with_table db (Some (mkTable (created_at_column t) rs)).

(** *** Values *)

(** Binding a number to a REAL NOT NULL column: SQLite stores NaN as NULL.
    (It also stores a negative zero as 0.0; the sign of a zero is kept
    here.  The amounts the application lets through are positive.) *)
Definition real_value (x : float) : option float :=
  if PrimFloat.is_nan x then None else Some x.

(** BINARY collation on TEXT. *)
Definition text_le (a b : text) : bool := String.leb a b.

(** *** Row access *)

Definition has_id (i : Z) (r : Expense) : bool := Z.eqb (id r) i.

Definition no_row (rs : list Expense) : bool :=
  match rs with [] => true | _ :: _ => false end.

Definition lookup (i : Z) (rs : list Expense) : option Expense :=
  find (has_id i) rs.

Fixpoint insert_row (r : Expense) (rs : list Expense) : list Expense :=
  match rs with
  | [] => [r]
  | r' :: rs' =>
      if Z.ltb (id r) (id r') then r :: r' :: rs' else r' :: insert_row r rs'
  end.

Definition max_rowid (rs : list Expense) : Z :=
  fold_right (fun r m => Z.max (id r) m) 0%Z rs.

Definition seq_value (db : Database) : Z :=
  match sqlite_sequence db with Some s => s | None => 0%Z end.

(** The rowid AUTOINCREMENT picks: one more than the largest rowid that
    ever existed in the table. *)
Definition last_rowid (db : Database) (t : Table) : Z :=
  Z.max (seq_value db) (max_rowid (rows t)).

(** *** ORDER BY *)

Section OrderBy.
Context {A : Type} (before : A -> A -> bool).

Fixpoint place (x : A) (l : list A) : list A :=
  match l with
  | [] => [x]
  | y :: l' => if before x y then x :: y :: l' else y :: place x l'
  end.

Fixpoint order_by (l : list A) : list A :=
  match l with
  | [] => []
  | x :: l' => place x (order_by l')
  end.
End OrderBy.

(** [ORDER BY date DESC, id DESC] *)
Definition date_desc_id_desc (a b : Expense) : bool :=
  match String.compare (date b) (date a) with
  | Lt => true
  | Eq => Z.leb (id b) (id a)
  | Gt => false
  end.

(** [ORDER BY date DESC] *)
Definition date_desc (a b : Expense) : bool := text_le (date b) (date a).

(** *** LIKE *)

(** SQLite folds case for the 26 ASCII letters only. *)
Definition ascii_lower (c : ascii) : ascii :=
  let n := nat_of_ascii c in
  if (Nat.leb 65 n && Nat.leb n 90)%bool then ascii_of_nat (n + 32) else c.

Definition like_char (p c : ascii) : bool :=
  Ascii.eqb (ascii_lower p) (ascii_lower c).

(** The comparison of a pattern with a string: [%] matches any run of
    characters, [_] any single character, every other character itself up
    to ASCII case (no ESCAPE). *)
Fixpoint pattern_compare (p : text) : text -> bool :=
  match p with
  | EmptyString => fun s => match s with EmptyString => true | _ => false end
  | String c p' =>
      if Ascii.eqb c "%" then
        fix any (s : text) : bool :=
          (pattern_compare p' s ||
           match s with
           | EmptyString => false
           | String _ s' => any s'
           end)%bool
      else if Ascii.eqb c "_" then
        fun s => match s with
                 | EmptyString => false
                 | String _ s' => pattern_compare p' s'
                 end
      else
        fun s => match s with
                 | EmptyString => false
                 | String d s' => (like_char c d && pattern_compare p' s')%bool
                 end
  end.

(** What the LIKE function reads of a text value: it takes the pattern
    and the string as zero-terminated, so each ends at its first U+0000,
    whatever follows. *)
Fixpoint c_string (s : text) : text :=
  match s with
  | EmptyString => EmptyString
  | String c s' =>
      if Ascii.eqb c "000" then EmptyString else String c (c_string s')
  end.

(** [s LIKE p] *)
Definition like (p s : text) : bool :=
  pattern_compare (c_string p) (c_string s).

(** The length in bytes of the UTF-8 form of a text: one byte up to
    U+007F, two from U+0080 to U+00FF. *)
Fixpoint utf8_length (s : text) : Z :=
  match s with
  | EmptyString => 0
  | String c s' =>
      (if Nat.ltb (nat_of_ascii c) 128 then 1 else 2) + utf8_length s'
  end.

(** SQLITE_MAX_LIKE_PATTERN_LENGTH, the default. *)
Definition MAX_LIKE_PATTERN_LENGTH : Z := 50000.

(** The LIKE function refuses a pattern of more bytes than that,
    counted to the end of the value, with the error "LIKE or GLOB pattern
    too complex". *)
Definition too_complex (p : text) : bool :=
  (MAX_LIKE_PATTERN_LENGTH <? utf8_length p)%Z.

(** [col LIKE ?] on a nullable column: NULL is not a match. *)
Definition like_null (p : text) (s : option text) : bool :=
  match s with Some v => like p v | None => false end.

(** *** SUM *)

(** [sum()] over REAL values is a Kahan-Babuska-Neumaier compensated sum
    (SQLite 3.43 and later): [rSum] is the running sum, [rErr] the
    accumulated compensation. *)
Record SumCtx := mkSumCtx { rSum : float; rErr : float }.

Definition sum_step (p : SumCtx) (r : float) : SumCtx :=
  let s := rSum p in
  let t := (s + r)%float in
  let e := if (PrimFloat.abs r <? PrimFloat.abs s)%float
           then ((s - t) + r)%float
           else ((r - t) + s)%float in
  mkSumCtx t (rErr p + e)%float.

Definition is_overflow (x : float) : bool :=
  (PrimFloat.is_nan x || PrimFloat.is_infinity x)%bool.

(** [SUM(amount)]: NULL over no rows; a NaN result is returned as NULL. *)
Definition sum (xs : list float) : option float :=
  match xs with
  | [] => None
  | _ =>
      let p := fold_left sum_step xs (mkSumCtx 0 0) in
      real_value (if is_overflow (rErr p) then rSum p
                  else (rSum p + rErr p)%float)
  end.

(** *** GROUP BY category *)

Fixpoint distinct (l : list text) : list text :=
  match l with
  | [] => []
  | x :: l' => x :: filter (fun y => negb (String.eqb x y)) (distinct l')
  end.

Definition in_category (c : text) (r : Expense) : bool :=
  String.eqb (category r) c.

Definition group_total (rs : list Expense) (c : text) : text * option float :=
  (c, sum (map amount (filter (in_category c) rs))).

(** [ORDER BY total DESC]; NULL sorts below every number. *)
Definition total_desc (a b : text * option float) : bool :=
  match snd a, snd b with
  | _, None => true
  | None, Some _ => false
  | Some x, Some y => (y <=? x)%float
  end.

(** *** The statements *)

(** The table [CREATE TABLE expenses (id INTEGER PRIMARY KEY AUTOINCREMENT,
    ..., created_at DATETIME DEFAULT (datetime('now')))] creates. *)
Definition fresh_table : Table := mkTable DefaultNow [].

(** [CREATE TABLE IF NOT EXISTS expenses (...)] *)
Definition create_table_if_not_exists (db : Database) : Result unit :=
  match expenses db with
  | Some _ => inr (tt, db)
  | None => inr (tt, with_table db (Some fresh_table))
  end.

(** [CREATE TABLE expenses (...)] *)
Definition create_table (db : Database) : Result unit :=
  match expenses db with
  | Some _ => inl TableExists
  | None => inr (tt, with_table db (Some fresh_table))
  end.

(** [PRAGMA table_info(expenses)], the [name] column; no rows (and no
    error) when the table does not exist. *)
Definition table_info (db : Database) : Result (list text) :=
  match expenses db with
  | None => inr ([], db)
  | Some t =>
      inr (["id"; "title"; "amount"; "category"; "date"; "description"]
             ++ match created_at_column t with
                | Absent => []
                | _ => ["created_at"]
                end, db)
  end.

(** [ALTER TABLE expenses ADD COLUMN created_at DATETIME] *)
Definition add_created_at_column (db : Database) : Result unit :=
  match expenses db with
  | None => inl NoSuchTable
  | Some t =>
      match created_at_column t with
      | Absent => inr (tt, with_table db (Some (mkTable Plain (rows t))))
      | _ => inl DuplicateColumn
      end
  end.

Definition backfill (now : text) (r : Expense) : Expense :=
  match created_at r with
  | Some _ => r
  | None => mkExpense (id r) (title r) (amount r) (category r) (date r)
                      (description r) (Some now)
  end.

(** [UPDATE expenses SET created_at = datetime('now')
     WHERE created_at IS NULL] *)
Definition backfill_created_at (now : text) (db : Database) : Result unit :=
  match expenses db with
  | None => inl NoSuchTable
  | Some t =>
      match created_at_column t with
      | Absent => inl NoSuchColumn
      | _ => inr (tt, with_rows db t (map (backfill now) (rows t)))
      end
  end.

(** [SELECT * FROM expenses] *)
Definition select_all (db : Database) : Result (list Expense) :=
  match expenses db with
  | None => inl NoSuchTable
  | Some t => inr (rows t, db)
  end.

(** [DROP TABLE IF EXISTS expenses_backup] *)
Definition drop_backup_if_exists (db : Database) : Result unit :=
  inr (tt, mkDatabase (expenses db) None (sqlite_sequence db)).

(** [CREATE TABLE expenses_backup AS SELECT * FROM expenses] *)
Definition create_backup (db : Database) : Result unit :=
  match expenses_backup db, expenses db with
  | Some _, _ => inl TableExists
  | None, None => inl NoSuchTable
  | None, Some t =>
      inr (tt, mkDatabase (expenses db) (Some (rows t)) (sqlite_sequence db))
  end.

(** [DROP TABLE expenses]: the table goes, and with it its entry in
    [sqlite_sequence]. *)
Definition drop_table (db : Database) : Result unit :=
  match expenses db with
  | None => inl NoSuchTable
  | Some _ => inr (tt, mkDatabase None (expenses_backup db) None)
  end.

(** [DROP TABLE IF EXISTS expenses] *)
Definition drop_table_if_exists (db : Database) : Result unit :=
  match expenses db with
  | None => inr (tt, db)
  | Some _ => inr (tt, mkDatabase None (expenses_backup db) None)
  end.

(** [INSERT INTO expenses (id, title, amount, category, date, description,
    created_at) VALUES (?, ?, ?, ?, ?, ?, ?)] *)
Definition insert_with_id (r : Expense) (db : Database) : Result Z :=
  match expenses db with
  | None => inl NoSuchTable
  | Some t =>
      match created_at_column t, real_value (amount r), lookup (id r) (rows t) with
      | Absent, _, _ => inl NoSuchColumn
      | _, None, _ => inl NotNullConstraint
      | _, _, Some _ => inl PrimaryKeyConstraint
      | _, Some _, None =>
          inr (id r,
               mkDatabase (Some (mkTable (created_at_column t)
                                         (insert_row r (rows t))))
                          (expenses_backup db)
                          (Some (Z.max (seq_value db) (id r))))
      end
  end.

(** [INSERT INTO expenses (title, amount, category, date, description)
    VALUES (?, ?, ?, ?, ?)]; the result is [lastInsertRowId] (a rowid is
    taken to reach JavaScript unchanged, which holds below 2^53). *)
Definition insert (now : text) (ttl : text) (amt : float) (cat dt desc : text)
           (db : Database) : Result Z :=
  match expenses db with
  | None => inl NoSuchTable
  | Some t =>
      match real_value amt with
      | None => inl NotNullConstraint
      | Some a =>
          let last := last_rowid db t in
          if Z.leb MAX_ROWID last then inl SQLITE_FULL
          else
            let stamp := match created_at_column t with
                         | DefaultNow => Some now
                         | _ => None
                         end in
            let r := mkExpense (last + 1)%Z ttl a cat dt (Some desc) stamp in
            inr ((last + 1)%Z,
                 mkDatabase (Some (mkTable (created_at_column t)
                                           (insert_row r (rows t))))
                            (expenses_backup db)
                            (Some (last + 1)%Z))
      end
  end.

(** [SELECT * FROM expenses ORDER BY date DESC, id DESC] *)
Definition select_all_ordered (db : Database) : Result (list Expense) :=
  match expenses db with
  | None => inl NoSuchTable
  | Some t => inr (order_by date_desc_id_desc (rows t), db)
  end.

(** [SELECT * FROM expenses WHERE id = ?], first row *)
Definition select_by_id (i : Z) (db : Database) : Result (option Expense) :=
  match expenses db with
  | None => inl NoSuchTable
  | Some t => inr (lookup i (rows t), db)
  end.

Definition set_fields (ttl : text) (amt : float) (cat dt desc : text)
           (i : Z) (r : Expense) : Expense :=
  if has_id i r
  then mkExpense (id r) ttl amt cat dt (Some desc) (created_at r)
  else r.

(** [UPDATE expenses SET title = ?, amount = ?, category = ?, date = ?,
    description = ? WHERE id = ?] *)
Definition update_by_id (ttl : text) (amt : float) (cat dt desc : text) (i : Z)
           (db : Database) : Result unit :=
  match expenses db with
  | None => inl NoSuchTable
  | Some t =>
      match lookup i (rows t), real_value amt with
      | None, _ => inr (tt, db)
      | Some _, None => inl NotNullConstraint
      | Some _, Some a =>
          inr (tt, with_rows db t (map (set_fields ttl a cat dt desc i) (rows t)))
      end
  end.

(** [DELETE FROM expenses WHERE id = ?] *)
Definition delete_by_id (i : Z) (db : Database) : Result unit :=
  match expenses db with
  | None => inl NoSuchTable
  | Some t =>
      inr (tt, with_rows db t (filter (fun r => negb (has_id i r)) (rows t)))
  end.

Definition matches (p : text) (r : Expense) : bool :=
  (like p (title r) || like_null p (description r) || like p (category r))%bool.

(** [SELECT * FROM expenses WHERE title LIKE ? OR description LIKE ?
    OR category LIKE ? ORDER BY date DESC], the same pattern thrice.  The
    LIKE function is called for the first row, if there is one, and
    fails there on a pattern that is too long. *)
Definition select_like (p : text) (db : Database) : Result (list Expense) :=
  match expenses db with
  | None => inl NoSuchTable
  | Some t =>
      if (too_complex p && negb (no_row (rows t)))%bool
      then inl PatternTooComplex
      else inr (order_by date_desc (filter (matches p) (rows t)), db)
  end.

(** [SELECT SUM(amount) as total FROM expenses] *)
Definition select_total (db : Database) : Result (option float) :=
  match expenses db with
  | None => inl NoSuchTable
  | Some t => inr (sum (map amount (rows t)), db)
  end.

(** [SELECT category, SUM(amount) as total FROM expenses
    GROUP BY category ORDER BY total DESC] *)
Definition select_category_totals (db : Database)
  : Result (list (text * option float)) :=
  match expenses db with
  | None => inl NoSuchTable
  | Some t =>
      inr (order_by total_desc
             (map (group_total (rows t))
                  (order_by text_le (distinct (map category (rows t))))), db)
  end.

(** [SELECT strftime('%Y-%m', date) as month, SUM(amount) as total ...
    LIMIT 12].  The rows of this query ([monthlyData]) are outside the
    model; the statement is kept because it can fail. *)
Definition select_monthly_totals (db : Database) : Result unit :=
  match expenses db with
  | None => inl NoSuchTable
  | Some _ => inr (tt, db)
  end.

(** [DELETE FROM expenses] *)
Definition delete_all (db : Database) : Result unit :=
  match expenses db with
  | None => inl NoSuchTable
  | Some t => inr (tt, with_rows db t [])
  end.

Definition in_range (lo hi : text) (r : Expense) : bool :=
  (text_le lo (date r) && text_le (date r) hi)%bool.

(** [SELECT * FROM expenses WHERE date BETWEEN ? AND ? ORDER BY date DESC] *)
Definition select_date_range (lo hi : text) (db : Database)
  : Result (list Expense) :=
  match expenses db with
  | None => inl NoSuchTable
  | Some t => inr (order_by date_desc (filter (in_range lo hi) (rows t)), db)
  end.

End Sql.

(* ------------------------------------------------------------------ *)
(** ** The service: [class DatabaseService] *)

Module Service.
Import Sql.

Inductive Exception :=
| NotInitialized               (* [new Error('Database not initialized')] *)
| EngineError (e : Sql.Error). (* a rejected expo-sqlite promise *)

Inductive ConsoleLine :=
| log (msg : string)
| error (msg : string) (e : Exception).

(** The process and its surroundings: the field [this.db] (only whether it
    is set matters, there is one database file), the file, the console,
    and what the environment decides: which of the coming engine calls
    fail at the storage layer ([faults], one flag per call, none once the
    list is used up), and what [datetime('now')] and
    [new Date().toISOString()] read at each moment. *)
Record World := mkWorld {
  db : bool;
  file : Database;
  console : list ConsoleLine;
  faults : list bool;
  ticks : nat;
  datetime_now : nat -> text;
  toISOString_now : nat -> text
}.

Inductive Completion (A : Type) :=
| Return (a : A)
| Throw (e : Exception).
Arguments Return {A} a.
Arguments Throw {A} e.

Definition M (A : Type) : Type := World -> Completion A * World.

Definition ret {A} (a : A) : M A := fun w => (Return a, w).

Definition bind {A B} (m : M A) (k : A -> M B) : M B :=
  fun w => match m w with
           | (Return a, w') => k a w'
           | (Throw e, w') => (Throw e, w')
           end.

Definition throw {A} (e : Exception) : M A := fun w => (Throw e, w).

Definition try_catch {A} (body : M A) (handler : Exception -> M A) : M A :=
  fun w => match body w with
           | (Return a, w') => (Return a, w')
           | (Throw e, w') => handler e w'
           end.

Declare Scope service_scope.
Delimit Scope service_scope with service.
Notation "x <- m ;; k" := (bind m (fun x => k))
  (at level 61, m at next level, right associativity) : service_scope.
Notation "m ;; k" := (bind m (fun _ => k))
  (at level 61, right associativity) : service_scope.
Local Open Scope service_scope.

Definition console_log (msg : string) : M unit :=
  fun w => (Return tt,
            mkWorld (db w) (file w) (console w ++ [log msg]) (faults w)
                    (ticks w) (datetime_now w) (toISOString_now w)).

Definition console_error (msg : string) (e : Exception) : M unit :=
  fun w => (Return tt,
            mkWorld (db w) (file w) (console w ++ [error msg e]) (faults w)
                    (ticks w) (datetime_now w) (toISOString_now w)).

(** [this.db !== null] *)
Definition this_db : M bool := fun w => (Return (db w), w).

(** The world after one engine call: its fault flag is used up and time
    has moved on. *)
Definition after_call (w : World) (f : Database) : World :=
  mkWorld (db w) f (console w) (tl (faults w)) (S (ticks w))
          (datetime_now w) (toISOString_now w).

Definition fails_now (w : World) : bool :=
  match faults w with
  | b :: _ => b
  | [] => false
  end.

(** [await this.db.execAsync(..)], [runAsync], [getAllAsync],
    [getFirstAsync]: one statement, which either fails at the storage
    layer, or is rejected by the engine (the file is then unchanged), or
    takes effect. *)
Definition await {A} (stmt : Database -> Result A) : M A :=
  fun w =>
    if fails_now w then (Throw (EngineError SQLITE_IOERR), after_call w (file w))
    else match stmt (file w) with
         | inl e => (Throw (EngineError e), after_call w (file w))
         | inr (a, f) => (Return a, after_call w f)
         end.

(** A statement that evaluates [datetime('now')]. *)
Definition await_at {A} (stmt : text -> Database -> Result A) : M A :=
  fun w => await (stmt (datetime_now w (ticks w))) w.

(** [new Date().toISOString()] *)
Definition toISOString : M text :=
  fun w => (Return (toISOString_now w (ticks w)), w).

(** [this.db = await SQLite.openDatabaseAsync('expenses.db')] *)
Definition open_database : M unit :=
  fun w =>
    if fails_now w then (Throw (EngineError SQLITE_IOERR), after_call w (file w))
    else (Return tt,
          mkWorld true (file w) (console w) (tl (faults w)) (S (ticks w))
                  (datetime_now w) (toISOString_now w)).

(** [for (const x of xs) { await body(x) }] *)
Fixpoint for_of {A} (xs : list A) (body : A -> M unit) : M unit :=
  match xs with
  | [] => ret tt
  | x :: xs' => body x ;; for_of xs' body
  end.

(** [private async recreateTableWithCreatedAt()] *)
Definition recreateTableWithCreatedAt : M unit :=
  set <- this_db ;;
  if negb set then ret tt else
  existingData <- await select_all ;;
  await drop_backup_if_exists ;;
  await create_backup ;;
  await drop_table ;;
  await create_table ;;
  for_of existingData (fun expense =>
    stamp <- toISOString ;;
    await (insert_with_id
             (mkExpense (id expense) (title expense) (amount expense)
                        (category expense) (date expense)
                        (Some (Js.or_empty (description expense)))
                        (Some (Js.or_text (created_at expense) stamp)))) ;;
    ret tt) ;;
  await drop_backup_if_exists ;;
  console_log "Table recreated successfully with created_at column".

(** The [try] block of [ensureCreatedAtColumn]: inspect the columns and
    add [created_at] in place when it is missing. *)
Definition addColumnInPlace : M unit :=
  tableInfo <- await table_info ;;
  let hasCreatedAt :=
    existsb (fun name => String.eqb name "created_at") tableInfo in
  if negb hasCreatedAt then
    console_log "Adding created_at column to expenses table" ;;
    await add_created_at_column ;;
    await_at backfill_created_at ;;
    console_log "Created_at column added successfully"
  else ret tt.

(** Its [catch] block: log, then try the reconstruction, whose own failure
    is logged and dropped. *)
Definition recreateFallback (e : Exception) : M unit :=
  console_error "Error ensuring created_at column:" e ;;
  try_catch
    (console_log "Attempting table recreation..." ;;
     recreateTableWithCreatedAt)
    (fun recreateError =>
       console_error "Error recreating table:" recreateError).

(** [private async ensureCreatedAtColumn()] *)
Definition ensureCreatedAtColumn : M unit :=
  set <- this_db ;;
  if negb set then ret tt else
  try_catch addColumnInPlace recreateFallback.

(** [async initializeDatabase()] *)
Definition initializeDatabase : M unit :=
  try_catch
    (open_database ;;
     await create_table_if_not_exists ;;
     ensureCreatedAtColumn ;;
     console_log "Database initialized successfully")
    (fun e =>
       console_error "Error initializing database:" e ;;
       throw e).

(** The guard that opens every public method. *)
Definition guarded {A} (body : M A) : M A :=
  set <- this_db ;;
  if negb set then throw NotInitialized else body.

(** [async addExpense(expense)] *)
Definition addExpense (expense : NewExpense) : M Z :=
  guarded
    (try_catch
       (await_at (fun now =>
          insert now (n_title expense) (n_amount expense) (n_category expense)
                 (n_date expense) (Js.or_empty (n_description expense))))
       (fun e => console_error "Error adding expense:" e ;; throw e)).

(** [async getAllExpenses()] *)
Definition getAllExpenses : M (list Expense) :=
  guarded
    (try_catch
       (await select_all_ordered)
       (fun e => console_error "Error fetching expenses:" e ;; throw e)).

(** [async getExpenseById(id)]; [None] is [null]. *)
Definition getExpenseById (i : Z) : M (option Expense) :=
  guarded
    (try_catch
       (await (select_by_id i))
       (fun e => console_error "Error fetching expense by id:" e ;; throw e)).

(** [async updateExpense(id, expense)] *)
Definition updateExpense (i : Z) (expense : NewExpense) : M unit :=
  guarded
    (try_catch
       (await (update_by_id (n_title expense) (n_amount expense)
                            (n_category expense) (n_date expense)
                            (Js.or_empty (n_description expense)) i))
       (fun e => console_error "Error updating expense:" e ;; throw e)).

(** [async deleteExpense(id)] *)
Definition deleteExpense (i : Z) : M unit :=
  guarded
    (try_catch
       (await (delete_by_id i))
       (fun e => console_error "Error deleting expense:" e ;; throw e)).

(** [async searchExpenses(query)]; the bound parameter is
    [`%${query}%`]. *)
Definition searchExpenses (query : text) : M (list Expense) :=
  guarded
    (try_catch
       (await (select_like ("%" ++ query ++ "%")%string))
       (fun e => console_error "Error searching expenses:" e ;; throw e)).

(** [interface ExpenseStats], without [monthlyData]. *)
Record ExpenseStats := mkStats {
  totalExpenses : float;
  categorySums : Js.Dict
}.

(** [async getExpenseStats()] *)
Definition getExpenseStats : M ExpenseStats :=
  guarded
    (try_catch
       (totalResult <- await select_total ;;
        categoryResult <- await select_category_totals ;;
        await select_monthly_totals ;;
        let categorySums :=
          fold_left (fun acc item => Js.assign acc (fst item) (snd item))
                    categoryResult [] in
        ret (mkStats (Js.or_zero totalResult) categorySums))
       (fun e => console_error "Error fetching expense stats:" e ;; throw e)).

(** [async clearAllData()] *)
Definition clearAllData : M unit :=
  guarded
    (try_catch
       (await delete_all)
       (fun e => console_error "Error clearing all data:" e ;; throw e)).

(** [async resetDatabase()] *)
Definition resetDatabase : M unit :=
  guarded
    (try_catch
       (await drop_table_if_exists ;;
        await create_table ;;
        console_log "Database reset successfully")
       (fun e => console_error "Error resetting database:" e ;; throw e)).

(** [async getExpensesByDateRange(startDate, endDate)] *)
Definition getExpensesByDateRange (startDate endDate : text) : M (list Expense) :=
  guarded
    (try_catch
       (await (select_date_range startDate endDate))
       (fun e =>
          console_error "Error fetching expenses by date range:" e ;; throw e)).

End Service.

(* ------------------------------------------------------------------ *)
(** ** Vocabulary of the specification *)

Module Spec.
Import Sql Service.

(** *** Inputs and stores *)

(** A valid expense input: the title is not empty and the amount is a
    positive number. *)
Definition valid (x : NewExpense) : Prop :=
  n_title x <> "" /\ (0 <? n_amount x)%float = true.

(** The store is initialized and in working order: the handle is set, the
    [expenses] table [t] exists, and no storage failure is pending. *)
Definition operational (w : World) (t : Table) : Prop :=
  db w = true /\ faults w = [] /\ expenses (file w) = Some t.

(** AUTOINCREMENT still has a rowid to hand out. *)
Definition has_room (w : World) (t : Table) : Prop :=
  (last_rowid (file w) t < MAX_ROWID)%Z.

(** The [expenses] table of a world (the empty one if it has none). *)
Definition table_of (w : World) : Table :=
  match expenses (file w) with
  | Some t => t
  | None => fresh_table
  end.

(** The row [addExpense x] writes into table [t] of world [w]. *)
Definition added_row (w : World) (t : Table) (x : NewExpense) : Expense :=
  mkExpense (last_rowid (file w) t + 1) (n_title x) (n_amount x)
            (n_category x) (n_date x)
            (Some (Js.or_empty (n_description x)))
            (match created_at_column t with
             | DefaultNow => Some (datetime_now w (ticks w))
             | _ => None
             end).

(** What [getExpenseById] and [getAllExpenses] show of the row [i] in
    world [w]: it is there, and wherever it appears its description is
    the empty string. *)
Definition shown_with_empty_description (i : Z) (w : World) : Prop :=
  (exists r w', getExpenseById i w = (Return (Some r), w') /\
                description r = Some "") /\
  (exists l w', getAllExpenses w = (Return l, w') /\
                (exists r, In r l /\ id r = i) /\
                (forall r, In r l -> id r = i -> description r = Some "")).

(** The call fails with the uninitialized-store error and changes
    nothing. *)
Definition rejected {A} (m : M A) (w : World) : Prop :=
  m w = (Throw NotInitialized, w).

(** *** Substring search up to letter case *)

Section Nocase.
Variable fold : ascii -> ascii.

Fixpoint starts_with (q s : text) : bool :=
  match q, s with
  | EmptyString, _ => true
  | String _ _, EmptyString => false
  | String c q', String d s' =>
      (Ascii.eqb (fold c) (fold d) && starts_with q' s')%bool
  end.

Fixpoint contains (q s : text) : bool :=
  (starts_with q s ||
   match s with
   | EmptyString => false
   | String _ s' => contains q s'
   end)%bool.

(** [q] occurs in the title, the description or the category. *)
Definition occurs_in (q : text) (r : Expense) : bool :=
  (contains q (title r)
   || match description r with Some d => contains q d | None => false end
   || contains q (category r))%bool.
End Nocase.

(** Lower case by the simple case mapping of Unicode, on the characters of
    the model: A-Z and the Latin-1 capitals U+00C0-U+00DE (U+00D7, the
    multiplication sign, excepted). *)
Definition simple_lower (c : ascii) : ascii :=
  let n := nat_of_ascii c in
  if ((Nat.leb 65 n && Nat.leb n 90)
      || (Nat.leb 192 n && Nat.leb n 222 && negb (Nat.eqb n 215)))%bool
  then ascii_of_nat (n + 32) else c.

(** "Contains [q] as a case-insensitive substring", as the specification
    words it. *)
Definition occurs_nocase : text -> Expense -> bool := occurs_in simple_lower.

(** A record as LIKE reads it: the title, the description and the
    category each up to its first U+0000. *)
Definition as_read (r : Expense) : Expense :=
  mkExpense (id r) (c_string (title r)) (amount r) (c_string (category r))
            (date r) (option_map c_string (description r)) (created_at r).

(** [q] occurs in a field up to the case of the ASCII letters only, the
    fields taken as LIKE reads them. *)
Definition occurs_ascii_nocase (q : text) (r : Expense) : bool :=
  occurs_in ascii_lower q (as_read r).

(** No LIKE wildcard in the query. *)
Fixpoint wildcard_free (q : text) : bool :=
  match q with
  | EmptyString => true
  | String c q' =>
      (negb (Ascii.eqb c "%") && negb (Ascii.eqb c "_") && wildcard_free q')%bool
  end.

(** No U+0000 in the query. *)
Fixpoint nul_free (q : text) : bool :=
  match q with
  | EmptyString => true
  | String c q' => (negb (Ascii.eqb c "000") && nul_free q')%bool
  end.

(** The longest query, in bytes of UTF-8, whose pattern, the query
    between two percent signs, LIKE accepts. *)
Definition MAX_QUERY_LENGTH : Z := MAX_LIKE_PATTERN_LENGTH - 2.

(** *** Orders on results *)

(** [a] may precede [b] under "date descending, then id descending". *)
Definition newer_first (a b : Expense) : Prop :=
  String.ltb (date b) (date a) = true
  \/ (date a = date b /\ (id b <= id a)%Z).

(** [a] may precede [b] under "date descending". *)
Definition later_date_first (a b : Expense) : Prop :=
  String.leb (date b) (date a) = true.

(** *** Statistics *)

(** The entries [getExpenseStats] assigns to [categorySums], in the order
    of the query: one per category, with the SUM over its rows. *)
Definition category_totals (rs : list Expense) : list (text * option float) :=
  order_by total_desc
    (map (group_total rs) (order_by text_le (distinct (map category rs)))).

(** Entries that become properties of [categorySums]. *)
Definition own_key (item : text * option float) : bool :=
  negb (String.eqb (fst item) "__proto__").

(** *** Histories of calls *)

(** One call of a public method of the store. *)
Inductive Call :=
| Add (x : NewExpense)
| GetAll
| GetById (i : Z)
| Update (i : Z) (x : NewExpense)
| Delete (i : Z)
| SearchFor (q : text)
| Stats
| DateRange (lo hi : text)
| Clear
| ResetDb.

Definition world_after {A} (m : M A) (w : World) : World := snd (m w).

(** Performs the call; the caller survives an exception.  The result is
    the id [addExpense] returned, if the call was one that did. *)
Definition perform (c : Call) (w : World) : option Z * World :=
  match c with
  | Add x =>
      match addExpense x w with
      | (Return i, w') => (Some i, w')
      | (Throw _, w') => (None, w')
      end
  | GetAll => (None, world_after getAllExpenses w)
  | GetById i => (None, world_after (getExpenseById i) w)
  | Update i x => (None, world_after (updateExpense i x) w)
  | Delete i => (None, world_after (deleteExpense i) w)
  | SearchFor q => (None, world_after (searchExpenses q) w)
  | Stats => (None, world_after getExpenseStats w)
  | DateRange lo hi => (None, world_after (getExpensesByDateRange lo hi) w)
  | Clear => (None, world_after clearAllData w)
  | ResetDb => (None, world_after resetDatabase w)
  end.

(** The world a history of calls leads to. *)
Fixpoint run (cs : list Call) (w : World) : World :=
  match cs with
  | [] => w
  | c :: cs' => run cs' (snd (perform c w))
  end.

Definition is_reset (c : Call) : bool :=
  match c with ResetDb => true | _ => false end.

(** *** The lifetime of the store *)

(** An event in the life of the store: a call of a public method, a
    start ([initializeDatabase]), or the end of the process, after which
    the next process begins with the handle unset and the file as it
    is. *)
Inductive Event :=
| Do (c : Call)
| Start
| Exit.

Definition process_ends (w : World) : World :=
  mkWorld false (file w) (console w) (faults w) (ticks w)
          (datetime_now w) (toISOString_now w).

(** What an event does; a start survives its exception like a call. *)
Definition happen (ev : Event) (w : World) : option Z * World :=
  match ev with
  | Do c => perform c w
  | Start => (None, world_after initializeDatabase w)
  | Exit => (None, process_ends w)
  end.

(** The ids handed out along a life, oldest first. *)
Fixpoint ids_over (evs : list Event) (w : World) : list Z :=
  match evs with
  | [] => []
  | ev :: evs' =>
      match happen ev w with
      | (Some i, w') => i :: ids_over evs' w'
      | (None, w') => ids_over evs' w'
      end
  end.

(** The start made in world [w] rebuilds the table: the database opens,
    CREATE TABLE IF NOT EXISTS succeeds, and the [try] block of
    [ensureCreatedAtColumn] throws, so that its [catch] block calls
    [recreateTableWithCreatedAt]. *)
Definition rebuilds (w : World) : bool :=
  match open_database w with
  | (Return _, w1) =>
      match await create_table_if_not_exists w1 with
      | (Return _, w2) =>
          match addColumnInPlace w2 with
          | (Throw _, _) => true
          | (Return _, _) => false
          end
      | (Throw _, _) => false
      end
  | (Throw _, _) => false
  end.

(** A life without [resetDatabase] and without a start that rebuilds the
    table. *)
Fixpoint undisturbed (evs : list Event) (w : World) : bool :=
  match evs with
  | [] => true
  | ev :: evs' =>
      (match ev with
       | Do c => negb (is_reset c)
       | Start => negb (rebuilds w)
       | Exit => true
       end
       && undisturbed evs' (snd (happen ev w)))%bool
  end.

(** The computation [m] moves the file only along the relation [P]. *)
Definition keeps (P : Database -> Database -> Prop) {A} (m : M A) : Prop :=
  forall w, P (file w) (file (snd (m w))).

(** The AUTOINCREMENT counter does not go down. *)
Definition seq_grows (d d' : Database) : Prop :=
  (seq_value d <= seq_value d')%Z.

(** *** Schema repair *)

(** The world in which the reconstruction is attempted after the in-place
    addition failed with [e] in world [w]: both console lines of the
    [catch] block are written. *)
Definition fallback_entered (e : Exception) (w : World) : World :=
  world_after (console_error "Error ensuring created_at column:" e ;;
               console_log "Attempting table recreation...")%service w.

(** The world the repair step ends in once the reconstruction has run
    from [w]: as the reconstruction left it, with one more console line
    if the reconstruction failed. *)
Definition fallback_left (w : World) : World :=
  match recreateTableWithCreatedAt w with
  | (Return _, w') => w'
  | (Throw e', w') =>
      world_after (console_error "Error recreating table:" e') w'
  end.

(** *** Four properties in the words of the specification *)

(** "[add] followed by [getById] returns a record equal to the input plus
    a non-null assigned [id] and [created_at]". *)
Definition roundtrip_as_stated (x : NewExpense) (w : World) : Prop :=
  exists i w1 r w2,
    addExpense x w = (Return i, w1) /\
    getExpenseById i w1 = (Return (Some r), w2) /\
    id r = i /\
    title r = n_title x /\ amount r = n_amount x /\
    category r = n_category x /\ date r = n_date x /\
    description r = n_description x /\
    created_at r <> None.

(** "[update(id, X)] followed by [getById(id)] returns [X] with the
    original [id] and [created_at] preserved", [old] being the record
    before the update. *)
Definition update_as_stated (i : Z) (x : NewExpense) (old : Expense)
           (w : World) : Prop :=
  exists w1 r w2,
    updateExpense i x w = (Return tt, w1) /\
    getExpenseById i w1 = (Return (Some r), w2) /\
    title r = n_title x /\ amount r = n_amount x /\
    category r = n_category x /\ date r = n_date x /\
    description r = n_description x /\
    id r = id old /\ created_at r = created_at old.

(** "[sum(categorySums.values()) == totalExpenses]", with the [==] of
    JavaScript on numbers. *)
Definition stats_as_stated (w : World) : Prop :=
  exists s w',
    getExpenseStats w = (Return s, w') /\
    PrimFloat.eqb (Js.sum_values (Js.values (categorySums s)))
                  (totalExpenses s) = true.

(** "[search(q)] returns exactly the set of records whose [title],
    [description], or [category] contains [q] case-insensitively",
    ordered by date descending; [t] is the table searched. *)
Definition search_as_stated (q : text) (t : Table) (w : World) : Prop :=
  exists l w',
    searchExpenses q w = (Return l, w') /\
    (forall r, In r l <-> In r (rows t) /\ occurs_nocase q r = true) /\
    StronglySorted later_date_first l.

(** *** Sample data *)

(** A process that has not opened its database yet; [fl] tells which of
    the coming engine calls fail. *)
Definition boot (f : Database) (fl : list bool) : World :=
  mkWorld false f [] fl 0
          (fun _ => "2025-08-18 10:00:00")
          (fun _ => "2025-08-18T10:00:00.000Z").

(** A newly installed application after a successful start. *)
Definition started : World :=
  world_after initializeDatabase (boot empty_file []).

Definition groceries : NewExpense :=
  mkNewExpense "Grocery Shopping" 85.5 "Food" "2025-08-18"
               (Some "Weekly grocery shopping at supermarket").

Definition fuel : NewExpense :=
  mkNewExpense "Gas Station" 45 "Transportation" "2025-08-17" None.

Definition movie : NewExpense :=
  mkNewExpense "Movie Tickets" 28 "Entertainment" "2025-08-16"
               (Some "Evening movie with friends").

(** The new installation with one expense recorded (it gets id 1). *)
Definition stocked : World := world_after (addExpense groceries) started.

(** The groceries as they are stored in [stocked]. *)
Definition stored_groceries : Expense :=
  mkExpense 1 "Grocery Shopping" 85.5 "Food" "2025-08-18"
            (Some "Weekly grocery shopping at supermarket")
            (Some "2025-08-18 10:00:00").

(** The scenario of the specification, entered oldest first: the movie
    gets id 1, the fuel id 2, the groceries id 3. *)
Definition scenario : World :=
  world_after (addExpense movie ;; addExpense fuel ;; addExpense groceries)%service
              started.

(** A database written by a release older than [created_at]. *)
Definition legacy_file : Database :=
  mkDatabase
    (Some (mkTable Absent
             [mkExpense 1 "Rent" 700 "Bills" "2025-07-01" (Some "July") None;
              mkExpense 2 "Lunch" 12.5 "Food" "2025-07-02" None None]))
    None (Some 2%Z).

(** That installation after a successful start of the current release:
    the column was added in place. *)
Definition upgraded : World :=
  world_after initializeDatabase (boot legacy_file []).

(** A start during which [CREATE TABLE IF NOT EXISTS] fails at the
    storage layer: [initializeDatabase] throws after the database was
    opened. *)
Definition failed_start : World :=
  world_after initializeDatabase (boot legacy_file [false; true]).

(** After the database was opened and the table ensured, a store whose
    in-place column addition fails ([ALTER TABLE]) and whose
    reconstruction fails too ([DROP TABLE expenses]). *)
Definition repair_fails : World :=
  world_after (open_database ;; await create_table_if_not_exists)%service
              (boot legacy_file [false; false; false; true;
                                 false; false; false; true]).

(** U+00C9 and U+00E9, capital and small e with acute accent. *)
Definition E_acute : ascii := ascii_of_nat 201.
Definition e_acute : ascii := ascii_of_nat 233.

Definition CAFE : text := ("CAF" ++ String E_acute "")%string.
Definition cafe : text := ("caf" ++ String e_acute "")%string.

Definition coffee : NewExpense :=
  mkNewExpense CAFE 4.5 "Food" "2025-08-01" (Some "espresso").

(** The new installation with the coffee recorded (id 1). *)
Definition with_coffee : World := world_after (addExpense coffee) started.

(** A query of [n] letters. *)
Fixpoint letters (n : nat) : text :=
  match n with
  | O => EmptyString
  | S n' => String "a" (letters n')
  end.

(** A query one byte longer than LIKE accepts between its percent
    signs. *)
Definition long_query_text : text := letters (Z.to_nat 49999).

(** A record in the category ["__proto__"]. *)
Definition gift : NewExpense :=
  mkNewExpense "Gift" 5 "__proto__" "2025-08-01" None.

Definition with_gift : World := world_after (addExpense gift) started.

(** Three expenses in two categories: 10.10 and 120.00 for food, 20.20
    for transport. *)
Definition three_amounts : World :=
  world_after
    (addExpense (mkNewExpense "Snack" 10.1 "Food" "2025-08-01" None) ;;
     addExpense (mkNewExpense "Bus" 20.2 "Transportation" "2025-08-02" None) ;;
     addExpense (mkNewExpense "Dinner" 120 "Food" "2025-08-03" None))%service
    started.

End Spec.

(* ------------------------------------------------------------------ *)
(** ** Further vocabulary: effects and invariants of the store *)

Module Store.
Import Sql Service Spec.

(** What the storage layer throws when it fails. *)
Definition io_failure : Exception := EngineError SQLITE_IOERR.

(** The method [m], whose handler logs under [msg], passes the failure [e]
    on to its caller: it throws [e], writes one line to the console and
    leaves the file as it was. *)
Definition passes_on {A} (m : M A) (msg : string) (e : Exception)
           (w : World) : Prop :=
  exists w',
    m w = (Throw e, w') /\
    file w' = file w /\
    console w' = console w ++ [error msg e].

(** What the table, its primary key and its NOT NULL REAL column
    guarantee: no two rows share an id, no id is above the AUTOINCREMENT
    counter, and no amount is NaN. *)
Definition consistent (d : Database) : Prop :=
  match expenses d with
  | None => True
  | Some t =>
      NoDup (map id (rows t)) /\
      Forall (fun r => (id r <= seq_value d)%Z) (rows t) /\
      Forall (fun r => PrimFloat.is_nan (amount r) = false) (rows t)
  end.

(** The relation "consistency survives". *)
Definition stays_consistent (d d' : Database) : Prop :=
  consistent d -> consistent d'.

(** The columns of a row that a schema repair must not touch. *)
Definition content (r : Expense)
  : Z * text * float * text * text * option text :=
  (id r, title r, amount r, category r, date r, description r).

(** The columns a reconstruction carries over unchanged. *)
Definition essentials (r : Expense) : Z * text * float * text * text :=
  (id r, title r, amount r, category r, date r).

(** The row [r'] is the row [r] as [recreateTableWithCreatedAt] restores
    it: same id, title, amount, category and date, the description made a
    string, and a [created_at] that is set, to the old one when there was
    one. *)
Definition restored (r r' : Expense) : Prop :=
  essentials r' = essentials r /\
  description r' = Some (Js.or_empty (description r)) /\
  created_at r' <> None /\
  (forall c s, created_at r = Some (String c s) ->
               created_at r' = Some (String c s)).

(** The body of the loop of [recreateTableWithCreatedAt]: one row of the
    backup is inserted again. *)
Definition restoreRow (expense : Expense) : M unit :=
  (stamp <- toISOString ;;
   await (insert_with_id
            (mkExpense (id expense) (title expense) (amount expense)
                       (category expense) (date expense)
                       (Some (Js.or_empty (description expense)))
                       (Some (Js.or_text (created_at expense) stamp)))) ;;
   ret tt)%service.

(** The row the loop writes for [expense] at the moment [stamp]. *)
Definition restored_row (expense : Expense) (stamp : text) : Expense :=
  mkExpense (id expense) (title expense) (amount expense)
            (category expense) (date expense)
            (Some (Js.or_empty (description expense)))
            (Some (Js.or_text (created_at expense) stamp)).

(** *** More sample data *)



(** A process whose handle is set, on the file [f], with the storage
    failures [fl] ahead. *)
Definition opened (f : Database) (fl : list bool) : World :=
  mkWorld true f [] fl 0
          (fun _ => "2025-08-18 10:00:00")
          (fun _ => "2025-08-18T10:00:00.000Z").

End Store.

(* ------------------------------------------------------------------ *)
(** ** Amounts that add up without rounding *)

Module Exact.

(** The number of binary digits of a positive number. *)
Definition digits (p : positive) : Z := Zpos (digits2_pos p).

(** The 53-digit mantissa of a positive number of at most 53 digits. *)
Definition mantissa (p : positive) : positive :=
  Z.to_pos (Zpos p * 2 ^ (prec - digits p)).

(** The double of value [p] times 2^[e], with the sign [s]. *)
Definition canon (s : bool) (p : positive) (e : Z) : spec_float :=
  S754_finite s (mantissa p) (digits p - prec + e).

(** The double of value [n] times 2^[e], for [n] of at most 53 digits. *)
Definition scaled (e : Z) (n : Z) : spec_float :=
  match n with
  | Z0 => S754_zero false
  | Zpos p => canon false p e
  | Zneg p => canon true p e
  end.

(** [n] has at most 53 binary digits. *)
Definition fits (n : Z) : Prop := (Z.abs n < 2 ^ prec)%Z.

(** The exponents [e] at which every such [n] times 2^[e] is a normal
    double: from -1022 to 971. *)
Definition exponent_ok (e : Z) : Prop :=
  (emin + prec - 1 <= e <= emax - prec)%Z.

(** The double nearest to [n] times 2^[e]: [units 0 n] is the whole
    number [n], [units (-2) n] is [n] quarters. *)
Definition units (e n : Z) : float :=
  SF2Prim (binary_normalize prec emax n e false).

Definition zsum (l : list Z) : Z := fold_right Z.add 0%Z l.

(** The amounts of the scenario in halves: the movie (id 1) 56, the fuel
    (id 2) 90, the groceries 171. *)
Definition scenario_halves (r : Expense) : Z :=
  if Z.eqb (id r) 1 then 56%Z else if Z.eqb (id r) 2 then 90%Z else 171%Z.

End Exact.

(* ------------------------------------------------------------------ *)
(** ** The mediator: [AppProvider] ([context/AppContext.tsx]) *)

Module AppContext.
Import Sql Service Spec.

Inductive ThemeName := light | dark.

(** [interface AppSettings] *)
Record AppSettings := mkSettings {
  currency : text;
  defaultCategory : text;
  theme : ThemeName;
  biometricEnabled : bool;
  pinEnabled : bool
}.

(** The state hooks of [AppProvider]: [expenses], [settings], [loading]
    and [isAuthenticated]. *)
Record AppState := mkApp {
  st_expenses : list Expense;
  st_settings : AppSettings;
  st_loading : bool;
  st_isAuthenticated : bool
}.

(** The initial values given to [useState]. *)
Definition initial_state : AppState :=
  mkApp [] (mkSettings "USD" "Other" light false false) true false.

(** Computations of the provider: those of the service, with the state of
    the hooks, which an exception leaves as it is. *)
Definition C (A : Type) : Type :=
  AppState -> World -> Completion A * AppState * World.

Definition cret {A} (a : A) : C A := fun s w => (Return a, s, w).

Definition cbind {A B} (m : C A) (k : A -> C B) : C B :=
  fun s w => match m s w with
             | (Return a, s', w') => k a s' w'
             | (Throw e, s', w') => (Throw e, s', w')
             end.

Definition cthrow {A} (e : Exception) : C A := fun s w => (Throw e, s, w).

Definition ctry_catch {A} (body : C A) (handler : Exception -> C A) : C A :=
  fun s w => match body s w with
             | (Return a, s', w') => (Return a, s', w')
             | (Throw e, s', w') => handler e s' w'
             end.

(** [try { body } finally { after }] *)
Definition ctry_finally {A} (body : C A) (after : C unit) : C A :=
  fun s w => match body s w with
             | (c, s', w') =>
                 match after s' w' with
                 | (Return _, s'', w'') => (c, s'', w'')
                 | (Throw e, s'', w'') => (Throw e, s'', w'')
                 end
             end.

(** A call into the service. *)
Definition call {A} (m : M A) : C A :=
  fun s w => match m w with (c, w') => (c, s, w') end.

Declare Scope context_scope.
Delimit Scope context_scope with context.
Notation "x <- m ;; k" := (cbind m (fun x => k))
  (at level 61, m at next level, right associativity) : context_scope.
Notation "m ;; k" := (cbind m (fun _ => k))
  (at level 61, right associativity) : context_scope.
Local Open Scope context_scope.

Definition setExpenses (l : list Expense) : C unit :=
  fun s w => (Return tt,
              mkApp l (st_settings s) (st_loading s) (st_isAuthenticated s), w).

Definition setSettings (v : AppSettings) : C unit :=
  fun s w => (Return tt,
              mkApp (st_expenses s) v (st_loading s) (st_isAuthenticated s), w).

Definition setLoading (b : bool) : C unit :=
  fun s w => (Return tt,
              mkApp (st_expenses s) (st_settings s) b (st_isAuthenticated s), w).

Definition setIsAuthenticated (b : bool) : C unit :=
  fun s w => (Return tt,
              mkApp (st_expenses s) (st_settings s) (st_loading s) b, w).

(** [error.message], with the texts of SQLite. *)
Definition message (e : Exception) : string :=
  match e with
  | NotInitialized => "Database not initialized"
  | EngineError SQLITE_IOERR => "disk I/O error"
  | EngineError NoSuchTable => "no such table: expenses"
  | EngineError NoSuchColumn => "no such column: created_at"
  | EngineError DuplicateColumn => "duplicate column name: created_at"
  | EngineError TableExists => "table expenses already exists"
  | EngineError NotNullConstraint =>
      "NOT NULL constraint failed: expenses.amount"
  | EngineError PrimaryKeyConstraint => "UNIQUE constraint failed: expenses.id"
  | EngineError SQLITE_FULL => "database or disk is full"
  | EngineError PatternTooComplex => "LIKE or GLOB pattern too complex"
  end.

(** [s.includes(part)] *)
Definition includes (s part : string) : bool := contains (fun c => c) part s.

(** [const loadExpenses = async () => ...] *)
Definition loadExpenses : C unit :=
  ctry_catch
    (expenseList <- call getAllExpenses ;;
     setExpenses expenseList)
    (fun e =>
       call (console_error "Error loading expenses:" e) ;;
       if includes (message e) "no such column: created_at" then
         call (console_log
                 "Database schema issue detected, attempting to reset...") ;;
         ctry_catch
           (call resetDatabase ;;
            expenseList <- call getAllExpenses ;;
            setExpenses expenseList ;;
            call (console_log "Database reset successfully"))
           (fun resetError =>
              call (console_error "Error resetting database:" resetError))
       else cret tt).

(** [const refreshExpenses = async () => { await loadExpenses(); }] *)
Definition refreshExpenses : C unit := loadExpenses.

(** [const addExpense = async (expense) => ...] *)
Definition addExpense (expense : NewExpense) : C unit :=
  ctry_catch
    (call (Service.addExpense expense) ;;
     refreshExpenses)
    (fun e => call (console_error "Error adding expense:" e) ;; cthrow e).

(** [const updateExpense = async (id, expense) => ...] *)
Definition updateExpense (i : Z) (expense : NewExpense) : C unit :=
  ctry_catch
    (call (Service.updateExpense i expense) ;;
     refreshExpenses)
    (fun e => call (console_error "Error updating expense:" e) ;; cthrow e).

(** [const deleteExpense = async (id) => ...] *)
Definition deleteExpense (i : Z) : C unit :=
  ctry_catch
    (call (Service.deleteExpense i) ;;
     refreshExpenses)
    (fun e => call (console_error "Error deleting expense:" e) ;; cthrow e).

(** [const searchExpenses = async (query) => ...] *)
Definition searchExpenses (query : text) : C (list Expense) :=
  ctry_catch
    (call (Service.searchExpenses query))
    (fun e =>
       call (console_error "Error searching expenses:" e) ;; cret []).

(** [const authenticate = async () => ...] *)
Definition authenticate : C bool :=
  setIsAuthenticated true ;;
  loadExpenses ;;
  cret true.

(** [const logout = () => ...] *)
Definition logout : C unit :=
  setIsAuthenticated false ;;
  setExpenses [].

(** [const resetDatabase = async () => ...] *)
Definition resetDatabase : C unit :=
  ctry_catch
    (call Service.resetDatabase ;;
     refreshExpenses)
    (fun e => call (console_error "Error resetting database:" e) ;; cthrow e).

Section Settings.
(** [settingsService.getSettings()]: the settings service is not part of
    the sources at hand. *)
Variable getSettings : M AppSettings.

(** [const initializeApp = async () => ...] *)
Definition initializeApp : C unit :=
  ctry_finally
    (ctry_catch
       (setLoading true ;;
        call initializeDatabase ;;
        appSettings <- call getSettings ;;
        setSettings appSettings ;;
        if (pinEnabled appSettings || biometricEnabled appSettings)%bool
        then setIsAuthenticated false
        else (setIsAuthenticated true ;; loadExpenses))
       (fun e => call (console_error "Error initializing app:" e)))
    (setLoading false).
End Settings.

(** The list of the provider shows the table: it is what
    [getAllExpenses] returns now. *)
Definition in_sync (s : AppState) (w : World) : Prop :=
  fst (getAllExpenses w) = Return (st_expenses s).

End AppContext.

(* ------------------------------------------------------------------ *)
(** ** Screens and demo data *)

Module Screens.
Import Sql Service Spec AppContext.
Local Open Scope context_scope.

(** White space of [String.prototype.trim] among the characters of the
    model: TAB, LF, VT, FF, CR, SPACE and NO-BREAK SPACE. *)
Definition is_space (c : ascii) : bool :=
  let n := nat_of_ascii c in
  ((Nat.leb 9 n && Nat.leb n 13) || Nat.eqb n 32 || Nat.eqb n 160)%bool.

Fixpoint trim_start (s : text) : text :=
  match s with
  | EmptyString => EmptyString
  | String c s' => if is_space c then trim_start s' else s
  end.

(** Drops the white space at the end: the tail is trimmed first, and a
    space before an empty tail goes too. *)
Fixpoint trim_end (s : text) : text :=
  match s with
  | EmptyString => EmptyString
  | String c s' =>
      match trim_end s' with
      | EmptyString => if is_space c then EmptyString else String c EmptyString
      | rest => String c rest
      end
  end.

(** [s.trim()] *)
Definition trim (s : text) : text := trim_end (trim_start s).

(** Truthiness of a string. *)
Definition nonempty (s : text) : bool :=
  match s with EmptyString => false | _ => true end.

(** [const handleSearch = async () => ...] of [ExpensesScreen]; the
    result is the list given to [setFilteredExpenses]. *)
Definition handleSearch (searchQuery : text) : C (list Expense) :=
  if nonempty (trim searchQuery) then
    AppContext.searchExpenses searchQuery
  else
    fun s w => (Return (st_expenses s), s, w).

(** [const confirmClearData = async () => ...] of [SettingsScreen]; the
    result is the alert shown, title and message. *)
Definition confirmClearData : C (string * string) :=
  ctry_catch
    (call clearAllData ;;
     cret ("Success", "All data has been cleared"))
    (fun _ => cret ("Error", "Failed to clear data")).

(** The fields of the form of [AddExpenseScreen]; the date is a [Date], a
    number of milliseconds. *)
Record Form := mkForm {
  f_title : text;
  f_amount : text;
  f_category : text;
  f_date : Z;
  f_description : text
}.

Section Builtins.
(** [parseFloat] and [Date.prototype.toISOString] of the platform. *)
Variable parseFloat : text -> float.
Variable toISOString_of : Z -> text.

(** [s.split('T')[0]] *)
Fixpoint before_T (s : text) : text :=
  match s with
  | EmptyString => EmptyString
  | String c s' => if Ascii.eqb c "T" then EmptyString else String c (before_T s')
  end.

(** [const validateForm = (): boolean => ...]: the entries of [newErrors];
    [now] is [new Date()]. *)
Definition newErrors (now : Z) (f : Form) : list (text * text) :=
  (if negb (nonempty (trim (f_title f)))
   then [("title", "Title is required")] else [])
  ++ (let amountNum := parseFloat (f_amount f) in
      if (negb (nonempty (trim (f_amount f)))
          || PrimFloat.is_nan amountNum
          || (amountNum <=? 0)%float)%bool
      then [("amount", "Please enter a valid positive amount")] else [])
  ++ (if negb (nonempty (f_category f))
      then [("category", "Please select a category")] else [])
  ++ (if Z.ltb now (f_date f)
      then [("date", "Date cannot be in the future")] else []).

Definition validateForm (now : Z) (f : Form) : bool :=
  Nat.eqb (List.length (newErrors now f)) 0.

(** The object [newExpense] of [handleSave]. *)
Definition newExpense (f : Form) : NewExpense :=
  mkNewExpense (trim (f_title f)) (parseFloat (f_amount f)) (f_category f)
               (before_T (toISOString_of (f_date f)))
               (Some (trim (f_description f))).

(** [const handleSave = async () => ...] of [AddExpenseScreen]; the
    result is the alert shown, if any.  ([setLoading] there is the
    screen's own.) *)
Definition handleSave (now : Z) (f : Form) : C (option (string * string)) :=
  if negb (validateForm now f) then cret None
  else
    ctry_catch
      (AppContext.addExpense (newExpense f) ;;
       cret (Some ("Success", "Expense added successfully!")))
      (fun e =>
         call (console_error "Error adding expense:" e) ;;
         cret (Some ("Error", "Failed to add expense. Please try again."))).
End Builtins.

(** [demoExpenses] of [utils/demoData.ts] *)
Definition demoExpenses : list NewExpense :=
  [ mkNewExpense "Grocery Shopping" 85.5 "Food" "2025-08-18"
                 (Some "Weekly grocery shopping at supermarket");
    mkNewExpense "Gas Station" 45 "Transportation" "2025-08-17"
                 (Some "Fuel for car");
    mkNewExpense "Movie Tickets" 28 "Entertainment" "2025-08-16"
                 (Some "Evening movie with friends");
    mkNewExpense "Coffee Shop" 12.5 "Food" "2025-08-15"
                 (Some "Morning coffee and pastry");
    mkNewExpense "Pharmacy" 23.75 "Healthcare" "2025-08-14"
                 (Some "Prescription medication");
    mkNewExpense "Electricity Bill" 120 "Bills" "2025-08-13"
                 (Some "Monthly electricity bill");
    mkNewExpense "Book Purchase" 35.99 "Education" "2025-08-12"
                 (Some "Programming textbook");
    mkNewExpense "New Shirt" 55 "Shopping" "2025-08-11"
                 (Some "Casual shirt for work");
    mkNewExpense "Restaurant Dinner" 78.25 "Food" "2025-08-10"
                 (Some "Dinner at Italian restaurant");
    mkNewExpense "Uber Ride" 15.5 "Transportation" "2025-08-09"
                 (Some "Ride to downtown") ].

(** [export const insertDemoData = async () => ...] *)
Definition insertDemoData : M unit :=
  try_catch
    (for_of demoExpenses (fun expense => Service.addExpense expense ;; ret tt)
     ;; console_log "Demo data inserted successfully")%service
    (fun e => console_error "Error inserting demo data:" e).

(** The record [r] holds the fields of the input [x], as [addExpense]
    writes them. *)
Definition carries (x : NewExpense) (r : Expense) : Prop :=
  title r = n_title x /\ amount r = n_amount x /\
  category r = n_category x /\ date r = n_date x /\
  description r = Some (Js.or_empty (n_description x)).

(** None of the next [n] engine calls fails at the storage layer. *)
Fixpoint quiet_for (n : nat) (fl : list bool) : bool :=
  match n, fl with
  | O, _ => true
  | S _, [] => true
  | S n', b :: fl' => (negb b && quiet_for n' fl')%bool
  end.

(** *** Sample forms *)

(** A form as a user leaves it, with blanks around the title. *)
Definition lunch_form : Form :=
  mkForm "  Lunch " "12.50" "Food" 1755511200000 " with Ana ".

(** A stand-in for [parseFloat] on the sample forms. *)
Definition sample_parseFloat (s : text) : float :=
  if String.eqb s "12.50" then 12.5%float else PrimFloat.nan.

(** A stand-in for [toISOString] on the sample forms. *)
Definition sample_toISOString (d : Z) : text := "2025-08-18T10:00:00.000Z".

(** An uninitialized process with nothing on the disk. *)
Definition cold : World := boot empty_file [].

End Screens.

(* ================================================================== *)
(** * Properties *)

Import Sql Service Spec.
Local Open Scope service_scope.

(* ------------------------------------------------------------------ *)
(** ** Numbers *)

Lemma SFcompare_refl (s : spec_float) :
  s <> S754_nan -> SFcompare s s = Some Eq.
Proof.
  destruct s as [ [|] | [|] | | [|] m e]; simpl; try congruence; intros _;
    now rewrite Z.compare_refl, Pos.compare_refl.
Qed.

(** A positive number is not NaN, so SQLite stores it as it is. *)
Lemma positive_not_nan (a : float) :
  (0 <? a)%float = true -> PrimFloat.is_nan a = false.
Proof.
  intros H. unfold PrimFloat.is_nan.
  rewrite FloatAxioms.ltb_spec in H. rewrite FloatAxioms.eqb_spec.
  unfold SFltb in H. unfold SFeqb.
  destruct (Prim2SF a) eqn:E;
    try (rewrite SFcompare_refl by congruence; reflexivity).
  simpl in H. destruct (Prim2SF 0); discriminate.
Qed.

Lemma real_value_valid (x : NewExpense) :
  valid x -> real_value (n_amount x) = Some (n_amount x).
Proof.
  intros [_ Hpos]. unfold real_value.
  now rewrite (positive_not_nan _ Hpos).
Qed.

(* ------------------------------------------------------------------ *)
(** ** The monad and the engine calls *)

Lemma fails_now_nil (w : World) : faults w = [] -> fails_now w = false.
Proof. unfold fails_now. now intros ->. Qed.

Lemma await_returns {A} (stmt : Database -> Result A) (w : World) a f :
  fails_now w = false -> stmt (file w) = inr (a, f) ->
  await stmt w = (Return a, after_call w f).
Proof. intros Hf Hs. unfold await. now rewrite Hf, Hs. Qed.

Lemma await_rejects {A} (stmt : Database -> Result A) (w : World) e :
  fails_now w = false -> stmt (file w) = inl e ->
  await stmt w = (Throw (EngineError e), after_call w (file w)).
Proof. intros Hf Hs. unfold await. now rewrite Hf, Hs. Qed.

Lemma guarded_closed {A} (body : M A) (w : World) :
  db w = false -> guarded body w = (Throw NotInitialized, w).
Proof. intros H. unfold guarded, bind, this_db, throw. now rewrite H. Qed.

Lemma guarded_open {A} (body : M A) (w : World) :
  db w = true -> guarded body w = body w.
Proof. intros H. unfold guarded, bind, this_db. now rewrite H. Qed.

Lemma try_catch_returns {A} (body : M A) handler (w w' : World) a :
  body w = (Return a, w') -> try_catch body handler w = (Return a, w').
Proof. intros H. unfold try_catch. now rewrite H. Qed.

(** After an engine call on an operational store, the store is still
    operational (on the table the call left). *)
Lemma operational_after_call (w : World) (t t' : Table) (f : Database) :
  operational w t -> expenses f = Some t' -> operational (after_call w f) t'.
Proof.
  intros (Hdb & Hfl & _) Hf. repeat split; simpl; auto. now rewrite Hfl.
Qed.

(* ------------------------------------------------------------------ *)
(** ** The methods on an operational store *)

Section Operational.
Variables (w : World) (t : Table).
Hypothesis Hop : operational w t.

Lemma quiet : fails_now w = false.
Proof. apply fails_now_nil, Hop. Qed.

Lemma getExpenseById_operational (i : Z) :
  getExpenseById i w = (Return (lookup i (rows t)), after_call w (file w)).
Proof.
  destruct Hop as (Hdb & _ & Ht).
  unfold getExpenseById. rewrite guarded_open by assumption.
  apply try_catch_returns, await_returns; [exact quiet|].
  unfold select_by_id. now rewrite Ht.
Qed.

Lemma getAllExpenses_operational :
  getAllExpenses w =
    (Return (order_by date_desc_id_desc (rows t)), after_call w (file w)).
Proof.
  destruct Hop as (Hdb & _ & Ht).
  unfold getAllExpenses. rewrite guarded_open by assumption.
  apply try_catch_returns, await_returns; [exact quiet|].
  unfold select_all_ordered. now rewrite Ht.
Qed.

Lemma searchExpenses_operational (q : text) :
  (too_complex ("%" ++ q ++ "%")%string && negb (no_row (rows t)))%bool
    = false ->
  searchExpenses q w =
    (Return (order_by date_desc
               (filter (matches ("%" ++ q ++ "%")%string) (rows t))),
     after_call w (file w)).
Proof.
  intros Hlen. destruct Hop as (Hdb & _ & Ht).
  unfold searchExpenses. rewrite guarded_open by assumption.
  apply try_catch_returns, await_returns; [exact quiet|].
  unfold select_like. now rewrite Ht, Hlen.
Qed.

Lemma searchExpenses_too_complex (q : text) :
  (too_complex ("%" ++ q ++ "%")%string && negb (no_row (rows t)))%bool
    = true ->
  searchExpenses q w =
    (Throw (EngineError PatternTooComplex),
     world_after (console_error "Error searching expenses:"
                                (EngineError PatternTooComplex))
                 (after_call w (file w))).
Proof.
  intros Hlen. destruct Hop as (Hdb & _ & Ht).
  unfold searchExpenses. rewrite guarded_open by assumption.
  unfold try_catch, await. rewrite quiet.
  unfold select_like. now rewrite Ht, Hlen.
Qed.

Lemma addExpense_operational (x : NewExpense) :
  valid x -> has_room w t ->
  addExpense x w =
    (Return (last_rowid (file w) t + 1)%Z,
     after_call w
       (mkDatabase (Some (mkTable (created_at_column t)
                                  (insert_row (added_row w t x) (rows t))))
                   (expenses_backup (file w))
                   (Some (last_rowid (file w) t + 1)%Z))).
Proof.
  intros Hv Hroom. destruct Hop as (Hdb & _ & Ht).
  unfold addExpense. rewrite guarded_open by assumption.
  apply try_catch_returns. unfold await_at.
  apply await_returns; [exact quiet|].
  unfold insert. rewrite Ht, (real_value_valid _ Hv).
  unfold has_room in Hroom.
  destruct (Z.leb_spec MAX_ROWID (last_rowid (file w) t)); [lia|].
  reflexivity.
Qed.

Lemma updateExpense_operational (i : Z) (x : NewExpense) :
  valid x ->
  updateExpense i x w =
    (Return tt,
     after_call w
       (match lookup i (rows t) with
        | Some _ =>
            with_rows (file w) t
              (map (set_fields (n_title x) (n_amount x) (n_category x)
                               (n_date x) (Js.or_empty (n_description x)) i)
                   (rows t))
        | None => file w
        end)).
Proof.
  intros Hv. destruct Hop as (Hdb & _ & Ht).
  unfold updateExpense. rewrite guarded_open by assumption.
  apply try_catch_returns, await_returns; [exact quiet|].
  unfold update_by_id. rewrite Ht, (real_value_valid _ Hv).
  now destruct (lookup i (rows t)).
Qed.

Lemma deleteExpense_operational (i : Z) :
  deleteExpense i w =
    (Return tt,
     after_call w
       (with_rows (file w) t (filter (fun r => negb (has_id i r)) (rows t)))).
Proof.
  destruct Hop as (Hdb & _ & Ht).
  unfold deleteExpense. rewrite guarded_open by assumption.
  apply try_catch_returns, await_returns; [exact quiet|].
  unfold delete_by_id. now rewrite Ht.
Qed.

End Operational.

(* ------------------------------------------------------------------ *)
(** ** Rows and primary keys *)

Lemma max_rowid_bound (r : Expense) (rs : list Expense) :
  In r rs -> (id r <= max_rowid rs)%Z.
Proof.
  induction rs as [|r' rs IH]; simpl; [easy|].
  intros [->|Hin]; [lia|]. specialize (IH Hin). lia.
Qed.

Lemma lookup_In (i : Z) (rs : list Expense) (r : Expense) :
  lookup i rs = Some r -> In r rs /\ id r = i.
Proof.
  unfold lookup. intros H. apply find_some in H as [Hin Hid].
  split; [assumption|]. now apply Z.eqb_eq.
Qed.

Lemma lookup_above (i : Z) (rs : list Expense) :
  (max_rowid rs < i)%Z -> lookup i rs = None.
Proof.
  intros Hlt. destruct (lookup i rs) as [r|] eqn:E; [|reflexivity].
  apply lookup_In in E as [Hin <-].
  apply max_rowid_bound in Hin. lia.
Qed.

Lemma lookup_insert_row (r : Expense) (rs : list Expense) :
  lookup (id r) rs = None -> lookup (id r) (insert_row r rs) = Some r.
Proof.
  unfold lookup.
  induction rs as [|r' rs IH]; simpl.
  - intros _. unfold has_id. now rewrite Z.eqb_refl.
  - destruct (has_id (id r) r') eqn:E; [discriminate|]. intros Hrest.
    destruct (id r <? id r')%Z; simpl.
    + unfold has_id at 1. now rewrite Z.eqb_refl.
    + rewrite E. now apply IH.
Qed.

Lemma lookup_insert_row_other (i : Z) (r : Expense) (rs : list Expense) :
  id r <> i -> lookup i (insert_row r rs) = lookup i rs.
Proof.
  intros Hne. unfold lookup.
  assert (Hr : has_id i r = false) by now apply Z.eqb_neq.
  induction rs as [|r' rs IH]; simpl.
  - now rewrite Hr.
  - destruct (id r <? id r')%Z; simpl.
    + now rewrite Hr.
    + now rewrite IH.
Qed.

Lemma In_insert_row (r x : Expense) (rs : list Expense) :
  In x (insert_row r rs) <-> x = r \/ In x rs.
Proof.
  induction rs as [|r' rs IH]; simpl.
  - intuition congruence.
  - destruct (id r <? id r')%Z; simpl; [intuition congruence|].
    rewrite IH. intuition congruence.
Qed.

Lemma set_fields_id ttl a c d ds i (r : Expense) :
  id (set_fields ttl a c d ds i r) = id r.
Proof. unfold set_fields. now destruct (has_id i r). Qed.

Lemma lookup_set_fields ttl a c d ds i (rs : list Expense) :
  lookup i (map (set_fields ttl a c d ds i) rs) =
  option_map (set_fields ttl a c d ds i) (lookup i rs).
Proof.
  unfold lookup.
  induction rs as [|r rs IH]; simpl; [reflexivity|].
  unfold has_id at 1. rewrite set_fields_id. fold (has_id i r).
  now destruct (has_id i r).
Qed.

Lemma lookup_after_delete (i : Z) (rs : list Expense) :
  lookup i (filter (fun r => negb (has_id i r)) rs) = None.
Proof.
  unfold lookup.
  induction rs as [|r rs IH]; simpl; [reflexivity|].
  destruct (has_id i r) eqn:E; simpl; [assumption|]. now rewrite E.
Qed.

Lemma or_empty_some (d : text) : Js.or_empty (Some d) = d.
Proof. now destruct d. Qed.

Lemma or_empty_default (o : option text) :
  Js.or_empty o = match o with Some d => d | None => "" end.
Proof. destruct o; [apply or_empty_some|reflexivity]. Qed.

(* ------------------------------------------------------------------ *)
(** ** Adding and reading back *)

Lemma started_operational : operational started fresh_table.
Proof. repeat split. Qed.

Lemma upgraded_operational :
  fst (initializeDatabase (boot legacy_file [])) = Return tt /\
  exists rs, operational upgraded (mkTable Plain rs).
Proof. split; [reflexivity|]. eexists. repeat split. Qed.

Lemma valid_groceries : valid groceries.
Proof. split; [discriminate|reflexivity]. Qed.

Lemma valid_fuel : valid fuel.
Proof. split; [discriminate|reflexivity]. Qed.

(** C1 (as amended).  On an operational store whose table declares the
    [created_at] default, [addExpense] of a valid input returns an id, and
    [getExpenseById] of that id returns a record with that id, the input's
    title, amount, category and date, the input's description (the empty
    string when the input has none) and the [created_at] the store read
    from its clock. *)
Theorem addExpense_getExpenseById_roundtrip
        (w : World) (t : Table) (x : NewExpense) :
  operational w t -> created_at_column t = DefaultNow ->
  has_room w t -> valid x ->
  exists i w1 r w2,
    addExpense x w = (Return i, w1) /\
    getExpenseById i w1 = (Return (Some r), w2) /\
    id r = i /\
    title r = n_title x /\ amount r = n_amount x /\
    category r = n_category x /\ date r = n_date x /\
    description r = Some (match n_description x with
                          | Some d => d
                          | None => ""
                          end) /\
    created_at r = Some (datetime_now w (ticks w)).
Proof.
  intros Hop Hcol Hroom Hv.
  pose proof (addExpense_operational w t Hop x Hv Hroom) as Hadd.
  remember (added_row w t x) as r eqn:Hr.
  match type of Hadd with _ = (_, ?w') => set (w1 := w') in * end.
  assert (Hop1 : operational w1
                   (mkTable (created_at_column t) (insert_row r (rows t))))
    by (now apply (operational_after_call w t)).
  exists (last_rowid (file w) t + 1)%Z, w1, r, (after_call w1 (file w1)).
  split; [exact Hadd|]. split.
  - rewrite (getExpenseById_operational _ _ Hop1). simpl rows.
    replace (last_rowid (file w) t + 1)%Z with (id r) by now subst r.
    rewrite lookup_insert_row; [reflexivity|].
    apply lookup_above. subst r. unfold added_row, last_rowid.
    cbn [id]. lia.
  - subst r. simpl. rewrite Hcol, or_empty_default. repeat split.
Qed.

Lemma addExpense_getExpenseById_roundtrip_witness :
  operational started fresh_table /\ has_room started fresh_table /\
  valid groceries /\
  exists i w1 r w2,
    addExpense groceries started = (Return i, w1) /\
    getExpenseById i w1 = (Return (Some r), w2) /\
    id r = i /\
    title r = n_title groceries /\ amount r = n_amount groceries /\
    category r = n_category groceries /\ date r = n_date groceries /\
    description r = Some (match n_description groceries with
                          | Some d => d
                          | None => ""
                          end) /\
    created_at r = Some (datetime_now started (ticks started)).
Proof.
  split; [repeat split|]. split; [reflexivity|].
  split; [split; [discriminate|reflexivity]|].
  apply (addExpense_getExpenseById_roundtrip started fresh_table groceries).
  - repeat split.
  - reflexivity.
  - reflexivity.
  - split; [discriminate|reflexivity].
Defined.

(** C1 as stated fails twice.  On a new installation, an input without a
    description comes back with the description [''], which is not the
    input's.  On an installation upgraded in place, where [created_at] was
    added by [ALTER TABLE] and so has no default, a record added afterwards
    comes back with a null [created_at]. *)
Lemma roundtrip_as_stated_counterexample :
  (valid fuel /\ operational started fresh_table /\
   ~ roundtrip_as_stated fuel started)
  /\
  (valid groceries /\
   fst (initializeDatabase (boot legacy_file [])) = Return tt /\
   ~ roundtrip_as_stated groceries upgraded).
Proof.
  split; split; try exact valid_fuel; try exact valid_groceries; split;
    try exact started_operational; try reflexivity.
  - intros (i & w1 & r & w2 & Hadd & Hget & _ & _ & _ & _ & _ & Hdesc & _).
    vm_compute in Hadd. injection Hadd as <- <-.
    vm_compute in Hget. injection Hget as <- _.
    discriminate Hdesc.
  - intros (i & w1 & r & w2 & Hadd & Hget & _ & _ & _ & _ & _ & _ & Hstamp).
    vm_compute in Hadd. injection Hadd as <- <-.
    vm_compute in Hget. injection Hget as <- _.
    now apply Hstamp.
Qed.

(* ------------------------------------------------------------------ *)
(** ** ORDER BY *)

Section OrderByFacts.
Context {A : Type} (before : A -> A -> bool) (R : A -> A -> Prop).
Hypothesis before_sound : forall a b, before a b = true -> R a b.
Hypothesis before_total : forall a b, before a b = false -> R b a.

Lemma place_permutation (x : A) (l : list A) :
  Permutation (place before x l) (x :: l).
Proof.
  induction l as [|y l IH]; simpl; [reflexivity|].
  destruct (before x y); [reflexivity|].
  rewrite IH. apply perm_swap.
Qed.

Lemma order_by_permutation (l : list A) : Permutation (order_by before l) l.
Proof.
  induction l as [|x l IH]; simpl; [reflexivity|].
  rewrite place_permutation. now constructor.
Qed.

Lemma place_head (x y : A) (l : list A) :
  R y x -> HdRel R y l -> HdRel R y (place before x l).
Proof.
  intros Hyx Hhd. destruct l as [|z l]; simpl; [now constructor|].
  destruct (before x z); constructor; [assumption|].
  now inversion Hhd.
Qed.

Lemma place_sorted (x : A) (l : list A) :
  Sorted R l -> Sorted R (place before x l).
Proof.
  induction 1 as [|y l Hs IH Hhd]; simpl; [repeat constructor|].
  destruct (before x y) eqn:E.
  - constructor; [now constructor|]. constructor. now apply before_sound.
  - constructor; [assumption|].
    apply place_head; [now apply before_total|assumption].
Qed.

Lemma order_by_sorted (l : list A) : Sorted R (order_by before l).
Proof.
  induction l as [|x l IH]; simpl; [constructor|]. now apply place_sorted.
Qed.

Lemma order_by_strongly_sorted (l : list A) :
  (forall a b c, R a b -> R b c -> R a c) ->
  StronglySorted R (order_by before l).
Proof.
  intros Htrans. apply Sorted_StronglySorted; [exact Htrans|].
  apply order_by_sorted.
Qed.
End OrderByFacts.

Lemma In_order_by {A} (before : A -> A -> bool) (x : A) (l : list A) :
  In x (order_by before l) <-> In x l.
Proof.
  split; apply Permutation_in;
    [|symmetry]; apply order_by_permutation.
Qed.

(** *** Text in BINARY collation *)

Lemma text_lt_trans (a b c : text) :
  String.ltb a b = true -> String.ltb b c = true -> String.ltb a c = true.
Proof.
  unfold String.ltb.
  destruct (String.compare a b) eqn:Eab; try discriminate.
  destruct (String.compare b c) eqn:Ebc; try discriminate.
  intros _ _.
  apply String_as_OT.cmp_lt in Eab, Ebc.
  pose proof (String_as_OT.lt_trans _ _ _ Eab Ebc) as Hac.
  apply String_as_OT.cmp_lt in Hac. unfold String_as_OT.cmp in Hac.
  now rewrite Hac.
Qed.

Lemma text_le_cases (a b : text) :
  String.leb a b = true <-> String.ltb a b = true \/ a = b.
Proof.
  unfold String.leb, String.ltb.
  destruct (String.compare a b) eqn:E; split; intros H;
    try discriminate; auto.
  - right. now apply String.compare_eq_iff.
  - destruct H as [H|H]; [discriminate|]. subst b.
    assert (Hrefl : String.compare a a = Eq)
      by (apply String_as_OT.cmp_eq; reflexivity).
    congruence.
Qed.

Lemma text_le_trans (a b c : text) :
  String.leb a b = true -> String.leb b c = true -> String.leb a c = true.
Proof.
  rewrite !text_le_cases.
  intros [Hab| ->] [Hbc| <-]; auto.
  left. eapply text_lt_trans; eassumption.
Qed.

Lemma text_lt_flip (a b : text) :
  String.compare a b = Gt -> String.ltb b a = true.
Proof.
  intros H. unfold String.ltb.
  rewrite String.compare_antisym, H. reflexivity.
Qed.

(** *** The two orders of the service *)

Lemma date_desc_id_desc_sound (a b : Expense) :
  date_desc_id_desc a b = true -> newer_first a b.
Proof.
  unfold date_desc_id_desc, newer_first, String.ltb.
  destruct (String.compare (date b) (date a)) eqn:E; try discriminate.
  - intros H. right. apply String.compare_eq_iff in E.
    split; [congruence|]. now apply Z.leb_le.
  - now left.
Qed.

Lemma date_desc_id_desc_total (a b : Expense) :
  date_desc_id_desc a b = false -> newer_first b a.
Proof.
  unfold date_desc_id_desc, newer_first.
  destruct (String.compare (date b) (date a)) eqn:E; try discriminate.
  - intros H. right. apply String.compare_eq_iff in E.
    split; [congruence|]. apply Z.leb_gt in H. lia.
  - intros _. left. now apply text_lt_flip.
Qed.

Lemma newer_first_trans (a b c : Expense) :
  newer_first a b -> newer_first b c -> newer_first a c.
Proof.
  unfold newer_first.
  intros [Hab|[Eab Iab]] [Hbc|[Ebc Ibc]].
  - left. eapply text_lt_trans; eassumption.
  - left. congruence.
  - left. congruence.
  - right. split; [congruence|lia].
Qed.

Lemma date_desc_total (a b : Expense) :
  date_desc a b = false -> later_date_first b a.
Proof.
  unfold date_desc, later_date_first, text_le. intros H.
  destruct (String.leb_total (date b) (date a)); congruence.
Qed.

Lemma later_date_first_trans (a b c : Expense) :
  later_date_first a b -> later_date_first b c -> later_date_first a c.
Proof.
  unfold later_date_first. intros Hab Hbc. eapply text_le_trans; eassumption.
Qed.

(** The scenario of the specification: the three expenses come back in the
    order 2025-08-18, 2025-08-17, 2025-08-16. *)
Example scenario_order :
  exists l w',
    getAllExpenses scenario = (Return l, w') /\
    map title l = ["Grocery Shopping"; "Gas Station"; "Movie Tickets"] /\
    map id l = [3; 2; 1]%Z.
Proof. do 2 eexists. repeat split. Qed.

(* ------------------------------------------------------------------ *)
(** ** Searching *)

Lemma pattern_percent (s : text) : pattern_compare "%" s = true.
Proof.
  induction s as [|c s IH]; [reflexivity|].
  change (pattern_compare "%" (String c s))
    with (pattern_compare "" (String c s) || pattern_compare "%" s)%bool.
  now rewrite IH, orb_true_r.
Qed.

Lemma pattern_prefix (q s : text) :
  wildcard_free q = true ->
  pattern_compare (q ++ "%")%string s = starts_with ascii_lower q s.
Proof.
  revert s. induction q as [|c q IH]; intros s Hq.
  - simpl. rewrite pattern_percent. now destruct s.
  - simpl in Hq. apply andb_true_iff in Hq as [Hc Hq].
    apply andb_true_iff in Hc as [Hpc Hus].
    apply negb_true_iff in Hpc, Hus.
    change (String c q ++ "%")%string with (String c (q ++ "%")%string).
    cbn [pattern_compare]. rewrite Hpc, Hus.
    destruct s as [|d s]; [reflexivity|].
    cbn [starts_with]. unfold like_char. now rewrite IH.
Qed.

Lemma pattern_contains (q s : text) :
  wildcard_free q = true ->
  pattern_compare ("%" ++ q ++ "%")%string s = contains ascii_lower q s.
Proof.
  intros Hq.
  change ("%" ++ q ++ "%")%string with (String "%" (q ++ "%")%string).
  induction s as [|c s IH].
  - cbn. rewrite pattern_prefix by assumption. now rewrite orb_false_r.
  - change (pattern_compare (String "%" (q ++ "%")%string) (String c s))
      with (pattern_compare (q ++ "%")%string (String c s)
            || pattern_compare (String "%" (q ++ "%")%string) s)%bool.
    rewrite IH, pattern_prefix by assumption. reflexivity.
Qed.

(** A text without U+0000 is read whole. *)
Lemma c_string_nul_free (q : text) : nul_free q = true -> c_string q = q.
Proof.
  induction q as [|c q IH]; simpl; [reflexivity|].
  intros H. apply andb_true_iff in H as [Hc Hq].
  apply negb_true_iff in Hc. now rewrite Hc, IH.
Qed.

Lemma nul_free_app (a b : text) :
  nul_free (a ++ b)%string = (nul_free a && nul_free b)%bool.
Proof.
  induction a as [|c a IH]; simpl; [reflexivity|].
  now rewrite IH, andb_assoc.
Qed.

Lemma utf8_length_app (a b : text) :
  utf8_length (a ++ b)%string = (utf8_length a + utf8_length b)%Z.
Proof.
  induction a as [|c a IH]; simpl utf8_length; [reflexivity|].
  change (String c a ++ b)%string with (String c (a ++ b)%string).
  simpl utf8_length. rewrite IH. lia.
Qed.

Lemma like_contains (q s : text) :
  wildcard_free q = true -> nul_free q = true ->
  like ("%" ++ q ++ "%")%string s = contains ascii_lower q (c_string s).
Proof.
  intros Hq Hz. unfold like.
  rewrite c_string_nul_free
    by (rewrite !nul_free_app, Hz; reflexivity).
  now apply pattern_contains.
Qed.

(** The pattern of a query of at most [MAX_QUERY_LENGTH] bytes is
    accepted. *)
Lemma short_query (q : text) :
  (utf8_length q <= MAX_QUERY_LENGTH)%Z ->
  too_complex ("%" ++ q ++ "%")%string = false.
Proof.
  unfold too_complex, MAX_QUERY_LENGTH. intros H.
  rewrite !utf8_length_app. change (utf8_length "%") with 1%Z.
  apply Z.ltb_ge. lia.
Qed.

Lemma long_query (q : text) :
  (MAX_QUERY_LENGTH < utf8_length q)%Z ->
  too_complex ("%" ++ q ++ "%")%string = true.
Proof.
  unfold too_complex, MAX_QUERY_LENGTH. intros H.
  rewrite !utf8_length_app. change (utf8_length "%") with 1%Z.
  apply Z.ltb_lt. lia.
Qed.

Lemma matches_occurs (q : text) (r : Expense) :
  wildcard_free q = true -> nul_free q = true ->
  matches ("%" ++ q ++ "%")%string r = occurs_ascii_nocase q r.
Proof.
  intros Hq Hz. unfold matches, occurs_ascii_nocase, occurs_in, like_null.
  unfold as_read. cbn [title description category option_map].
  destruct (description r); cbn [option_map];
    now rewrite !like_contains by assumption.
Qed.

(** C3 (as amended).  For a query without the LIKE wildcards [%] and [_],
    without U+0000 and of at most 49998 bytes of UTF-8, [searchExpenses]
    on an operational store returns exactly the rows whose title,
    description or category, read up to its first U+0000 if it has one,
    contains the query up to the case of the ASCII letters, each once,
    ordered by date descending. *)
Theorem searchExpenses_plain_query (w : World) (t : Table) (q : text) :
  operational w t ->
  wildcard_free q = true -> nul_free q = true ->
  (utf8_length q <= MAX_QUERY_LENGTH)%Z ->
  exists l w',
    searchExpenses q w = (Return l, w') /\
    Permutation l (filter (occurs_ascii_nocase q) (rows t)) /\
    (forall r, In r l <-> In r (rows t) /\ occurs_ascii_nocase q r = true) /\
    StronglySorted later_date_first l.
Proof.
  intros Hop Hq Hz Hlen. rewrite (searchExpenses_operational w t Hop)
    by (now rewrite short_query).
  do 2 eexists. split; [reflexivity|].
  rewrite (filter_ext _ _ (fun r => matches_occurs q r Hq Hz)).
  split; [apply order_by_permutation|]. split.
  - intros r. rewrite In_order_by. apply filter_In.
  - apply order_by_strongly_sorted.
    + now unfold date_desc, later_date_first, text_le.
    + exact date_desc_total.
    + exact later_date_first_trans.
Qed.

Lemma searchExpenses_plain_query_witness :
  operational scenario (table_of scenario) /\
  wildcard_free "FOOD" = true /\ nul_free "FOOD" = true /\
  (utf8_length "FOOD" <= MAX_QUERY_LENGTH)%Z /\
  exists l w',
    searchExpenses "FOOD" scenario = (Return l, w') /\
    Permutation l (filter (occurs_ascii_nocase "FOOD")
                          (rows (table_of scenario))) /\
    (forall r, In r l <->
               In r (rows (table_of scenario)) /\
               occurs_ascii_nocase "FOOD" r = true) /\
    StronglySorted later_date_first l.
Proof.
  assert (Hop : operational scenario (table_of scenario)) by (repeat split).
  assert (Hlen : (utf8_length "FOOD" <= MAX_QUERY_LENGTH)%Z)
    by (now vm_compute).
  split; [exact Hop|]. split; [reflexivity|]. split; [reflexivity|].
  split; [exact Hlen|].
  exact (searchExpenses_plain_query scenario (table_of scenario) "FOOD"
                                    Hop eq_refl eq_refl Hlen).
Defined.

(** C3 as stated fails on letters outside ASCII: the record titled CAFE
    with a capital E-acute contains the query "cafe" with a small e-acute
    up to letter case, and the search for it returns nothing. *)
Lemma search_as_stated_counterexample :
  operational with_coffee (table_of with_coffee) /\
  map title (rows (table_of with_coffee)) = [CAFE] /\
  forallb (occurs_nocase cafe) (rows (table_of with_coffee)) = true /\
  fst (searchExpenses cafe with_coffee) = Return [] /\
  ~ search_as_stated cafe (table_of with_coffee) with_coffee.
Proof.
  split; [repeat split|]. split; [reflexivity|]. split; [reflexivity|].
  split; [reflexivity|].
  intros (l & w' & Hrun & Hexact & _).
  vm_compute in Hrun. injection Hrun as <- _.
  eapply (proj2 (Hexact _)). split; [left; reflexivity|reflexivity].
Qed.

(** The wildcards of LIKE reach the engine unescaped: the query "%"
    returns the groceries, none of whose fields contains a percent sign. *)
Example search_wildcard_example :
  exists r w',
    searchExpenses "%" stocked = (Return [r], w') /\
    title r = "Grocery Shopping" /\
    occurs_nocase "%" r = false.
Proof. do 2 eexists. repeat split. Qed.

(** A U+0000 ends the pattern: a query that begins with one is the
    pattern [%], which every row matches. *)
Example search_nul_example :
  exists r w',
    searchExpenses (String "000" "zz") stocked = (Return [r], w') /\
    title r = "Grocery Shopping".
Proof. do 2 eexists. split; reflexivity. Qed.

(** A query of 49999 letters makes a pattern of 50001 bytes, which LIKE
    refuses at the first row; on the empty table LIKE is not called and
    the search returns nothing. *)
Example search_long_query_example :
  fst (searchExpenses long_query_text stocked)
    = Throw (EngineError PatternTooComplex) /\
  fst (searchExpenses long_query_text started) = Return [].
Proof. split; vm_compute; reflexivity. Qed.

(* ------------------------------------------------------------------ *)
(** ** Updating *)

(** An update that matches no row leaves the file as it was, whatever the
    replacement values are. *)
Lemma updateExpense_absent (w : World) (t : Table) (i : Z) (x : NewExpense) :
  operational w t -> lookup i (rows t) = None ->
  updateExpense i x w = (Return tt, after_call w (file w)).
Proof.
  intros Hop Hnone. pose proof (quiet w t Hop) as Hq.
  destruct Hop as (Hdb & _ & Ht).
  unfold updateExpense. rewrite guarded_open by assumption.
  apply try_catch_returns, await_returns; [exact Hq|].
  unfold update_by_id. now rewrite Ht, Hnone.
Qed.

(** C5 (as amended).  On an operational store, if [i] is the id of the row
    [old], then [updateExpense i x] with a valid [x] followed by
    [getExpenseById i] returns the title, amount, category and date of [x],
    the description of [x] (the empty string when [x] has none), and the id
    and [created_at] of [old]; if no row has the id [i], the update returns
    normally and leaves the file, the console and the handle as they
    were. *)
Theorem updateExpense_getExpenseById
        (w : World) (t : Table) (i : Z) (x : NewExpense) :
  operational w t ->
  (forall old, lookup i (rows t) = Some old -> valid x ->
     exists w1 r w2,
       updateExpense i x w = (Return tt, w1) /\
       getExpenseById i w1 = (Return (Some r), w2) /\
       title r = n_title x /\ amount r = n_amount x /\
       category r = n_category x /\ date r = n_date x /\
       description r = Some (match n_description x with
                             | Some d => d
                             | None => ""
                             end) /\
       id r = i /\ id r = id old /\ created_at r = created_at old)
  /\
  (lookup i (rows t) = None ->
     exists w1,
       updateExpense i x w = (Return tt, w1) /\
       file w1 = file w /\ console w1 = console w /\ db w1 = db w).
Proof.
  intros Hop. split.
  - intros old Hold Hv.
    rewrite (updateExpense_operational w t Hop i x Hv), Hold.
    match goal with |- context [after_call w ?f] => set (w1 := after_call w f) end.
    assert (Hop1 : operational w1
              (mkTable (created_at_column t)
                 (map (set_fields (n_title x) (n_amount x) (n_category x)
                         (n_date x) (Js.or_empty (n_description x)) i)
                      (rows t))))
      by (now apply (operational_after_call w t)).
    exists w1. rewrite (getExpenseById_operational _ _ Hop1). simpl rows.
    rewrite lookup_set_fields, Hold. simpl option_map.
    do 2 eexists. split; [reflexivity|]. split; [reflexivity|].
    apply lookup_In in Hold as [_ Hid].
    unfold set_fields, has_id. rewrite Hid, Z.eqb_refl. simpl.
    rewrite or_empty_default. repeat split; congruence.
  - intros Hnone. rewrite (updateExpense_absent w t i x Hop Hnone).
    eexists. repeat split.
Qed.

Lemma updateExpense_getExpenseById_witness :
  operational stocked (table_of stocked) /\
  lookup 1 (rows (table_of stocked)) = Some stored_groceries /\
  lookup 7 (rows (table_of stocked)) = None /\
  valid movie /\
  (exists w1 r w2,
     updateExpense 1 movie stocked = (Return tt, w1) /\
     getExpenseById 1 w1 = (Return (Some r), w2) /\
     title r = "Movie Tickets" /\ id r = 1%Z /\
     created_at r = created_at stored_groceries) /\
  (exists w1,
     updateExpense 7 movie stocked = (Return tt, w1) /\
     file w1 = file stocked).
Proof.
  assert (Hop : operational stocked (table_of stocked)) by (repeat split).
  assert (Hv : valid movie) by (split; [discriminate|reflexivity]).
  split; [exact Hop|]. split; [reflexivity|]. split; [reflexivity|].
  split; [exact Hv|].
  split.
  - destruct (proj1 (updateExpense_getExpenseById
                       stocked (table_of stocked) 1 movie Hop)
                    stored_groceries eq_refl Hv)
      as (w1 & r & w2 & Hup & Hget & Ht & _ & _ & _ & _ & Hid & _ & Hstamp).
    exists w1, r, w2. repeat split; assumption.
  - destruct (proj2 (updateExpense_getExpenseById
                       stocked (table_of stocked) 7 movie Hop) eq_refl)
      as (w1 & Hup & Hfile & _).
    exists w1. split; assumption.
Defined.

(** C5 as stated fails: updating the groceries (id 1) with an input that
    has no description yields the description [''], not the absent one of
    the input. *)
Lemma update_as_stated_counterexample :
  operational stocked (table_of stocked) /\
  lookup 1 (rows (table_of stocked)) = Some stored_groceries /\
  valid fuel /\
  ~ update_as_stated 1 fuel stored_groceries stocked.
Proof.
  split; [repeat split|]. split; [reflexivity|].
  split; [exact valid_fuel|].
  intros (w1 & r & w2 & Hup & Hget & _ & _ & _ & _ & Hdesc & _).
  vm_compute in Hup. injection Hup as <-.
  vm_compute in Hget. injection Hget as <- _.
  discriminate Hdesc.
Qed.

(* ------------------------------------------------------------------ *)
(** ** Deleting *)

(** C6.  On an operational store [deleteExpense i] returns normally for
    every [i], whether a row has that id or not, and [getExpenseById i]
    then returns [null], without an exception. *)
Theorem deleteExpense_then_not_found (w : World) (t : Table) (i : Z) :
  operational w t ->
  exists w1 w2,
    deleteExpense i w = (Return tt, w1) /\
    getExpenseById i w1 = (Return None, w2).
Proof.
  intros Hop. rewrite (deleteExpense_operational w t Hop).
  match goal with |- context [after_call w ?f] => set (w1 := after_call w f) end.
  assert (Hop1 : operational w1
            (mkTable (created_at_column t)
                     (filter (fun r => negb (has_id i r)) (rows t))))
    by (now apply (operational_after_call w t)).
  exists w1. rewrite (getExpenseById_operational _ _ Hop1). simpl rows.
  rewrite lookup_after_delete. eexists. split; reflexivity.
Qed.

Lemma deleteExpense_then_not_found_witness :
  operational scenario (table_of scenario) /\
  (lookup 2 (rows (table_of scenario)) <> None /\
   exists w1 w2,
     deleteExpense 2 scenario = (Return tt, w1) /\
     getExpenseById 2 w1 = (Return None, w2)) /\
  (lookup 9 (rows (table_of scenario)) = None /\
   exists w1 w2,
     deleteExpense 9 scenario = (Return tt, w1) /\
     getExpenseById 9 w1 = (Return None, w2)).
Proof.
  assert (Hop : operational scenario (table_of scenario)) by (repeat split).
  split; [exact Hop|]. split; split.
  - discriminate.
  - exact (deleteExpense_then_not_found scenario (table_of scenario) 2 Hop).
  - reflexivity.
  - exact (deleteExpense_then_not_found scenario (table_of scenario) 9 Hop).
Defined.

(* ------------------------------------------------------------------ *)
(** ** The absent description *)

(** C10.  On an operational store, when the input has no description,
    [addExpense] stores the empty string, and so does [updateExpense] on an
    existing row: [getExpenseById] and [getAllExpenses] then return the row
    with [description = ''], never a null one. *)
Theorem absent_description_stored_empty
        (w : World) (t : Table) (x : NewExpense) :
  operational w t -> valid x -> n_description x = None ->
  (has_room w t ->
   exists i w1,
     addExpense x w = (Return i, w1) /\ shown_with_empty_description i w1)
  /\
  (forall i old, lookup i (rows t) = Some old ->
   exists w1,
     updateExpense i x w = (Return tt, w1) /\
     shown_with_empty_description i w1).
Proof.
  intros Hop Hv Hnone. split.
  - intros Hroom.
    rewrite (addExpense_operational w t Hop x Hv Hroom).
    remember (added_row w t x) as r0 eqn:Hr0.
    assert (Hid0 : id r0 = (last_rowid (file w) t + 1)%Z) by now subst r0.
    assert (Hd0 : description r0 = Some "")
      by (subst r0; simpl; now rewrite Hnone).
    assert (Hfresh : forall r, In r (rows t) -> id r <> id r0).
    { intros r Hin. apply max_rowid_bound in Hin.
      rewrite Hid0. unfold last_rowid. lia. }
    match goal with |- context [after_call w ?f] => set (w1 := after_call w f) end.
    assert (Hop1 : operational w1
              (mkTable (created_at_column t) (insert_row r0 (rows t))))
      by (now apply (operational_after_call w t)).
    exists (last_rowid (file w) t + 1)%Z, w1. split; [reflexivity|].
    rewrite <- Hid0. split.
    + rewrite (getExpenseById_operational _ _ Hop1). simpl rows.
      rewrite lookup_insert_row.
      * now exists r0, (after_call w1 (file w1)).
      * destruct (lookup (id r0) (rows t)) as [r|] eqn:E; [|reflexivity].
        apply lookup_In in E as [Hin Hid]. now apply Hfresh in Hin.
    + rewrite (getAllExpenses_operational _ _ Hop1). simpl rows.
      do 2 eexists. split; [reflexivity|]. split.
      * exists r0. split; [|reflexivity].
        apply In_order_by, In_insert_row. now left.
      * intros r Hin Hid. apply In_order_by, In_insert_row in Hin.
        destruct Hin as [->|Hin]; [assumption|].
        now apply Hfresh in Hin.
  - intros i old Hold.
    rewrite (updateExpense_operational w t Hop i x Hv), Hold.
    match goal with |- context [after_call w ?f] => set (w1 := after_call w f) end.
    set (f := set_fields (n_title x) (n_amount x) (n_category x) (n_date x)
                         (Js.or_empty (n_description x)) i) in *.
    assert (Hop1 : operational w1
              (mkTable (created_at_column t) (map f (rows t))))
      by (now apply (operational_after_call w t)).
    assert (Hf : forall r, id r = i -> description (f r) = Some "").
    { intros r Hid. unfold f, set_fields, has_id.
      rewrite Hid, Z.eqb_refl. simpl. now rewrite Hnone. }
    pose proof (lookup_In _ _ _ Hold) as [Hin_old Hid_old].
    exists w1. split; [reflexivity|]. split.
    + rewrite (getExpenseById_operational _ _ Hop1). simpl rows.
      unfold f. rewrite lookup_set_fields, Hold. simpl option_map.
      do 2 eexists. split; [reflexivity|]. now apply Hf.
    + rewrite (getAllExpenses_operational _ _ Hop1). simpl rows.
      do 2 eexists. split; [reflexivity|]. split.
      * exists (f old). split.
        -- apply In_order_by, in_map, Hin_old.
        -- unfold f. now rewrite set_fields_id.
      * intros r Hin Hid. apply In_order_by, in_map_iff in Hin.
        destruct Hin as (r' & <- & _). apply Hf.
        unfold f in Hid. now rewrite set_fields_id in Hid.
Qed.

Lemma absent_description_stored_empty_witness :
  operational stocked (table_of stocked) /\ valid fuel /\
  n_description fuel = None /\ has_room stocked (table_of stocked) /\
  lookup 1 (rows (table_of stocked)) = Some stored_groceries /\
  (exists i w1,
     addExpense fuel stocked = (Return i, w1) /\
     shown_with_empty_description i w1) /\
  (exists w1,
     updateExpense 1 fuel stocked = (Return tt, w1) /\
     shown_with_empty_description 1 w1).
Proof.
  assert (Hop : operational stocked (table_of stocked)) by (repeat split).
  assert (Hv : valid fuel) by (split; [discriminate|reflexivity]).
  split; [exact Hop|]. split; [exact Hv|]. split; [reflexivity|].
  split; [reflexivity|]. split; [reflexivity|].
  pose proof (absent_description_stored_empty
                stocked (table_of stocked) fuel Hop Hv eq_refl) as [Hadd Hupd].
  split.
  - apply Hadd. reflexivity.
  - exact (Hupd 1%Z stored_groceries eq_refl).
Defined.

(* ------------------------------------------------------------------ *)
(** ** Before the database is opened *)

(** C7 (as amended).  While [this.db] is not set, that is until
    [initializeDatabase] has opened the database, each of the ten
    operations of the store fails with the uninitialized-store error and
    leaves the file, the console and the rest of the state untouched. *)
Theorem closed_store_rejects (w : World) :
  db w = false ->
  (forall x, rejected (addExpense x) w) /\
  rejected getAllExpenses w /\
  (forall i, rejected (getExpenseById i) w) /\
  (forall i x, rejected (updateExpense i x) w) /\
  (forall i, rejected (deleteExpense i) w) /\
  (forall q, rejected (searchExpenses q) w) /\
  rejected getExpenseStats w /\
  (forall lo hi, rejected (getExpensesByDateRange lo hi) w) /\
  rejected clearAllData w /\
  rejected resetDatabase w.
Proof.
  intros Hdb. unfold rejected. repeat split; intros; now apply guarded_closed.
Qed.

Lemma closed_store_rejects_witness :
  db (boot legacy_file []) = false /\
  rejected (addExpense groceries) (boot legacy_file []) /\
  rejected resetDatabase (boot legacy_file []).
Proof.
  split; [reflexivity|].
  pose proof (closed_store_rejects (boot legacy_file []) eq_refl) as H.
  split; [apply H|apply H].
Defined.

(** C7 as stated fails.  A start that fails after the database was opened
    never completes the schema initialization, and yet the operations that
    follow are not rejected as uninitialized: [getAllExpenses] returns the
    rows, and [addExpense] returns an id and writes to the file. *)
Lemma unfinished_initialization_counterexample :
  fst (initializeDatabase (boot legacy_file [false; true]))
    = Throw (EngineError SQLITE_IOERR) /\
  ~ rejected getAllExpenses failed_start /\
  ~ rejected (addExpense groceries) failed_start /\
  fst (addExpense groceries failed_start) = Return 3%Z /\
  length (rows (table_of (world_after (addExpense groceries) failed_start)))
    <> length (rows (table_of failed_start)).
Proof.
  split; [reflexivity|]. unfold rejected.
  split; [|split; [|split]].
  - intros H. apply (f_equal fst) in H. vm_compute in H. discriminate.
  - intros H. apply (f_equal fst) in H. vm_compute in H. discriminate.
  - reflexivity.
  - vm_compute. discriminate.
Qed.

(* ------------------------------------------------------------------ *)
(** ** What a computation may do to the file *)

Section Keeps.
Variable P : Database -> Database -> Prop.
Hypothesis P_refl : forall d, P d d.
Hypothesis P_trans : forall a b c, P a b -> P b c -> P a c.

Lemma keeps_ret {A} (a : A) : keeps P (ret a).
Proof. intros w. apply P_refl. Qed.

Lemma keeps_throw {A} (e : Exception) : keeps P (@throw A e).
Proof. intros w. apply P_refl. Qed.

Lemma keeps_console_log (msg : string) : keeps P (console_log msg).
Proof. intros w. apply P_refl. Qed.

Lemma keeps_console_error (msg : string) e : keeps P (console_error msg e).
Proof. intros w. apply P_refl. Qed.

Lemma keeps_bind {A B} (m : M A) (k : A -> M B) :
  keeps P m -> (forall a, keeps P (k a)) -> keeps P (bind m k).
Proof.
  intros Hm Hk w. unfold bind. specialize (Hm w).
  destruct (m w) as [[a|e] w1]; simpl in *; [|assumption].
  eapply P_trans; [exact Hm|]. apply Hk.
Qed.

Lemma keeps_try_catch {A} (m : M A) (h : Exception -> M A) :
  keeps P m -> (forall e, keeps P (h e)) -> keeps P (try_catch m h).
Proof.
  intros Hm Hh w. unfold try_catch. specialize (Hm w).
  destruct (m w) as [[a|e] w1]; simpl in *; [assumption|].
  eapply P_trans; [exact Hm|]. apply Hh.
Qed.

Lemma keeps_guarded {A} (m : M A) : keeps P m -> keeps P (guarded m).
Proof.
  intros Hm w. unfold guarded, bind, this_db.
  destruct (db w); simpl; [apply Hm|apply P_refl].
Qed.

Lemma keeps_await {A} (stmt : Database -> Result A) :
  (forall d a d', stmt d = inr (a, d') -> P d d') -> keeps P (await stmt).
Proof.
  intros Hs w. unfold await.
  destruct (fails_now w); simpl; [apply P_refl|].
  destruct (stmt (file w)) as [e|[a d']] eqn:E; simpl; [apply P_refl|].
  now apply Hs in E.
Qed.

(** The shape shared by the public methods: guard, one statement, and a
    handler that logs and rethrows. *)
Lemma keeps_method {A} (stmt : Database -> Result A) (msg : string) :
  (forall d a d', stmt d = inr (a, d') -> P d d') ->
  keeps P (guarded (try_catch (await stmt)
                      (fun e => console_error msg e ;; throw e))).
Proof.
  intros Hs. apply keeps_guarded, keeps_try_catch.
  - now apply keeps_await.
  - intros e. apply keeps_bind; [apply keeps_console_error|].
    intros _. apply keeps_throw.
Qed.
End Keeps.

(** Case analysis of a successful statement other than an insertion: a
    query leaves the file alone, an update or a deletion leaves
    [sqlite_sequence] alone. *)
Ltac reads :=
  let d := fresh "d" in let H := fresh "H" in
  intros d ? ? H;
  cbv beta delta [select_all_ordered select_by_id select_like select_total
                  select_category_totals select_monthly_totals
                  select_date_range update_by_id delete_by_id delete_all
                  with_rows with_table] in H;
  repeat match type of H with
         | context [match ?x with _ => _ end] => destruct x
         end;
  inversion H; subst; try reflexivity.

Lemma seq_grows_refl (d : Database) : seq_grows d d.
Proof. unfold seq_grows. lia. Qed.

Lemma seq_grows_trans (a b c : Database) :
  seq_grows a b -> seq_grows b c -> seq_grows a c.
Proof. unfold seq_grows. lia. Qed.

Lemma insert_seq now ttl amt cat dt ds (d d' : Database) (i : Z) :
  insert now ttl amt cat dt ds d = inr (i, d') ->
  (seq_value d < i)%Z /\ seq_value d' = i.
Proof.
  unfold insert. destruct (expenses d) as [t|]; [|discriminate].
  destruct (real_value amt); [|discriminate].
  destruct (MAX_ROWID <=? last_rowid d t)%Z; [discriminate|].
  intros H. inversion H; subst.
  split; [unfold last_rowid; lia|reflexivity].
Qed.

Lemma addExpense_seq (x : NewExpense) (w w' : World) (i : Z) :
  addExpense x w = (Return i, w') ->
  (seq_value (file w) < i)%Z /\ seq_value (file w') = i.
Proof.
  unfold addExpense, guarded, bind, this_db.
  destruct (db w); simpl; [|discriminate].
  unfold try_catch, await_at, await, console_error, throw.
  destruct (fails_now w); simpl; [discriminate|].
  destruct (insert _ _ _ _ _ _ (file w)) as [e|[a d']] eqn:E; simpl;
    [discriminate|].
  intros H. inversion H; subst. simpl. eapply insert_seq, E.
Qed.

Lemma addExpense_keeps_seq (x : NewExpense) : keeps seq_grows (addExpense x).
Proof.
  intros w. unfold addExpense, guarded, bind, this_db.
  destruct (db w); simpl; [|apply seq_grows_refl].
  unfold try_catch, await_at, await, console_error, throw.
  destruct (fails_now w); simpl; [apply seq_grows_refl|].
  destruct (insert _ _ _ _ _ _ (file w)) as [e|[a d']] eqn:E; simpl;
    [apply seq_grows_refl|].
  apply insert_seq in E. unfold seq_grows. lia.
Qed.

Lemma getExpenseStats_keeps P :
  (forall d, P d d) -> (forall a b c, P a b -> P b c -> P a c) ->
  keeps P getExpenseStats.
Proof.
  intros Hr Ht. unfold getExpenseStats.
  apply keeps_guarded, keeps_try_catch; auto.
  - apply keeps_bind; auto; [apply keeps_await; auto; reads; apply Hr|].
    intros totalResult.
    apply keeps_bind; auto; [apply keeps_await; auto; reads; apply Hr|].
    intros categoryResult.
    apply keeps_bind; auto; [apply keeps_await; auto; reads; apply Hr|].
    intros _. now apply keeps_ret.
  - intros e. apply keeps_bind; auto; [now apply keeps_console_error|].
    intros _. now apply keeps_throw.
Qed.

(** Every call but [resetDatabase] keeps the counter. *)
Lemma perform_keeps_seq (c : Call) (w : World) :
  is_reset c = false -> seq_grows (file w) (file (snd (perform c w))).
Proof.
  pose proof seq_grows_refl as Hr. pose proof seq_grows_trans as Ht.
  destruct c; simpl; intros Hc; try discriminate; unfold world_after;
    try (refine (keeps_method seq_grows Hr Ht _ _ _ w); reads;
         solve [apply Hr | unfold seq_grows, seq_value; simpl; lia]).
  - pose proof (addExpense_keeps_seq x w) as H.
    now destruct (addExpense x w) as [[i|e] w'].
  - now apply (getExpenseStats_keeps seq_grows Hr Ht w).
Qed.

(* ------------------------------------------------------------------ *)
(** ** Ids along a history *)

Lemma perform_assigns (c : Call) (w w' : World) (i : Z) :
  perform c w = (Some i, w') ->
  exists x, c = Add x /\ addExpense x w = (Return i, w').
Proof.
  destruct c; simpl; try discriminate.
  destruct (addExpense x w) as [[j|e] w1] eqn:E; [|discriminate].
  intros H. inversion H; subst. now exists x.
Qed.

Lemma increasing_NoDup (l : list Z) : StronglySorted Z.lt l -> NoDup l.
Proof.
  induction 1 as [|i l Hs IH Hall]; constructor; [|assumption].
  intros Hin. rewrite Forall_forall in Hall. apply Hall in Hin. lia.
Qed.

(* ------------------------------------------------------------------ *)
(** ** Schema repair *)

Lemma recreateFallback_returns (e : Exception) (w : World) :
  recreateFallback e w = (Return tt, fallback_left (fallback_entered e w)).
Proof.
  unfold recreateFallback, fallback_left, fallback_entered, world_after.
  unfold bind, try_catch, console_error, console_log. simpl.
  now destruct (recreateTableWithCreatedAt _) as [[[]|e'] w'].
Qed.

Lemma ensureCreatedAtColumn_returns (w : World) :
  exists w', ensureCreatedAtColumn w = (Return tt, w').
Proof.
  unfold ensureCreatedAtColumn, bind, this_db, ret.
  destruct (db w); simpl; [|now eexists].
  unfold try_catch.
  destruct (addColumnInPlace w) as [[[]|e] w1]; [now eexists|].
  rewrite recreateFallback_returns. now eexists.
Qed.

(** C9.  [ensureCreatedAtColumn] returns normally from every state of the
    process, the file and the storage layer.  Whenever the in-place
    addition throws, the reconstruction is run, from the world the failure
    left and after the two console lines announcing it; and when the
    reconstruction throws as well, that is logged and the step still
    returns.  So a start that got past opening the database and ensuring
    the table returns normally: the repair never makes
    [initializeDatabase] throw. *)
Theorem ensureCreatedAtColumn_never_throws (w : World) :
  (exists w', ensureCreatedAtColumn w = (Return tt, w'))
  /\
  (forall e w1,
     db w = true -> addColumnInPlace w = (Throw e, w1) ->
     In (log "Attempting table recreation...")
        (console (fallback_entered e w1)) /\
     ensureCreatedAtColumn w =
       (Return tt, fallback_left (fallback_entered e w1)))
  /\
  (forall w1,
     (open_database ;; await create_table_if_not_exists) w = (Return tt, w1) ->
     exists w2, initializeDatabase w = (Return tt, w2)).
Proof.
  split; [apply ensureCreatedAtColumn_returns|]. split.
  - intros e w1 Hdb Hthrow. split.
    + unfold fallback_entered, world_after, bind, console_error, console_log.
      simpl. apply in_or_app. right. now left.
    + unfold ensureCreatedAtColumn, bind, this_db. rewrite Hdb. simpl.
      unfold try_catch. rewrite Hthrow. apply recreateFallback_returns.
  - intros w1. unfold initializeDatabase, try_catch, bind.
    destruct (open_database w) as [[[]|e] wa]; [|discriminate].
    destruct (await create_table_if_not_exists wa) as [[[]|e] wb];
      [|discriminate].
    intros _. destruct (ensureCreatedAtColumn_returns wb) as [wc ->].
    unfold console_log. now eexists.
Qed.

Lemma ensureCreatedAtColumn_never_throws_witness :
  db repair_fails = true /\
  addColumnInPlace repair_fails
    = (Throw (EngineError SQLITE_IOERR),
       world_after addColumnInPlace repair_fails) /\
  fst (recreateTableWithCreatedAt
         (fallback_entered (EngineError SQLITE_IOERR)
                           (world_after addColumnInPlace repair_fails)))
    = Throw (EngineError SQLITE_IOERR) /\
  fst (ensureCreatedAtColumn repair_fails) = Return tt /\
  (exists w2,
     initializeDatabase
       (boot legacy_file [false; false; false; true; false; false; false; true])
     = (Return tt, w2)).
Proof.
  split; [reflexivity|]. split; [reflexivity|]. split; [reflexivity|].
  pose proof (ensureCreatedAtColumn_never_throws repair_fails)
    as (_ & Hfallback & _).
  pose proof (ensureCreatedAtColumn_never_throws
                (boot legacy_file
                      [false; false; false; true; false; false; false; true]))
    as (_ & _ & Hstart).
  split.
  - destruct (Hfallback (EngineError SQLITE_IOERR)
                        (world_after addColumnInPlace repair_fails)
                        eq_refl eq_refl) as [_ ->].
    reflexivity.
  - exact (Hstart repair_fails eq_refl).
Defined.

(* ------------------------------------------------------------------ *)
(** ** Statistics *)

Lemma getExpenseStats_operational (w : World) (t : Table) :
  operational w t ->
  exists w',
    getExpenseStats w =
      (Return
         (mkStats
            (Js.or_zero (sum (map amount (rows t))))
            (fold_left (fun acc item => Js.assign acc (fst item) (snd item))
               (order_by total_desc
                  (map (group_total (rows t))
                       (order_by text_le (distinct (map category (rows t))))))
               [])),
       w') /\
    operational w' t.
Proof.
  intros Hop. pose proof (quiet w t Hop) as Hq.
  pose proof Hop as (Hdb & Hfl & Ht).
  unfold getExpenseStats. rewrite guarded_open by assumption.
  unfold try_catch, bind.
  rewrite (await_returns select_total w _ (file w) Hq)
    by (unfold select_total; now rewrite Ht).
  set (w1 := after_call w (file w)).
  assert (Hop1 : operational w1 t)
    by (now apply (operational_after_call w t)).
  rewrite (await_returns select_category_totals w1 _ (file w1)
             (quiet w1 t Hop1))
    by (unfold select_category_totals; simpl; now rewrite Ht).
  set (w2 := after_call w1 (file w1)).
  assert (Hop2 : operational w2 t)
    by (now apply (operational_after_call w1 t)).
  rewrite (await_returns select_monthly_totals w2 tt (file w2)
             (quiet w2 t Hop2))
    by (unfold select_monthly_totals; simpl; now rewrite Ht).
  eexists. split; [reflexivity|].
  now apply (operational_after_call w2 t).
Qed.

(** With no expense recorded the total is 0 and there is no category. *)
Lemma getExpenseStats_no_rows (w : World) (t : Table) :
  operational w t -> rows t = [] ->
  exists s w',
    getExpenseStats w = (Return s, w') /\
    totalExpenses s = 0%float /\ categorySums s = [].
Proof.
  intros Hop Hrows.
  destruct (getExpenseStats_operational w t Hop) as (w' & -> & _).
  rewrite Hrows. do 2 eexists. repeat split.
Qed.

(** The scenario of the specification: 158.50 in total, and 85.50, 45.00
    and 28.00 by category. *)
Example scenario_stats :
  exists s w',
    getExpenseStats scenario = (Return s, w') /\
    totalExpenses s = 158.5%float /\
    categorySums s = [("Food", Some 85.5%float);
                      ("Transportation", Some 45%float);
                      ("Entertainment", Some 28%float)] /\
    Js.sum_values (Js.values (categorySums s)) = totalExpenses s.
Proof. do 2 eexists. repeat split. Qed.

(** *** GROUP BY *)

Lemma In_distinct (x : text) (l : list text) : In x (distinct l) <-> In x l.
Proof.
  induction l as [|y l IH]; simpl; [reflexivity|].
  rewrite filter_In, IH, negb_true_iff, String.eqb_neq.
  destruct (string_dec y x) as [->|Hne]; intuition congruence.
Qed.

Lemma NoDup_distinct (l : list text) : NoDup (distinct l).
Proof.
  induction l as [|y l IH]; simpl; constructor.
  - rewrite filter_In, negb_true_iff, String.eqb_neq. intuition congruence.
  - now apply NoDup_filter.
Qed.

Lemma category_totals_keys (rs : list Expense) :
  Permutation (map fst (category_totals rs)) (distinct (map category rs)).
Proof.
  unfold category_totals.
  rewrite (order_by_permutation total_desc), map_map. simpl.
  rewrite map_id. apply order_by_permutation.
Qed.

Lemma In_category_totals (rs : list Expense) (c : text) (v : option float) :
  In (c, v) (category_totals rs) <->
  In c (map category rs) /\
  v = sum (map amount (filter (in_category c) rs)).
Proof.
  unfold category_totals. rewrite In_order_by, in_map_iff. split.
  - intros (c' & Heq & Hin). unfold group_total in Heq.
    inversion Heq; subst. split; [|reflexivity].
    now rewrite In_order_by, In_distinct in Hin.
  - intros [Hin ->]. exists c. split; [reflexivity|].
    now rewrite In_order_by, In_distinct.
Qed.

(** *** The dictionary *)

Lemma dict_put_new (k : text) (v : option float) (d : Js.Dict) :
  ~ In k (map fst d) -> Js.dict_put k v d = d ++ [(k, v)].
Proof.
  induction d as [|[k' v'] d IH]; simpl; [reflexivity|].
  intros Hnin. destruct (String.eqb_spec k k') as [->|_].
  - exfalso. apply Hnin. now left.
  - rewrite IH; [reflexivity|]. intros Hin. apply Hnin. now right.
Qed.

Lemma assign_all (l : list (text * option float)) (acc : Js.Dict) :
  NoDup (map fst acc ++ map fst l) ->
  fold_left (fun d item => Js.assign d (fst item) (snd item)) l acc
  = acc ++ filter own_key l.
Proof.
  revert acc. induction l as [|[k v] l IH]; intros acc Hnd; simpl.
  - now rewrite app_nil_r.
  - unfold Js.assign at 2, own_key at 1. simpl.
    destruct (String.eqb k "__proto__"); simpl.
    + apply IH. simpl in Hnd. now apply NoDup_remove_1 in Hnd.
    + simpl in Hnd. pose proof (NoDup_remove_2 _ _ _ Hnd) as Hnin.
      rewrite dict_put_new by (intros Hin; apply Hnin, in_or_app; now left).
      rewrite IH.
      * now rewrite <- app_assoc.
      * rewrite map_app, <- app_assoc. exact Hnd.
Qed.

Lemma own_keys (l : list (text * option float)) :
  map fst (filter own_key l)
  = filter (fun k => negb (String.eqb k "__proto__")) (map fst l).
Proof.
  induction l as [|[k v] l IH]; simpl; [reflexivity|].
  unfold own_key at 1. simpl.
  destruct (String.eqb k "__proto__"); simpl; now rewrite IH.
Qed.

(* ------------------------------------------------------------------ *)
(** ** Additions that do not round *)

Import Exact.

Section ExactSums.
Local Open Scope Z_scope.

Lemma digits_bounds (p : positive) :
  2 ^ (digits p - 1) <= Zpos p < 2 ^ digits p.
Proof.
  unfold digits. induction p as [p IH|p IH|]; cbn [digits2_pos].
  - rewrite Pos2Z.inj_succ.
    replace (Z.succ (Z.pos (digits2_pos p)) - 1) with (Z.succ (Z.pos (digits2_pos p) - 1)) by lia.
    rewrite !Z.pow_succ_r by lia. lia.
  - rewrite Pos2Z.inj_succ.
    replace (Z.succ (Z.pos (digits2_pos p)) - 1) with (Z.succ (Z.pos (digits2_pos p) - 1)) by lia.
    rewrite !Z.pow_succ_r by lia. lia.
  - simpl. lia.
Qed.

Lemma digits_unique (p : positive) (a : Z) :
  2 ^ (a - 1) <= Zpos p < 2 ^ a -> digits p = a.
Proof.
  intros [Hlo Hhi]. pose proof (digits_bounds p) as [Dlo Dhi].
  assert (Hd : 0 < digits p) by (unfold digits; lia).
  assert (Ha : 0 < a).
  { destruct (Z.lt_ge_cases 0 a) as [H|H]; [exact H|].
    exfalso. destruct (Z.eq_dec a 0) as [->|Hne]; [simpl in Hhi; lia|].
    rewrite Z.pow_neg_r in Hhi by lia. lia. }
  destruct (Z.lt_trichotomy (digits p) a) as [H|[H|H]]; [|exact H|].
  - assert (2 ^ digits p <= 2 ^ (a - 1)) by (apply Z.pow_le_mono_r; lia). lia.
  - assert (2 ^ a <= 2 ^ (digits p - 1)) by (apply Z.pow_le_mono_r; lia). lia.
Qed.

Lemma digits_scaled (m p : positive) (K : Z) :
  0 <= K -> Zpos m = Zpos p * 2 ^ K -> digits m = digits p + K.
Proof.
  intros HK Hm. apply digits_unique. rewrite Hm.
  pose proof (digits_bounds p) as [Dlo Dhi].
  assert (Hd : 0 < digits p) by (unfold digits; lia).
  replace (digits p + K - 1) with ((digits p - 1) + K) by lia.
  rewrite !Z.pow_add_r by lia.
  assert (0 < 2 ^ K) by (apply Z.pow_pos_nonneg; lia).
  split; nia.
Qed.

Lemma iter_xO_value (m j : positive) :
  Zpos (Pos.iter xO m j) = Zpos m * 2 ^ Zpos j.
Proof.
  induction j as [|j IH] using Pos.peano_ind.
  - simpl. lia.
  - rewrite Pos.iter_succ, Pos2Z.inj_succ, Z.pow_succ_r by lia.
    rewrite Pos2Z.inj_xO, IH. lia.
Qed.

Lemma iter_pos_iter {A} (f : A -> A) (n : positive) (x : A) :
  iter_pos f n x = Pos.iter f x n.
Proof.
  revert x. induction n as [n IH|n IH|]; intros x; simpl.
  - rewrite !IH. now rewrite !Pos.iter_swap.
  - now rewrite !IH.
  - reflexivity.
Qed.

Lemma shr_exact (j : positive) : forall (m M : positive),
  Zpos m = Zpos M * 2 ^ Zpos j ->
  iter_pos shr_1 j (Build_shr_record (Zpos m) false false)
  = Build_shr_record (Zpos M) false false.
Proof.
  intros m M. rewrite iter_pos_iter. revert m M.
  induction j as [|j IH] using Pos.peano_ind; intros m M Hm.
  - simpl in *. destruct m as [m|m|]; try lia.
    assert (m = M) by lia. now subst.
  - rewrite Pos.iter_succ.
    rewrite Pos2Z.inj_succ, Z.pow_succ_r in Hm by lia.
    rewrite (IH m (xO M)) by (rewrite Pos2Z.inj_xO; lia).
    reflexivity.
Qed.

Lemma fexp_normal (x : Z) : emin <= x - prec -> fexp prec emax x = x - prec.
Proof. unfold fexp. intros H. apply Z.max_l. exact H. Qed.

(** Rounding a mantissa that is a 53-bit number followed by [J] zero
    bits leaves the number. *)
Lemma binary_round_aux_exact (s : bool) (mz M : positive) (ez J : Z) :
  0 <= J -> Zpos mz = Zpos M * 2 ^ J -> digits M = prec ->
  emin <= ez + J <= emax - prec ->
  binary_round_aux prec emax s (Zpos mz) ez loc_Exact
  = S754_finite s M (ez + J).
Proof.
  intros HJ Hmz HM HE.
  assert (Hdz : digits mz = prec + J) by (rewrite <- HM; now apply digits_scaled).
  unfold binary_round_aux, shr_fexp. cbn [Zdigits2 shr_record_of_loc].
  fold (digits mz). rewrite Hdz.
  rewrite fexp_normal by lia.
  replace (prec + J + ez - prec - ez) with J by lia.
  assert (Hshr : shr (Build_shr_record (Zpos mz) false false) ez J
                 = (Build_shr_record (Zpos M) false false, ez + J)).
  { destruct J as [|j|j]; [| |lia].
    - simpl. rewrite Z.add_0_r. rewrite Z.pow_0_r, Z.mul_1_r in Hmz.
      now inversion Hmz.
    - unfold shr. now rewrite (shr_exact j mz M Hmz). }
  rewrite Hshr. cbn [shr_m loc_of_shr_record round_nearest_even Zdigits2].
  fold (digits M). rewrite HM.
  rewrite fexp_normal by lia.
  replace (prec + (ez + J) - prec - (ez + J)) with 0 by lia.
  cbn [shr shr_m].
  destruct (Z.leb_spec (ez + J) (emax - prec)); [reflexivity|lia].
Qed.

Lemma mantissa_value (p : positive) :
  digits p <= prec -> Zpos (mantissa p) = Zpos p * 2 ^ (prec - digits p).
Proof.
  intros H. unfold mantissa. rewrite Z2Pos.id; [reflexivity|].
  assert (0 < 2 ^ (prec - digits p)) by (apply Z.pow_pos_nonneg; lia). lia.
Qed.

Lemma mantissa_digits (p : positive) :
  digits p <= prec -> digits (mantissa p) = prec.
Proof.
  intros H. rewrite (digits_scaled (mantissa p) p (prec - digits p));
    [lia|lia|now apply mantissa_value].
Qed.

Lemma canon_valid (s : bool) (p : positive) (e : Z) :
  digits p <= prec -> emin + prec - 1 <= e <= emax - prec ->
  valid_binary (canon s p e) = true.
Proof.
  intros Hp He. unfold canon, valid_binary, bounded, canonical_mantissa.
  fold (digits (mantissa p)). rewrite mantissa_digits by assumption.
  assert (Hd : 0 < digits p) by (unfold digits; lia).
  rewrite fexp_normal by lia.
  apply andb_true_iff. split; [apply Z.eqb_eq; lia|apply Z.leb_le; lia].
Qed.

(** Rounding [p] followed by [K] zero bits, at an exponent [K] lower,
    gives the double of [p]. *)
Lemma binary_round_exact (s : bool) (m p : positive) (K e : Z) :
  0 <= K -> Zpos m = Zpos p * 2 ^ K ->
  digits p <= prec -> emin + prec - 1 <= e <= emax - prec ->
  binary_round prec emax s m (e - K) = canon s p e.
Proof.
  intros HK Hm Hp He.
  assert (Hd : 0 < digits p) by (unfold digits; lia).
  pose proof (mantissa_value p Hp) as HM.
  pose proof (mantissa_digits p Hp) as HMd.
  unfold binary_round. fold (digits m).
  rewrite (digits_scaled m p K HK Hm).
  rewrite fexp_normal by lia.
  unfold shl_align.
  replace (digits p + K + (e - K) - prec - (e - K)) with (digits p + K - prec) by lia.
  destruct (digits p + K - prec) as [|j|j] eqn:Ej.
  - replace (canon s p e) with (S754_finite s (mantissa p) ((e - K) + 0)).
    + apply binary_round_aux_exact; try lia.
      rewrite Z.pow_0_r, Z.mul_1_r, HM, Hm. f_equal. f_equal. lia.
    + unfold canon. f_equal. lia.
  - replace (canon s p e) with (S754_finite s (mantissa p) ((e - K) + Zpos j)).
    + apply binary_round_aux_exact; try lia.
      rewrite HM, Hm, <- Z.mul_assoc, <- Z.pow_add_r by lia.
      f_equal. f_equal. lia.
    + unfold canon. f_equal. lia.
  - replace (canon s p e)
      with (S754_finite s (mantissa p) ((digits p + K + (e - K) - prec) + 0)).
    + apply binary_round_aux_exact; try lia.
      rewrite Z.pow_0_r, Z.mul_1_r, iter_xO_value, HM, Hm,
        <- Z.mul_assoc, <- Z.pow_add_r by lia.
      f_equal. f_equal. lia.
    + unfold canon. f_equal. lia.
Qed.

Lemma fits_digits (p : positive) : Zpos p < 2 ^ prec -> digits p <= prec.
Proof.
  intros H. pose proof (digits_bounds p) as [Dlo _].
  destruct (Z.le_gt_cases (digits p) prec) as [Hle|Hgt]; [exact Hle|].
  assert (2 ^ prec <= 2 ^ (digits p - 1)) by (apply Z.pow_le_mono_r; lia).
  lia.
Qed.

Lemma normalize_exact (n K e : Z) :
  0 <= K -> fits n -> exponent_ok e ->
  binary_normalize prec emax (n * 2 ^ K) (e - K) false = scaled e n.
Proof.
  intros HK Hn He. unfold fits in Hn.
  assert (H2 : 0 < 2 ^ K) by (apply Z.pow_pos_nonneg; lia).
  destruct n as [|p|p].
  - reflexivity.
  - destruct (Z.pos p * 2 ^ K) as [|m|m] eqn:Em; try lia.
    simpl. apply binary_round_exact;
      [assumption|now rewrite Em|apply fits_digits; exact Hn|exact He].
  - destruct (Z.neg p * 2 ^ K) as [|m|m] eqn:Em; try lia.
    simpl. apply binary_round_exact;
      [assumption|lia|apply fits_digits; exact Hn|exact He].
Qed.

Lemma shl_align_value (m : positive) (e e' : Z) :
  e' <= e -> Zpos (fst (shl_align m e e')) = Zpos m * 2 ^ (e - e').
Proof.
  intros H. unfold shl_align.
  destruct (e' - e) as [|j|j] eqn:Ej; try lia; simpl fst.
  - replace (e - e') with 0 by lia. lia.
  - rewrite iter_xO_value. f_equal. f_equal. lia.
Qed.

(** The integer of a finite canonical double, in units of 2^[ez] for a
    lower exponent [ez]. *)
Lemma canon_aligned (s : bool) (p : positive) (e ez : Z) :
  digits p <= prec -> ez <= digits p - prec + e ->
  cond_Zopp s (Zpos (fst (shl_align (mantissa p) (digits p - prec + e) ez)))
  = cond_Zopp s (Zpos p) * 2 ^ (e - ez).
Proof.
  intros Hp Hez. rewrite shl_align_value by assumption.
  rewrite mantissa_value by assumption.
  rewrite <- Z.mul_assoc, <- Z.pow_add_r by lia.
  replace (prec - digits p + (digits p - prec + e - ez)) with (e - ez) by lia.
  destruct s; unfold cond_Zopp; [symmetry; apply Z.mul_opp_l|reflexivity].
Qed.

Lemma scaled_signed (e : Z) (n : Z) :
  n <> 0 ->
  exists s p, scaled e n = canon s p e /\ n = cond_Zopp s (Zpos p).
Proof.
  destruct n as [|p|p]; [contradiction| |]; intros _.
  - now exists false, p.
  - now exists true, p.
Qed.

Lemma SFadd_exact (e a b : Z) :
  exponent_ok e -> fits a -> fits b -> fits (a + b) ->
  SFadd prec emax (scaled e a) (scaled e b) = scaled e (a + b).
Proof.
  intros He Ha Hb Hab.
  destruct (Z.eq_dec a 0) as [->|Ha0].
  { simpl. destruct b; reflexivity. }
  destruct (Z.eq_dec b 0) as [->|Hb0].
  { rewrite Z.add_0_r. destruct a; reflexivity. }
  destruct (scaled_signed e a Ha0) as (sa & pa & -> & Ea).
  destruct (scaled_signed e b Hb0) as (sb & pb & -> & Eb).
  assert (Hpa : digits pa <= prec)
    by (apply fits_digits; unfold fits in Ha; subst a; destruct sa; exact Ha).
  assert (Hpb : digits pb <= prec)
    by (apply fits_digits; unfold fits in Hb; subst b; destruct sb; exact Hb).
  unfold canon. cbn [SFadd].
  set (ez := Z.min (digits pa - prec + e) (digits pb - prec + e)).
  rewrite (canon_aligned sa pa e ez) by (unfold ez; lia).
  rewrite (canon_aligned sb pb e ez) by (unfold ez; lia).
  rewrite <- Ea, <- Eb, <- Z.mul_add_distr_r.
  replace ez with (e - (e - ez)) at 2 by lia.
  apply normalize_exact; try assumption. unfold ez. lia.
Qed.

Lemma SFsub_exact (e a b : Z) :
  exponent_ok e -> fits a -> fits b -> fits (a - b) ->
  SFsub prec emax (scaled e a) (scaled e b) = scaled e (a - b).
Proof.
  intros He Ha Hb Hab.
  destruct (Z.eq_dec b 0) as [->|Hb0].
  { rewrite Z.sub_0_r. destruct a; reflexivity. }
  destruct (Z.eq_dec a 0) as [->|Ha0].
  { simpl. destruct b; try contradiction; reflexivity. }
  destruct (scaled_signed e a Ha0) as (sa & pa & -> & Ea).
  destruct (scaled_signed e b Hb0) as (sb & pb & -> & Eb).
  assert (Hpa : digits pa <= prec)
    by (apply fits_digits; unfold fits in Ha; subst a; destruct sa; exact Ha).
  assert (Hpb : digits pb <= prec)
    by (apply fits_digits; unfold fits in Hb; subst b; destruct sb; exact Hb).
  unfold canon. cbn [SFsub].
  set (ez := Z.min (digits pa - prec + e) (digits pb - prec + e)).
  rewrite (canon_aligned sa pa e ez) by (unfold ez; lia).
  rewrite (canon_aligned sb pb e ez) by (unfold ez; lia).
  rewrite <- Ea, <- Eb, <- Z.mul_sub_distr_r.
  replace ez with (e - (e - ez)) at 2 by lia.
  apply normalize_exact; try assumption. unfold ez. lia.
Qed.

Lemma scaled_valid (e n : Z) :
  exponent_ok e -> fits n -> valid_binary (scaled e n) = true.
Proof.
  intros He Hn. unfold fits in Hn.
  destruct n as [|p|p]; [reflexivity| |]; cbn [scaled];
    (apply canon_valid; [apply fits_digits; exact Hn|exact He]).
Qed.

Lemma units_spec (e n : Z) :
  exponent_ok e -> fits n -> Prim2SF (units e n) = scaled e n.
Proof.
  intros He Hn. unfold units.
  replace (binary_normalize prec emax n e false) with (scaled e n).
  - apply Prim2SF_SF2Prim. now apply scaled_valid.
  - symmetry. replace n with (n * 2 ^ 0) at 1 by (rewrite Z.pow_0_r; lia).
    replace e with (e - 0) at 1 by lia.
    apply normalize_exact; [lia|assumption|assumption].
Qed.

Lemma units_add (e a b : Z) :
  exponent_ok e -> fits a -> fits b -> fits (a + b) ->
  (units e a + units e b)%float = units e (a + b).
Proof.
  intros He Ha Hb Hab. apply Prim2SF_inj.
  rewrite add_spec, !units_spec by assumption.
  now apply SFadd_exact.
Qed.

Lemma units_sub (e a b : Z) :
  exponent_ok e -> fits a -> fits b -> fits (a - b) ->
  (units e a - units e b)%float = units e (a - b).
Proof.
  intros He Ha Hb Hab. apply Prim2SF_inj.
  rewrite sub_spec, !units_spec by assumption.
  now apply SFsub_exact.
Qed.

Lemma units_zero (e : Z) : units e 0 = 0%float.
Proof. reflexivity. Qed.

Lemma scaled_not_nan (e n : Z) : scaled e n <> S754_nan.
Proof. destruct n; discriminate. Qed.

Lemma units_not_nan (e n : Z) :
  exponent_ok e -> fits n -> PrimFloat.is_nan (units e n) = false.
Proof.
  intros He Hn. unfold PrimFloat.is_nan.
  rewrite FloatAxioms.eqb_spec, units_spec by assumption.
  unfold SFeqb. now rewrite SFcompare_refl by apply scaled_not_nan.
Qed.

Lemma fits_between (n hi : Z) : 0 <= n <= hi -> hi < 2 ^ prec -> fits n.
Proof. unfold fits. lia. Qed.

Lemma fits_opp (n : Z) : fits n -> fits (- n).
Proof. unfold fits. lia. Qed.

(** One step of the compensated sum on whole numbers of units: the sum
    is exact and the compensation stays zero. *)
Lemma sum_step_exact (e S n : Z) :
  exponent_ok e -> 0 <= S -> 0 <= n -> S + n < 2 ^ prec ->
  sum_step (mkSumCtx (units e S) (units e 0)) (units e n)
  = mkSumCtx (units e (S + n)) (units e 0).
Proof.
  intros He HS Hn Hb.
  assert (FS : fits S) by (apply (fits_between S (S + n)); lia).
  assert (Fn : fits n) by (apply (fits_between n (S + n)); lia).
  assert (Ft : fits (S + n)) by (apply (fits_between (S + n) (S + n)); lia).
  assert (F0 : fits 0) by (apply (fits_between 0 (S + n)); lia).
  unfold sum_step. cbn [rSum rErr].
  rewrite (units_add e S n) by assumption.
  assert (E1 : ((units e S - units e (S + n)) + units e n)%float = units e 0).
  { rewrite units_sub; try assumption.
    - replace (S - (S + n)) with (- n) by lia.
      rewrite units_add; try assumption; [f_equal; lia|now apply fits_opp|].
      now replace (- n + n) with 0 by lia.
    - replace (S - (S + n)) with (- n) by lia. now apply fits_opp. }
  assert (E2 : ((units e n - units e (S + n)) + units e S)%float = units e 0).
  { rewrite units_sub; try assumption.
    - replace (n - (S + n)) with (- S) by lia.
      rewrite units_add; try assumption; [f_equal; lia|now apply fits_opp|].
      now replace (- S + S) with 0 by lia.
    - replace (n - (S + n)) with (- S) by lia. now apply fits_opp. }
  rewrite E1, E2.
  destruct (PrimFloat.abs (units e n) <? PrimFloat.abs (units e S))%float;
    now rewrite (units_add e 0 0) by assumption.
Qed.

Lemma zsum_cons (n : Z) (ns : list Z) : zsum (n :: ns) = n + zsum ns.
Proof. reflexivity. Qed.

Lemma zsum_nonneg (l : list Z) : Forall (fun n => 0 <= n) l -> 0 <= zsum l.
Proof. induction 1; rewrite ?zsum_cons; [reflexivity|lia]. Qed.

Lemma sum_steps_exact (e : Z) (ns : list Z) :
  exponent_ok e -> Forall (fun n => 0 <= n) ns ->
  forall S, 0 <= S -> S + zsum ns < 2 ^ prec ->
    fold_left sum_step (map (units e) ns) (mkSumCtx (units e S) (units e 0))
    = mkSumCtx (units e (S + zsum ns)) (units e 0).
Proof.
  intros He Hns. induction Hns as [|n ns Hn Hns IH]; intros S HS Hb;
    cbn [map fold_left].
  - change (zsum []) with 0. now rewrite Z.add_0_r.
  - rewrite zsum_cons in *. pose proof (zsum_nonneg ns Hns) as Hz.
    rewrite sum_step_exact by (try assumption; lia).
    rewrite IH by lia. f_equal. f_equal. lia.
Qed.

(** SUM over whole numbers of units is their exact sum. *)
Lemma sum_exact (e : Z) (ns : list Z) :
  exponent_ok e -> Forall (fun n => 0 <= n) ns -> zsum ns < 2 ^ prec ->
  ns <> [] ->
  sum (map (units e) ns) = Some (units e (zsum ns)).
Proof.
  intros He Hns Hb Hne. pose proof (zsum_nonneg ns Hns) as Hz.
  unfold sum. destruct ns as [|n ns]; [contradiction|].
  cbn [map]. rewrite <- (map_cons (units e) n ns).
  change (mkSumCtx 0 0) with (mkSumCtx (units e 0) (units e 0)).
  rewrite sum_steps_exact by (try assumption; lia).
  cbn [rSum rErr]. rewrite Z.add_0_l.
  change (is_overflow (units e 0)) with false. cbn iota.
  assert (Ft : fits (zsum (n :: ns)))
    by (apply (fits_between _ (zsum (n :: ns))); lia).
  assert (F0 : fits 0) by (apply (fits_between 0 (zsum (n :: ns))); lia).
  rewrite units_add by (try assumption; now rewrite Z.add_0_r).
  rewrite Z.add_0_r. unfold real_value.
  now rewrite units_not_nan.
Qed.

(** [x || 0] leaves such a sum as it is. *)
Lemma or_zero_units (e n : Z) :
  exponent_ok e -> 0 <= n -> fits n ->
  Js.or_zero (Some (units e n)) = units e n.
Proof.
  intros He Hn Fn. destruct n as [|p|p]; [reflexivity| |lia].
  unfold Js.or_zero, Js.truthy.
  rewrite units_not_nan by assumption.
  unfold PrimFloat.is_zero.
  rewrite FloatAxioms.eqb_spec, units_spec by assumption.
  reflexivity.
Qed.

(** The sum of JavaScript over such sums is exact too. *)
Lemma sum_values_exact (e : Z) (ns : list Z) :
  exponent_ok e -> Forall (fun n => 0 <= n) ns ->
  forall A, 0 <= A -> A + zsum ns < 2 ^ prec ->
    fold_left (fun acc v => match v with
                            | Some x => (acc + x)%float
                            | None => (acc + 0)%float
                            end)
              (map (fun n => Some (units e n)) ns) (units e A)
    = units e (A + zsum ns).
Proof.
  intros He Hns. induction Hns as [|n ns Hn Hns IH]; intros A HA Hb;
    cbn [map fold_left].
  - change (zsum []) with 0. now rewrite Z.add_0_r.
  - rewrite zsum_cons in *. pose proof (zsum_nonneg ns Hns) as Hz.
    rewrite units_add; try assumption.
    + rewrite IH by lia. f_equal. lia.
    + apply (fits_between A (A + (n + zsum ns))); lia.
    + apply (fits_between n (A + (n + zsum ns))); lia.
    + apply (fits_between (A + n) (A + (n + zsum ns))); lia.
Qed.

(** *** Every row counts in one category *)

Lemma zsum_permutation (a b : list Z) : Permutation a b -> zsum a = zsum b.
Proof. induction 1; rewrite ?zsum_cons; lia. Qed.

Lemma zsum_never (x : text) (v : Z) (D : list text) :
  ~ In x D -> zsum (map (fun c => if String.eqb x c then v else 0) D) = 0.
Proof.
  induction D as [|d D IH]; intros Hx; cbn [map]; [reflexivity|].
  rewrite zsum_cons. destruct (String.eqb_spec x d) as [->|_].
  - exfalso. apply Hx. now left.
  - rewrite IH; [reflexivity|]. intros H. apply Hx. now right.
Qed.

Lemma zsum_once (x : text) (v : Z) (D : list text) :
  NoDup D -> In x D ->
  zsum (map (fun c => if String.eqb x c then v else 0) D) = v.
Proof.
  induction 1 as [|c D Hc HD IH]; cbn [map]; [easy|].
  rewrite zsum_cons. intros [->|Hin].
  - rewrite String.eqb_refl, zsum_never by assumption. lia.
  - destruct (String.eqb_spec x c) as [->|_]; [contradiction|].
    now rewrite IH.
Qed.

Lemma zsum_by_category (k : Expense -> Z) (D : list text) (rs : list Expense) :
  NoDup D -> (forall r, In r rs -> In (category r) D) ->
  zsum (map (fun c => zsum (map k (filter (in_category c) rs))) D)
  = zsum (map k rs).
Proof.
  intros HD. induction rs as [|r rs IH]; intros Hin.
  - cbn [filter map]. clear. induction D as [|c D IHD]; cbn [map];
      [reflexivity|]. rewrite zsum_cons, IHD. reflexivity.
  - cbn [map]. rewrite zsum_cons.
    rewrite <- (IH (fun r' H => Hin r' (or_intror H))).
    rewrite <- (zsum_once (category r) (k r) D HD (Hin r (or_introl eq_refl)))
      at 1.
    clear. induction D as [|c D IHD]; cbn [map]; [reflexivity|].
    rewrite !zsum_cons, IHD. cbn [filter]. unfold in_category at 1.
    destruct (String.eqb (category r) c); cbn [map]; rewrite ?zsum_cons; lia.
Qed.

(** *** Rows whose amounts are whole numbers of units *)

Lemma zsum_filter (k : Expense -> Z) (p : Expense -> bool)
      (l : list Expense) :
  (forall r, In r l -> 0 <= k r) ->
  0 <= zsum (map k (filter p l)) <= zsum (map k l).
Proof.
  induction l as [|r l IH]; intros Hk; cbn [filter map].
  - change (zsum []) with 0. lia.
  - specialize (IH (fun r' H => Hk r' (or_intror H))).
    pose proof (Hk r (or_introl eq_refl)).
    destruct (p r); cbn [map]; rewrite ?zsum_cons; lia.
Qed.

Lemma sum_amounts_exact (e : Z) (k : Expense -> Z) (l : list Expense) :
  exponent_ok e ->
  (forall r, In r l -> 0 <= k r /\ amount r = units e (k r)) ->
  zsum (map k l) < 2 ^ prec -> l <> [] ->
  sum (map amount l) = Some (units e (zsum (map k l))).
Proof.
  intros He Hk Hb Hne.
  rewrite (map_ext_in amount (fun r => units e (k r)))
    by (intros r Hr; apply Hk, Hr).
  rewrite <- (map_map k (units e)).
  apply sum_exact; try assumption.
  - apply Forall_forall. intros n Hn. apply in_map_iff in Hn as (r & <- & Hr).
    apply Hk, Hr.
  - destruct l; [contradiction|discriminate].
Qed.

Lemma total_exact (e : Z) (k : Expense -> Z) (l : list Expense) :
  exponent_ok e ->
  (forall r, In r l -> 0 <= k r /\ amount r = units e (k r)) ->
  zsum (map k l) < 2 ^ prec ->
  Js.or_zero (sum (map amount l)) = units e (zsum (map k l)).
Proof.
  intros He Hk Hb. destruct l as [|r l]; [reflexivity|].
  rewrite (sum_amounts_exact e k) by (try assumption; discriminate).
  pose proof (zsum_filter k (fun _ => true) (r :: l)
                (fun r' H => proj1 (Hk r' H))) as Hz.
  apply or_zero_units; [assumption|lia|].
  apply (fits_between _ (zsum (map k (r :: l)))); [lia|assumption].
Qed.

Lemma category_total_exact (e : Z) (k : Expense -> Z) (l : list Expense)
      (c : text) :
  exponent_ok e ->
  (forall r, In r l -> 0 <= k r /\ amount r = units e (k r)) ->
  zsum (map k l) < 2 ^ prec -> In c (map category l) ->
  snd (group_total l c)
  = Some (units e (zsum (map k (filter (in_category c) l)))).
Proof.
  intros He Hk Hb Hc. unfold group_total. cbn [snd].
  pose proof (zsum_filter k (in_category c) l (fun r H => proj1 (Hk r H))).
  apply sum_amounts_exact; try assumption; [| lia |].
  - intros r Hr. apply filter_In in Hr as [Hr _]. apply Hk, Hr.
  - apply in_map_iff in Hc as (r & Hcat & Hr).
    assert (Hin : In r (filter (in_category c) l)).
    { apply filter_In. split; [exact Hr|].
      unfold in_category. rewrite Hcat. apply String.eqb_refl. }
    intros Hnil. rewrite Hnil in Hin. contradiction.
Qed.

End ExactSums.

Lemma category_totals_permutation (rs : list Expense) :
  Permutation (category_totals rs)
              (map (group_total rs) (distinct (map category rs))).
Proof.
  unfold category_totals.
  rewrite (order_by_permutation total_desc).
  apply Permutation_map, order_by_permutation.
Qed.

Lemma own_keys_all (rs : list Expense) :
  (forall r, In r rs -> category r <> "__proto__") ->
  filter own_key (category_totals rs) = category_totals rs.
Proof.
  intros Hcat. apply forallb_filter_id, forallb_forall.
  intros [c v] Hin. apply In_category_totals in Hin as [Hc _].
  apply in_map_iff in Hc as (r & <- & Hr).
  unfold own_key. cbn [fst]. apply negb_true_iff, String.eqb_neq.
  now apply Hcat.
Qed.

(** C4 (as amended).  On an operational store whose amounts are whole
    numbers of one unit 2^[e], adding up to less than 2^53 units (so that
    no addition rounds), and none of whose categories is named
    [__proto__]: [categorySums] holds one entry for each category, the
    exact sum of the amounts of its rows, and these sums, added in
    whatever order the values are enumerated, give exactly
    [totalExpenses], the exact sum of all amounts.  With no row at all
    [totalExpenses] is 0. *)
Theorem getExpenseStats_sums (w : World) (t : Table) (e : Z)
        (k : Expense -> Z) :
  operational w t ->
  (forall r, In r (rows t) -> category r <> "__proto__") ->
  exponent_ok e ->
  (forall r, In r (rows t) -> (0 <= k r)%Z /\ amount r = units e (k r)) ->
  (zsum (map k (rows t)) < 2 ^ 53)%Z ->
  exists s w',
    getExpenseStats w = (Return s, w') /\
    totalExpenses s = units e (zsum (map k (rows t))) /\
    (rows t = [] -> totalExpenses s = 0%float) /\
    NoDup (map fst (categorySums s)) /\
    (forall c v,
       In (c, v) (categorySums s) <->
       In c (map category (rows t)) /\
       v = Some (units e (zsum (map k (filter (in_category c) (rows t)))))) /\
    (forall vs, Permutation vs (Js.values (categorySums s)) ->
       Js.sum_values vs = totalExpenses s).
Proof.
  intros Hop Hcat He Hk Hb. change (2 ^ 53)%Z with (2 ^ prec)%Z in Hb.
  destruct (getExpenseStats_operational w t Hop) as (w' & -> & _).
  fold (category_totals (rows t)).
  assert (Hkeys : NoDup (map fst (category_totals (rows t)))).
  { eapply Permutation_NoDup; [symmetry; apply category_totals_keys|].
    apply NoDup_distinct. }
  rewrite (assign_all _ []) by exact Hkeys. cbn [app].
  rewrite (own_keys_all _ Hcat).
  do 2 eexists. split; [reflexivity|]. cbn [totalExpenses categorySums].
  assert (Htotal : Js.or_zero (sum (map amount (rows t)))
                   = units e (zsum (map k (rows t))))
    by (now apply total_exact).
  split; [exact Htotal|]. split; [now intros ->|]. split; [exact Hkeys|].
  split.
  - intros c v. rewrite In_category_totals. split.
    + intros [Hc ->]. split; [exact Hc|].
      now apply (category_total_exact e k (rows t) c).
    + intros [Hc ->]. split; [exact Hc|]. symmetry.
      now apply (category_total_exact e k (rows t) c).
  - intros vs Hvs. rewrite Htotal. unfold Js.values in Hvs.
    rewrite (category_totals_permutation (rows t)), map_map in Hvs.
    rewrite (map_ext_in _
               (fun c => Some (units e (zsum (map k (filter (in_category c)
                                                            (rows t)))))))
      in Hvs
      by (intros c Hc; apply category_total_exact; try assumption;
          now apply In_distinct).
    rewrite <- (map_map
                  (fun c => zsum (map k (filter (in_category c) (rows t))))
                  (fun n => Some (units e n))) in Hvs.
    apply Permutation_map_inv in Hvs as (zs & -> & Hzs).
    assert (Hsum : zsum zs = zsum (map k (rows t))).
    { rewrite <- (zsum_permutation _ _ Hzs).
      apply zsum_by_category; [apply NoDup_distinct|].
      intros r Hr. apply In_distinct. now apply in_map. }
    unfold Js.sum_values. change 0%float with (units e 0).
    rewrite sum_values_exact; try assumption.
    + now rewrite Z.add_0_l, Hsum.
    + apply Forall_forall. intros n Hn.
      apply (Permutation_in _ (Permutation_sym Hzs)) in Hn.
      apply in_map_iff in Hn as (c & <- & _).
      apply (zsum_filter k (in_category c) (rows t)).
      intros r Hr. apply Hk, Hr.
    + reflexivity.
    + now rewrite Z.add_0_l, Hsum.
Qed.

(** The scenario in halves: 56, 90 and 171 halves, 317 in all. *)
Lemma getExpenseStats_sums_witness :
  operational scenario (table_of scenario) /\
  exists s w',
    getExpenseStats scenario = (Return s, w') /\
    totalExpenses s = 158.5%float /\
    (forall vs, Permutation vs (Js.values (categorySums s)) ->
       Js.sum_values vs = totalExpenses s).
Proof.
  assert (Hop : operational scenario (table_of scenario)) by (repeat split).
  split; [exact Hop|].
  destruct (getExpenseStats_sums scenario (table_of scenario) (-1)
                                 scenario_halves Hop)
    as (s & w' & Hrun & Htotal & _ & _ & _ & Hsum).
  - intros r [<-|[<-|[<-|[]]]]; discriminate.
  - split; discriminate.
  - intros r [<-|[<-|[<-|[]]]]; (split; [discriminate|reflexivity]).
  - reflexivity.
  - exists s, w'. split; [exact Hrun|]. split; [|exact Hsum].
    rewrite Htotal. reflexivity.
Defined.

(** C4 as stated fails twice.  With 10.10 and 120.00 in one category and
    20.20 in another, the total is 150.3 and the category sums 130.1 and
    20.2 add up to 150.29999999999998: the same amounts, rounded
    differently.  With a single expense of 5 in the category named
    [__proto__], the total is 5 and [categorySums] is empty, because the
    assignment [categorySums['__proto__'] = 5] creates no property. *)
Lemma stats_as_stated_counterexample :
  (rows (table_of three_amounts) <> [] /\ ~ stats_as_stated three_amounts)
  /\
  (map category (rows (table_of with_gift)) = ["__proto__"] /\
   (exists s w',
      getExpenseStats with_gift = (Return s, w') /\
      totalExpenses s = 5%float /\ categorySums s = []) /\
   ~ stats_as_stated with_gift).
Proof.
  split; split.
  - discriminate.
  - intros (s & w' & Hrun & Hsum).
    vm_compute in Hrun. injection Hrun as <- _.
    vm_compute in Hsum. discriminate Hsum.
  - reflexivity.
  - split; [do 2 eexists; repeat split|].
    intros (s & w' & Hrun & Hsum).
    vm_compute in Hrun. injection Hrun as <- _.
    vm_compute in Hsum. discriminate Hsum.
Qed.

(* ------------------------------------------------------------------ *)
(** ** Stores reached by a history of calls *)

Lemma operational_logged (w : World) (t : Table) (msg : string) e :
  operational w t ->
  operational
    (snd ((console_error msg e ;; @throw unit e) (after_call w (file w)))) t.
Proof. intros (Hdb & Hfl & Ht). repeat split; simpl; auto. now rewrite Hfl. Qed.

Lemma method_operational {A} (stmt : Database -> Result A) (msg : string)
      (w : World) (t : Table) :
  operational w t ->
  (forall a d', stmt (file w) = inr (a, d') -> expenses d' <> None) ->
  exists t',
    operational
      (snd (guarded (try_catch (await stmt)
                       (fun e => console_error msg e ;; throw e)) w)) t'.
Proof.
  intros Hop Hs. pose proof (quiet w t Hop) as Hq.
  pose proof Hop as (Hdb & Hfl & Ht).
  rewrite guarded_open by assumption. unfold try_catch, await. rewrite Hq.
  destruct (stmt (file w)) as [e|[a d']] eqn:E.
  - exists t. repeat split; simpl; auto. now rewrite Hfl.
  - destruct (expenses d') as [t'|] eqn:E'; [|now destruct (Hs a d' eq_refl)].
    exists t'. simpl. now apply (operational_after_call w t).
Qed.

Lemma addExpense_stays_operational (x : NewExpense) (w : World) (t : Table) :
  operational w t -> exists t', operational (snd (addExpense x w)) t'.
Proof.
  intros Hop. pose proof (quiet w t Hop) as Hq.
  pose proof Hop as (Hdb & Hfl & Ht).
  unfold addExpense. rewrite guarded_open by assumption.
  unfold try_catch, await_at, await. rewrite Hq.
  destruct (insert _ _ _ _ _ _ (file w)) as [e|[a d']] eqn:E.
  - exists t. repeat split; simpl; auto. now rewrite Hfl.
  - unfold insert in E. rewrite Ht in E.
    destruct (real_value (n_amount x)); [|discriminate].
    destruct (MAX_ROWID <=? last_rowid (file w) t)%Z; [discriminate|].
    inversion E; subst. eexists. simpl.
    now apply (operational_after_call w t).
Qed.

Lemma resetDatabase_stays_operational (w : World) (t : Table) :
  operational w t -> operational (snd (resetDatabase w)) fresh_table.
Proof.
  intros Hop. pose proof (quiet w t Hop) as Hq.
  pose proof Hop as (Hdb & Hfl & Ht).
  unfold resetDatabase. rewrite guarded_open by assumption.
  unfold try_catch, bind.
  rewrite (await_returns drop_table_if_exists w tt
             (mkDatabase None (expenses_backup (file w)) None) Hq)
    by (unfold drop_table_if_exists; now rewrite Ht).
  match goal with |- context [after_call w ?f] => set (w1 := after_call w f) end.
  assert (Hq1 : fails_now w1 = false)
    by (apply fails_now_nil; simpl; now rewrite Hfl).
  rewrite (await_returns create_table w1 tt
             (with_table (file w1) (Some fresh_table)) Hq1) by reflexivity.
  repeat split; simpl; auto. now rewrite Hfl.
Qed.

(** Case analysis of a successful statement on an existing table: the
    table is still there. *)
Ltac table_stays Ht :=
  let H := fresh "H" in
  intros ? ? H;
  cbv beta delta [select_all_ordered select_by_id select_like
                  select_date_range update_by_id delete_by_id delete_all
                  with_rows with_table] in H;
  rewrite Ht in H;
  repeat match type of H with
         | context [match ?x with _ => _ end] => destruct x
         end;
  inversion H; subst; simpl; congruence.

Lemma perform_stays_operational (c : Call) (w : World) (t : Table) :
  operational w t -> exists t', operational (snd (perform c w)) t'.
Proof.
  intros Hop. pose proof Hop as (_ & _ & Ht).
  destruct c; simpl; unfold world_after;
    try (apply (method_operational _ _ w t Hop); table_stays Ht).
  - destruct (addExpense_stays_operational x w t Hop) as [t' Ht'].
    exists t'. now destruct (addExpense x w) as [[i|e] w'].
  - destruct (getExpenseStats_operational w t Hop) as (w' & -> & Hop').
    now exists t.
  - exists fresh_table. now apply (resetDatabase_stays_operational w t).
Qed.

Lemma run_stays_operational (cs : list Call) (w : World) (t : Table) :
  operational w t -> exists t', operational (run cs w) t'.
Proof.
  revert w t. induction cs as [|c cs IH]; intros w t Hop; simpl.
  - now exists t.
  - destruct (perform_stays_operational c w t Hop) as [t1 Hop1].
    now apply (IH _ t1).
Qed.

(** C2.  From an operational store, after any history of calls of the
    store, [getAllExpenses] returns all the rows of the table, each once,
    ordered by date descending and, among equal dates, by id
    descending. *)
Theorem getAllExpenses_sorted (w : World) (t : Table) (cs : list Call) :
  operational w t ->
  exists t' l w',
    operational (run cs w) t' /\
    getAllExpenses (run cs w) = (Return l, w') /\
    Permutation l (rows t') /\
    StronglySorted newer_first l.
Proof.
  intros Hop. destruct (run_stays_operational cs w t Hop) as [t' Hop'].
  exists t'. rewrite (getAllExpenses_operational _ t' Hop').
  do 2 eexists. split; [exact Hop'|]. split; [reflexivity|]. split.
  - apply order_by_permutation.
  - apply order_by_strongly_sorted.
    + exact date_desc_id_desc_sound.
    + exact date_desc_id_desc_total.
    + exact newer_first_trans.
Qed.

Lemma getAllExpenses_sorted_witness :
  operational started fresh_table /\
  run [Add movie; Add fuel; Add groceries] started = scenario /\
  exists t' l w',
    operational scenario t' /\
    getAllExpenses scenario = (Return l, w') /\
    Permutation l (rows t') /\
    StronglySorted newer_first l.
Proof.
  assert (Hop : operational started fresh_table) by (repeat split).
  split; [exact Hop|]. split; [reflexivity|].
  exact (getAllExpenses_sorted started fresh_table
                               [Add movie; Add fuel; Add groceries] Hop).
Defined.

(* ================================================================== *)
(** * Further properties of the store *)

Import Store.

(* ------------------------------------------------------------------ *)
(** ** Date ranges *)

Lemma getExpensesByDateRange_operational (w : World) (t : Table) (lo hi : text) :
  operational w t ->
  getExpensesByDateRange lo hi w =
    (Return (order_by date_desc (filter (in_range lo hi) (rows t))),
     after_call w (file w)).
Proof.
  intros Hop. pose proof (quiet w t Hop) as Hq.
  destruct Hop as (Hdb & _ & Ht).
  unfold getExpensesByDateRange. rewrite guarded_open by assumption.
  apply try_catch_returns, await_returns; [exact Hq|].
  unfold select_date_range. now rewrite Ht.
Qed.

Lemma text_lt_not_le (a b : text) :
  String.ltb b a = true -> String.leb a b = false.
Proof.
  unfold String.ltb, String.leb. rewrite (String.compare_antisym a b).
  destruct (String.compare b a); simpl; congruence.
Qed.

Lemma filter_rejects_all {A} (p : A -> bool) (l : list A) :
  (forall x, p x = false) -> filter p l = [].
Proof.
  intros Hp. induction l as [|x l IH]; simpl; [reflexivity|].
  now rewrite Hp.
Qed.

(** X1.  On an operational store [getExpensesByDateRange lo hi] returns
    exactly the rows whose date lies between [lo] and [hi], both bounds
    included, dates compared as text; each once, by date descending, and
    without touching the file.  When [hi] is before [lo] the result is
    empty. *)
Theorem date_range_inclusive (w : World) (t : Table) (lo hi : text) :
  operational w t ->
  exists l w',
    getExpensesByDateRange lo hi w = (Return l, w') /\
    file w' = file w /\
    Permutation l (filter (in_range lo hi) (rows t)) /\
    (forall r, In r l <->
               In r (rows t) /\
               String.leb lo (date r) = true /\
               String.leb (date r) hi = true) /\
    StronglySorted later_date_first l /\
    (String.ltb hi lo = true -> l = []).
Proof.
  intros Hop. rewrite (getExpensesByDateRange_operational w t lo hi Hop).
  do 2 eexists. split; [reflexivity|]. split; [reflexivity|].
  split; [apply order_by_permutation|]. split; [|split].
  - intros r. rewrite In_order_by, filter_In. unfold in_range, text_le.
    now rewrite andb_true_iff.
  - apply order_by_strongly_sorted.
    + now unfold date_desc, later_date_first, text_le.
    + exact date_desc_total.
    + exact later_date_first_trans.
  - intros Hlt.
    rewrite filter_rejects_all; [reflexivity|].
    intros r. unfold in_range, text_le.
    destruct (String.leb lo (date r)) eqn:E1; [|reflexivity].
    destruct (String.leb (date r) hi) eqn:E2; [|reflexivity].
    pose proof (text_le_trans _ _ _ E1 E2) as Hle.
    now rewrite (text_lt_not_le lo hi Hlt) in Hle.
Qed.

Lemma date_range_inclusive_witness :
  operational scenario (table_of scenario) /\
  exists l w',
    getExpensesByDateRange "2025-08-17" "2025-08-18" scenario = (Return l, w') /\
    map title l = ["Grocery Shopping"; "Gas Station"].
Proof.
  assert (Hop : operational scenario (table_of scenario)) by (repeat split).
  split; [exact Hop|].
  destruct (date_range_inclusive scenario (table_of scenario)
              "2025-08-17" "2025-08-18" Hop) as (l & w' & Hrun & _).
  exists l, w'. split; [exact Hrun|].
  vm_compute in Hrun. now injection Hrun as <- _.
Defined.

(* ------------------------------------------------------------------ *)
(** ** Queries do not write *)

(** X2.  The five queries never change the database file: whatever the
    state of the process and of the file, and whether they return or
    throw. *)
Theorem queries_do_not_write (w : World) :
  file (world_after getAllExpenses w) = file w /\
  (forall i, file (world_after (getExpenseById i) w) = file w) /\
  (forall q, file (world_after (searchExpenses q) w) = file w) /\
  file (world_after getExpenseStats w) = file w /\
  (forall lo hi, file (world_after (getExpensesByDateRange lo hi) w) = file w).
Proof.
  assert (Hr : forall d : Database, d = d) by reflexivity.
  assert (Ht : forall a b c : Database, a = b -> b = c -> a = c)
    by (intros; congruence).
  unfold world_after.
  repeat split; intros; symmetry;
    try (refine (keeps_method eq Hr Ht _ _ _ w); reads).
  exact (getExpenseStats_keeps eq Hr Ht w).
Qed.

(* ------------------------------------------------------------------ *)
(** ** Failures are passed on *)

Lemma method_passes_on {A} (stmt : Database -> Result A) (msg : string)
      (w : World) (e : Sql.Error) :
  db w = true ->
  (fails_now w = true /\ e = SQLITE_IOERR) \/
  (fails_now w = false /\ stmt (file w) = inl e) ->
  passes_on (guarded (try_catch (await stmt)
                        (fun e => console_error msg e ;; throw e)))
            msg (EngineError e) w.
Proof.
  intros Hdb Hfail. unfold passes_on.
  rewrite guarded_open by assumption. unfold try_catch, await.
  destruct Hfail as [[Hf ->]|[Hf Hs]]; rewrite Hf; [|rewrite Hs];
    eexists; repeat split.
Qed.

Lemma addExpense_passes_on (x : NewExpense) (w : World) (e : Sql.Error) :
  db w = true ->
  (fails_now w = true /\ e = SQLITE_IOERR) \/
  (fails_now w = false /\
   insert (datetime_now w (ticks w)) (n_title x) (n_amount x) (n_category x)
          (n_date x) (Js.or_empty (n_description x)) (file w) = inl e) ->
  passes_on (addExpense x) "Error adding expense:" (EngineError e) w.
Proof.
  intros Hdb Hfail. unfold passes_on, addExpense.
  rewrite guarded_open by assumption. unfold try_catch, await_at, await.
  destruct Hfail as [[Hf ->]|[Hf Hs]]; rewrite Hf; [|rewrite Hs];
    eexists; repeat split.
Qed.

(** X3.  When the storage layer fails at the first statement of a method,
    each of the ten methods throws that failure to its caller, after
    writing one [console.error] line, and leaves the file as it was. *)
Theorem storage_failure_is_passed_on (w : World) :
  db w = true -> fails_now w = true ->
  (forall x, passes_on (addExpense x) "Error adding expense:" io_failure w) /\
  passes_on getAllExpenses "Error fetching expenses:" io_failure w /\
  (forall i, passes_on (getExpenseById i)
                       "Error fetching expense by id:" io_failure w) /\
  (forall i x, passes_on (updateExpense i x)
                         "Error updating expense:" io_failure w) /\
  (forall i, passes_on (deleteExpense i) "Error deleting expense:" io_failure w) /\
  (forall q, passes_on (searchExpenses q)
                       "Error searching expenses:" io_failure w) /\
  passes_on getExpenseStats "Error fetching expense stats:" io_failure w /\
  (forall lo hi, passes_on (getExpensesByDateRange lo hi)
                   "Error fetching expenses by date range:" io_failure w) /\
  passes_on clearAllData "Error clearing all data:" io_failure w /\
  passes_on resetDatabase "Error resetting database:" io_failure w.
Proof.
  intros Hdb Hf. unfold io_failure.
  repeat split; intros;
    try (apply method_passes_on; [assumption|now left]).
  - apply addExpense_passes_on; [assumption|now left].
  - unfold passes_on, getExpenseStats. rewrite guarded_open by assumption.
    unfold try_catch, bind, await. rewrite Hf. eexists. repeat split.
  - unfold passes_on, resetDatabase. rewrite guarded_open by assumption.
    unfold try_catch, bind, await. rewrite Hf. eexists. repeat split.
Qed.

Lemma storage_failure_is_passed_on_witness :
  db (world_after open_database (boot legacy_file [false; true])) = true /\
  fails_now (world_after open_database (boot legacy_file [false; true])) = true /\
  passes_on getAllExpenses "Error fetching expenses:" io_failure
            (world_after open_database (boot legacy_file [false; true])).
Proof.
  split; [reflexivity|]. split; [reflexivity|].
  apply (storage_failure_is_passed_on
           (world_after open_database (boot legacy_file [false; true]))
           eq_refl eq_refl).
Defined.



(* ------------------------------------------------------------------ *)
(** ** Clearing and resetting *)

Lemma clearAllData_operational (w : World) (t : Table) :
  operational w t ->
  clearAllData w = (Return tt, after_call w (with_rows (file w) t [])).
Proof.
  intros Hop. pose proof (quiet w t Hop) as Hq.
  destruct Hop as (Hdb & _ & Ht).
  unfold clearAllData. rewrite guarded_open by assumption.
  apply try_catch_returns, await_returns; [exact Hq|].
  unfold delete_all. now rewrite Ht.
Qed.

(** X5.  On an operational store [clearAllData] removes every row and
    nothing else: the table keeps its schema and the AUTOINCREMENT counter
    its value; afterwards [getAllExpenses] returns the empty list and
    [getExpenseStats] a total of 0 with no category. *)
Theorem clearAllData_empties (w : World) (t : Table) :
  operational w t ->
  exists w1,
    clearAllData w = (Return tt, w1) /\
    operational w1 (mkTable (created_at_column t) []) /\
    sqlite_sequence (file w1) = sqlite_sequence (file w) /\
    expenses_backup (file w1) = expenses_backup (file w) /\
    (exists w2, getAllExpenses w1 = (Return [], w2)) /\
    (exists s w2,
       getExpenseStats w1 = (Return s, w2) /\
       totalExpenses s = 0%float /\ categorySums s = []).
Proof.
  intros Hop. rewrite (clearAllData_operational w t Hop).
  match goal with |- context [after_call w ?f] => set (w1 := after_call w f) end.
  assert (Hop1 : operational w1 (mkTable (created_at_column t) []))
    by (now apply (operational_after_call w t)).
  exists w1. split; [reflexivity|]. split; [exact Hop1|].
  split; [reflexivity|]. split; [reflexivity|]. split.
  - rewrite (getAllExpenses_operational w1 _ Hop1). now eexists.
  - now apply (getExpenseStats_no_rows w1 _ Hop1).
Qed.

Lemma clearAllData_empties_witness :
  operational scenario (table_of scenario) /\
  length (rows (table_of scenario)) = 3 /\
  exists w1,
    clearAllData scenario = (Return tt, w1) /\
    rows (table_of w1) = [] /\
    sqlite_sequence (file w1) = Some 3%Z.
Proof.
  assert (Hop : operational scenario (table_of scenario)) by (repeat split).
  split; [exact Hop|]. split; [reflexivity|].
  destruct (clearAllData_empties scenario (table_of scenario) Hop)
    as (w1 & Hrun & (_ & _ & Ht) & Hseq & _).
  exists w1. split; [exact Hrun|]. split.
  - unfold table_of. now rewrite Ht.
  - now rewrite Hseq.
Defined.

Lemma resetDatabase_operational (w : World) (t : Table) :
  operational w t ->
  exists w1,
    resetDatabase w = (Return tt, w1) /\
    operational w1 fresh_table /\
    sqlite_sequence (file w1) = None /\
    expenses_backup (file w1) = expenses_backup (file w) /\
    datetime_now w1 = datetime_now w.
Proof.
  intros Hop. pose proof (quiet w t Hop) as Hq.
  pose proof Hop as (Hdb & Hfl & Ht).
  unfold resetDatabase. rewrite guarded_open by assumption.
  unfold try_catch, bind.
  rewrite (await_returns drop_table_if_exists w tt
             (mkDatabase None (expenses_backup (file w)) None) Hq)
    by (unfold drop_table_if_exists; now rewrite Ht).
  match goal with |- context [after_call w ?f] => set (w1 := after_call w f) end.
  assert (Hq1 : fails_now w1 = false)
    by (apply fails_now_nil; simpl; now rewrite Hfl).
  rewrite (await_returns create_table w1 tt
             (with_table (file w1) (Some fresh_table)) Hq1) by reflexivity.
  eexists. split; [reflexivity|].
  repeat split; simpl; auto. now rewrite Hfl.
Qed.

(** X6.  On an operational store, whatever its table, [resetDatabase]
    leaves the table [CREATE TABLE] makes: empty, with the [created_at]
    default, and with no AUTOINCREMENT counter.  So the next valid expense
    gets the id 1 and a non-null [created_at], also on a store that had
    been repaired in place. *)
Theorem resetDatabase_starts_over (w : World) (t : Table) :
  operational w t ->
  exists w1,
    resetDatabase w = (Return tt, w1) /\
    operational w1 fresh_table /\
    sqlite_sequence (file w1) = None /\
    forall x, valid x ->
      exists w2 r w3,
        addExpense x w1 = (Return 1%Z, w2) /\
        getExpenseById 1 w2 = (Return (Some r), w3) /\
        title r = n_title x /\
        created_at r <> None.
Proof.
  intros Hop.
  destruct (resetDatabase_operational w t Hop)
    as (w1 & Hrun & Hop1 & Hseq & _).
  exists w1. split; [exact Hrun|]. split; [exact Hop1|].
  split; [exact Hseq|]. intros x Hv.
  assert (Hlast : last_rowid (file w1) fresh_table = 0%Z)
    by (unfold last_rowid, seq_value; now rewrite Hseq).
  assert (Hroom : has_room w1 fresh_table)
    by (unfold has_room; now rewrite Hlast).
  rewrite (addExpense_operational w1 fresh_table Hop1 x Hv Hroom), Hlast.
  match goal with |- context [after_call w1 ?f] => set (w2 := after_call w1 f) end.
  assert (Hop2 : operational w2
            (mkTable DefaultNow [added_row w1 fresh_table x]))
    by (now apply (operational_after_call w1 fresh_table)).
  exists w2. rewrite (getExpenseById_operational w2 _ Hop2).
  unfold added_row. rewrite Hlast. simpl.
  do 2 eexists. repeat split. discriminate.
Qed.

Lemma resetDatabase_starts_over_witness :
  operational upgraded (table_of upgraded) /\
  created_at_column (table_of upgraded) = Plain /\
  valid groceries /\
  exists w1 w2 r w3,
    resetDatabase upgraded = (Return tt, w1) /\
    addExpense groceries w1 = (Return 1%Z, w2) /\
    getExpenseById 1 w2 = (Return (Some r), w3) /\
    created_at r <> None.
Proof.
  assert (Hop : operational upgraded (table_of upgraded)) by (repeat split).
  assert (Hv : valid groceries) by (split; [discriminate|reflexivity]).
  split; [exact Hop|]. split; [reflexivity|]. split; [exact Hv|].
  destruct (resetDatabase_starts_over upgraded (table_of upgraded) Hop)
    as (w1 & Hrun & _ & _ & Hnext).
  destruct (Hnext groceries Hv) as (w2 & r & w3 & Hadd & Hget & _ & Hstamp).
  now exists w1, w2, r, w3.
Defined.

(** X7.  [resetDatabase] is two statements and is not atomic: when the
    storage layer fails after DROP TABLE and before CREATE TABLE, the
    method throws that failure and leaves the file with no [expenses]
    table and no counter, the rows gone for good. *)
Theorem resetDatabase_interrupted (w : World) (t : Table) (fl : list bool) :
  db w = true -> expenses (file w) = Some t ->
  faults w = false :: true :: fl ->
  exists w1,
    resetDatabase w = (Throw io_failure, w1) /\
    expenses (file w1) = None /\
    sqlite_sequence (file w1) = None /\
    console w1 = console w ++ [error "Error resetting database:" io_failure].
Proof.
  intros Hdb Ht Hfl.
  unfold resetDatabase. rewrite guarded_open by assumption.
  unfold try_catch, bind, await, fails_now. rewrite Hfl.
  unfold drop_table_if_exists. rewrite Ht. simpl. rewrite Hfl. simpl.
  eexists. repeat split.
Qed.

Lemma resetDatabase_interrupted_witness :
  exists w1,
    resetDatabase
      (mkWorld true (file scenario) [] [false; true] 0
               (datetime_now scenario) (toISOString_now scenario))
    = (Throw io_failure, w1) /\
    expenses (file w1) = None.
Proof.
  destruct (resetDatabase_interrupted
              (mkWorld true (file scenario) [] [false; true] 0
                       (datetime_now scenario) (toISOString_now scenario))
              (table_of scenario) [] eq_refl eq_refl eq_refl)
    as (w1 & Hrun & Hgone & _).
  now exists w1.
Defined.

(** X8.  With the handle set but no [expenses] table in the file, every
    operation except [resetDatabase] fails with "no such table", which it
    passes on; [resetDatabase] succeeds and makes the store operational,
    on an empty table. *)
Theorem without_the_table (w : World) :
  db w = true -> faults w = [] -> expenses (file w) = None ->
  (forall x, passes_on (addExpense x) "Error adding expense:"
                       (EngineError NoSuchTable) w) /\
  passes_on getAllExpenses "Error fetching expenses:"
            (EngineError NoSuchTable) w /\
  (forall i, passes_on (getExpenseById i) "Error fetching expense by id:"
                       (EngineError NoSuchTable) w) /\
  (forall i x, passes_on (updateExpense i x) "Error updating expense:"
                         (EngineError NoSuchTable) w) /\
  (forall i, passes_on (deleteExpense i) "Error deleting expense:"
                       (EngineError NoSuchTable) w) /\
  (forall q, passes_on (searchExpenses q) "Error searching expenses:"
                       (EngineError NoSuchTable) w) /\
  passes_on getExpenseStats "Error fetching expense stats:"
            (EngineError NoSuchTable) w /\
  (forall lo hi, passes_on (getExpensesByDateRange lo hi)
                   "Error fetching expenses by date range:"
                   (EngineError NoSuchTable) w) /\
  passes_on clearAllData "Error clearing all data:"
            (EngineError NoSuchTable) w /\
  (exists w1, resetDatabase w = (Return tt, w1) /\ operational w1 fresh_table).
Proof.
  intros Hdb Hfl Ht. pose proof (fails_now_nil w Hfl) as Hq.
  repeat split; intros;
    try (apply method_passes_on; [assumption|right]; split; [assumption|];
         cbv beta delta [select_all_ordered select_by_id update_by_id
                         delete_by_id select_like select_date_range delete_all];
         now rewrite Ht).
  - apply addExpense_passes_on; [assumption|right]. split; [assumption|].
    unfold insert. now rewrite Ht.
  - unfold passes_on, getExpenseStats. rewrite guarded_open by assumption.
    unfold try_catch, bind, await, select_total. rewrite Hq, Ht.
    eexists. repeat split.
  - unfold resetDatabase. rewrite guarded_open by assumption.
    unfold try_catch, bind, await, fails_now. rewrite Hfl.
    unfold drop_table_if_exists. rewrite Ht. simpl. rewrite Hfl. simpl.
    unfold create_table. simpl. rewrite Ht. simpl.
    eexists. split; [reflexivity|]. repeat split; simpl; auto.
    now rewrite Hfl.
Qed.

Lemma without_the_table_witness :
  passes_on getAllExpenses "Error fetching expenses:"
            (EngineError NoSuchTable)
            (world_after open_database (boot empty_file [])) /\
  exists w1,
    resetDatabase (world_after open_database (boot empty_file []))
    = (Return tt, w1) /\
    operational w1 fresh_table.
Proof.
  pose proof (without_the_table
                (world_after open_database (boot empty_file []))
                eq_refl eq_refl eq_refl) as H.
  split; [apply H|apply H].
Defined.

(* ------------------------------------------------------------------ *)
(** ** One record at a time *)

Lemma lookup_filter_other (i j : Z) (rs : list Expense) :
  j <> i -> lookup j (filter (fun r => negb (has_id i r)) rs) = lookup j rs.
Proof.
  intros Hne. unfold lookup.
  induction rs as [|r rs IH]; simpl; [reflexivity|].
  destruct (has_id i r) eqn:Ei; simpl.
  - assert (Hj : has_id j r = false).
    { unfold has_id in *. apply Z.eqb_eq in Ei. apply Z.eqb_neq. congruence. }
    now rewrite Hj.
  - now rewrite IH.
Qed.

Lemma lookup_set_fields_other ttl a c d ds (i j : Z) (rs : list Expense) :
  j <> i -> lookup j (map (set_fields ttl a c d ds i) rs) = lookup j rs.
Proof.
  intros Hne. unfold lookup.
  induction rs as [|r rs IH]; simpl; [reflexivity|].
  unfold has_id at 1. rewrite set_fields_id. fold (has_id j r).
  destruct (has_id j r) eqn:Ej; [|exact IH].
  unfold set_fields.
  assert (Hi : has_id i r = false).
  { unfold has_id in *. apply Z.eqb_eq in Ej. apply Z.eqb_neq. congruence. }
  now rewrite Hi.
Qed.

(** X9.  On an operational store a write touches one record only.  After
    [deleteExpense i], and after [updateExpense i x] with a valid [x],
    [getExpenseById j] returns for every other id [j] what it returned
    before; and after [addExpense x] it does so for every id but the new
    one. *)
Theorem other_records_untouched (w : World) (t : Table) (i : Z) (x : NewExpense) :
  operational w t ->
  (forall j, j <> i ->
     fst (getExpenseById j (world_after (deleteExpense i) w))
     = fst (getExpenseById j w))
  /\
  (valid x -> forall j, j <> i ->
     fst (getExpenseById j (world_after (updateExpense i x) w))
     = fst (getExpenseById j w))
  /\
  (valid x -> has_room w t ->
   exists k w1,
     addExpense x w = (Return k, w1) /\
     forall j, j <> k ->
       fst (getExpenseById j w1) = fst (getExpenseById j w)).
Proof.
  intros Hop. unfold world_after.
  rewrite (deleteExpense_operational w t Hop).
  repeat split.
  - intros j Hne. simpl snd.
    match goal with |- context [after_call w ?f] => set (w1 := after_call w f) end.
    assert (Hop1 : operational w1
              (mkTable (created_at_column t)
                       (filter (fun r => negb (has_id i r)) (rows t))))
      by (now apply (operational_after_call w t)).
    rewrite (getExpenseById_operational w1 _ Hop1),
            (getExpenseById_operational w t Hop).
    simpl. now rewrite lookup_filter_other.
  - intros Hv j Hne.
    rewrite (updateExpense_operational w t Hop i x Hv). simpl snd.
    rewrite (getExpenseById_operational w t Hop).
    destruct (lookup i (rows t)) as [old|] eqn:Hold.
    + match goal with |- context [after_call w ?f] => set (w1 := after_call w f) end.
      assert (Hop1 : operational w1
                (mkTable (created_at_column t)
                   (map (set_fields (n_title x) (n_amount x) (n_category x)
                           (n_date x) (Js.or_empty (n_description x)) i)
                        (rows t))))
        by (now apply (operational_after_call w t)).
      rewrite (getExpenseById_operational w1 _ Hop1). simpl.
      now rewrite lookup_set_fields_other.
    + assert (Hop1 : operational (after_call w (file w)) t)
        by (apply (operational_after_call w t); [assumption|apply Hop]).
      now rewrite (getExpenseById_operational _ t Hop1).
  - intros Hv Hroom.
    rewrite (addExpense_operational w t Hop x Hv Hroom).
    match goal with |- context [after_call w ?f] => set (w1 := after_call w f) end.
    assert (Hop1 : operational w1
              (mkTable (created_at_column t)
                       (insert_row (added_row w t x) (rows t))))
      by (now apply (operational_after_call w t)).
    exists (last_rowid (file w) t + 1)%Z, w1. split; [reflexivity|].
    intros j Hne.
    rewrite (getExpenseById_operational w1 _ Hop1),
            (getExpenseById_operational w t Hop).
    simpl. rewrite lookup_insert_row_other; [reflexivity|].
    simpl. congruence.
Qed.

Lemma other_records_untouched_witness :
  operational scenario (table_of scenario) /\
  valid coffee /\ has_room scenario (table_of scenario) /\
  fst (getExpenseById 1 (world_after (deleteExpense 2) scenario))
  = fst (getExpenseById 1 scenario) /\
  fst (getExpenseById 1 (world_after (updateExpense 2 coffee) scenario))
  = fst (getExpenseById 1 scenario) /\
  exists k w1,
    addExpense coffee scenario = (Return k, w1) /\
    forall j, j <> k ->
      fst (getExpenseById j w1) = fst (getExpenseById j scenario).
Proof.
  assert (Hop : operational scenario (table_of scenario)) by (repeat split).
  assert (Hv : valid coffee) by (split; [discriminate|reflexivity]).
  split; [exact Hop|]. split; [exact Hv|]. split; [reflexivity|].
  pose proof (other_records_untouched scenario (table_of scenario) 2 coffee Hop)
    as (Hdel & Hupd & Hadd).
  split; [apply Hdel; discriminate|].
  split; [apply (Hupd Hv); discriminate|].
  apply (Hadd Hv). reflexivity.
Defined.

(* ------------------------------------------------------------------ *)
(** ** What the table guarantees *)

Lemma lookup_none_absent (i : Z) (rs : list Expense) :
  lookup i rs = None -> ~ In i (map id rs).
Proof.
  intros Hnone Hin. apply in_map_iff in Hin as (r & Hid & Hin).
  unfold lookup in Hnone.
  apply (find_none _ _ Hnone) in Hin. unfold has_id in Hin.
  rewrite Hid, Z.eqb_refl in Hin. discriminate.
Qed.

Lemma ids_insert_row (r : Expense) (rs : list Expense) :
  Permutation (map id (insert_row r rs)) (id r :: map id rs).
Proof.
  induction rs as [|r' rs IH]; simpl; [reflexivity|].
  destruct (id r <? id r')%Z; simpl; [reflexivity|].
  rewrite IH. apply perm_swap.
Qed.

Lemma Forall_insert_row (P : Expense -> Prop) (r : Expense) (rs : list Expense) :
  P r -> Forall P rs -> Forall P (insert_row r rs).
Proof.
  intros Hr Hrs. apply Forall_forall. intros y Hy.
  apply In_insert_row in Hy as [->|Hy]; [assumption|].
  now apply (proj1 (Forall_forall _ _) Hrs).
Qed.

Lemma consistent_with_row (d : Database) (t : Table) (r : Expense) (s : Z) :
  expenses d = Some t -> consistent d ->
  ~ In (id r) (map id (rows t)) ->
  (seq_value d <= s)%Z -> (id r <= s)%Z ->
  PrimFloat.is_nan (amount r) = false ->
  consistent (mkDatabase (Some (mkTable (created_at_column t)
                                        (insert_row r (rows t))))
                         (expenses_backup d) (Some s)).
Proof.
  intros Ht Hc Hnew Hseq Hid Hnum. unfold consistent in *.
  rewrite Ht in Hc. destruct Hc as (Hnd & Hbound & Hnums). simpl.
  repeat split.
  - eapply Permutation_NoDup; [symmetry; apply ids_insert_row|].
    now constructor.
  - apply Forall_insert_row; [exact Hid|].
    eapply Forall_impl; [|exact Hbound]. simpl. intros y Hy.
    unfold seq_value in *. simpl. lia.
  - now apply Forall_insert_row.
Qed.

Lemma real_value_number (x a : float) :
  real_value x = Some a -> a = x /\ PrimFloat.is_nan x = false.
Proof.
  unfold real_value. destruct (PrimFloat.is_nan x); [discriminate|].
  intros H. now inversion H.
Qed.

Lemma insert_consistent now ttl amt cat dt ds (d d' : Database) (i : Z) :
  insert now ttl amt cat dt ds d = inr (i, d') -> stays_consistent d d'.
Proof.
  unfold insert, stays_consistent.
  destruct (expenses d) as [t|] eqn:Ht; [|discriminate].
  destruct (real_value amt) as [a|] eqn:Ha; [|discriminate].
  destruct (MAX_ROWID <=? last_rowid d t)%Z; [discriminate|].
  intros H Hc. inversion H; subst. clear H.
  apply real_value_number in Ha as [-> Hnum].
  apply (consistent_with_row d t); auto; simpl; unfold last_rowid; try lia.
  intros Hin. apply in_map_iff in Hin as (y & Hy & Hin).
  apply max_rowid_bound in Hin. simpl in Hy. lia.
Qed.

Lemma insert_with_id_consistent (r : Expense) (d d' : Database) (i : Z) :
  insert_with_id r d = inr (i, d') -> stays_consistent d d'.
Proof.
  unfold insert_with_id, stays_consistent.
  destruct (expenses d) as [t|] eqn:Ht; [|discriminate].
  destruct (real_value (amount r)) as [a|] eqn:Ha;
    destruct (lookup (id r) (rows t)) eqn:Hl;
    destruct (created_at_column t); try discriminate;
    intros H Hc; inversion H; subst; clear H;
    apply real_value_number in Ha as [_ Hnum];
    (apply (consistent_with_row d t r (Z.max (seq_value d) (id r))); auto;
     [now apply lookup_none_absent|apply Z.le_max_l|apply Z.le_max_r]).
Qed.

Lemma ids_set_fields ttl a c dt ds i (rs : list Expense) :
  map id (map (set_fields ttl a c dt ds i) rs) = map id rs.
Proof.
  rewrite map_map. apply map_ext. intros r. apply set_fields_id.
Qed.

Lemma ids_after_delete (i : Z) (rs : list Expense) :
  NoDup (map id rs) ->
  NoDup (map id (filter (fun r => negb (has_id i r)) rs)).
Proof.
  induction rs as [|r rs IH]; simpl; [constructor|].
  intros Hnd. inversion Hnd as [|? ? Hnew Hrest]; subst.
  destruct (has_id i r); simpl; [now apply IH|].
  constructor; [|now apply IH].
  intros Hin. apply Hnew. apply in_map_iff in Hin as (y & Hy & Hin).
  apply filter_In in Hin as [Hin _]. apply in_map_iff. now exists y.
Qed.

Lemma update_by_id_consistent ttl amt cat dt ds i (d d' : Database) u :
  update_by_id ttl amt cat dt ds i d = inr (u, d') -> stays_consistent d d'.
Proof.
  unfold update_by_id, stays_consistent.
  destruct (expenses d) as [t|] eqn:Ht; [|discriminate].
  destruct (lookup i (rows t)); [|intros H; now inversion H].
  destruct (real_value amt) as [a|] eqn:Ha; [|discriminate].
  intros H Hc. inversion H; subst. clear H.
  apply real_value_number in Ha as [-> Hnum].
  unfold consistent in *. rewrite Ht in Hc.
  destruct Hc as (Hnd & Hbound & Hnums). simpl.
  rewrite ids_set_fields. repeat split; [assumption| |].
  - apply Forall_forall. intros y Hy. apply in_map_iff in Hy as (r & <- & Hr).
    rewrite set_fields_id. unfold seq_value. simpl.
    exact (proj1 (Forall_forall _ _) Hbound r Hr).
  - apply Forall_forall. intros y Hy. apply in_map_iff in Hy as (r & <- & Hr).
    unfold set_fields. destruct (has_id i r); [exact Hnum|].
    exact (proj1 (Forall_forall _ _) Hnums r Hr).
Qed.

Lemma delete_by_id_consistent i (d d' : Database) u :
  delete_by_id i d = inr (u, d') -> stays_consistent d d'.
Proof.
  unfold delete_by_id, stays_consistent.
  destruct (expenses d) as [t|] eqn:Ht; [|discriminate].
  intros H Hc. inversion H; subst. clear H.
  unfold consistent in *. rewrite Ht in Hc.
  destruct Hc as (Hnd & Hbound & Hnums). simpl.
  repeat split; [now apply ids_after_delete| |].
  - apply Forall_forall. intros y Hy. apply filter_In in Hy as [Hy _].
    unfold seq_value. simpl. exact (proj1 (Forall_forall _ _) Hbound y Hy).
  - apply Forall_forall. intros y Hy. apply filter_In in Hy as [Hy _].
    exact (proj1 (Forall_forall _ _) Hnums y Hy).
Qed.

Lemma backfill_created_at_consistent now (d d' : Database) u :
  backfill_created_at now d = inr (u, d') -> stays_consistent d d'.
Proof.
  unfold backfill_created_at, stays_consistent.
  destruct (expenses d) as [t|] eqn:Ht; [|discriminate].
  destruct (created_at_column t); try discriminate;
    intros H Hc; inversion H; subst; clear H;
    unfold consistent in *; rewrite Ht in Hc;
    destruct Hc as (Hnd & Hbound & Hnums); simpl;
    (repeat split;
     [ rewrite map_map;
       rewrite (map_ext _ id) by (intros r; unfold backfill;
                                  now destruct (created_at r));
       assumption
     | apply Forall_forall; intros y Hy;
       apply in_map_iff in Hy as (r & <- & Hr);
       replace (id (backfill now r)) with (id r)
         by (unfold backfill; now destruct (created_at r));
       unfold seq_value; simpl;
       exact (proj1 (Forall_forall _ _) Hbound r Hr)
     | apply Forall_forall; intros y Hy;
       apply in_map_iff in Hy as (r & <- & Hr);
       replace (amount (backfill now r)) with (amount r)
         by (unfold backfill; now destruct (created_at r));
       exact (proj1 (Forall_forall _ _) Hnums r Hr) ]).
Qed.

(** Case analysis of a successful statement that leaves the rows of
    [expenses] and the counter alone, empties the table, or creates it. *)
Ltac keeps_consistency :=
  let d := fresh "d" in let H := fresh "H" in let Hc := fresh "Hc" in
  intros d ? ? H;
  cbv beta delta [select_all_ordered select_by_id select_like select_total
                  select_category_totals select_monthly_totals
                  select_date_range select_all delete_all table_info
                  create_table_if_not_exists create_table
                  add_created_at_column drop_backup_if_exists create_backup
                  drop_table drop_table_if_exists with_rows with_table
                  fresh_table] in H;
  unfold stays_consistent, consistent; intros Hc;
  repeat match type of H with
         | context [match ?x with _ => _ end] => destruct x eqn:?
         end;
  inversion H; subst; simpl in *;
  repeat match goal with
         | E : expenses ?x = _ |- context [expenses ?x] => rewrite E
         end;
  try assumption; try (repeat split; constructor).

Section KeepsMore.
Variable P : Database -> Database -> Prop.
Hypothesis P_refl : forall d, P d d.
Hypothesis P_trans : forall a b c, P a b -> P b c -> P a c.

Lemma keeps_this_db : keeps P this_db.
Proof. intros w. apply P_refl. Qed.

Lemma keeps_toISOString : keeps P toISOString.
Proof. intros w. apply P_refl. Qed.

Lemma keeps_open_database : keeps P open_database.
Proof.
  intros w. unfold open_database. destruct (fails_now w); apply P_refl.
Qed.

Lemma keeps_await_at {A} (stmt : text -> Database -> Result A) :
  (forall now d a d', stmt now d = inr (a, d') -> P d d') ->
  keeps P (await_at stmt).
Proof.
  intros Hs w. unfold await_at.
  apply (keeps_await P P_refl (stmt (datetime_now w (ticks w)))).
  intros d a d'. apply Hs.
Qed.

Lemma keeps_for_of {A} (xs : list A) (body : A -> M unit) :
  (forall x, keeps P (body x)) -> keeps P (for_of xs body).
Proof.
  intros Hb. induction xs as [|x xs IH]; simpl.
  - now apply keeps_ret.
  - apply keeps_bind; auto.
Qed.
End KeepsMore.

(* ------------------------------------------------------------------ *)
(** ** Ids over the lifetime of the store *)

(** The in-place repair leaves the AUTOINCREMENT counter alone. *)
Lemma addColumnInPlace_keeps_seq : keeps seq_grows addColumnInPlace.
Proof.
  pose proof seq_grows_refl as Hr. pose proof seq_grows_trans as Ht.
  unfold addColumnInPlace.
  apply keeps_bind; auto.
  - apply keeps_await; auto. intros d a d'. unfold table_info.
    destruct (expenses d); intros H; inversion H; apply Hr.
  - intros tableInfo.
    destruct (negb _); [|now apply keeps_ret].
    apply keeps_bind; auto; [now apply keeps_console_log|]. intros _.
    apply keeps_bind; auto.
    + apply keeps_await; auto. intros d a d'. unfold add_created_at_column.
      destruct (expenses d) as [t|]; [|discriminate].
      destruct (created_at_column t); try discriminate.
      intros H; inversion H. unfold seq_grows, seq_value. simpl. lia.
    + intros _. apply keeps_bind; auto; [|intros _; now apply keeps_console_log].
      apply keeps_await_at; auto. intros now d a d'.
      unfold backfill_created_at.
      destruct (expenses d) as [t|]; [|discriminate].
      destruct (created_at_column t); try discriminate;
        intros H; inversion H; unfold seq_grows, seq_value; simpl; lia.
Qed.

(** A start that does not rebuild the table keeps the counter. *)
Lemma start_keeps_seq (w : World) :
  rebuilds w = false ->
  seq_grows (file w) (file (world_after initializeDatabase w)).
Proof.
  unfold rebuilds, world_after, initializeDatabase, try_catch, bind.
  pose proof (keeps_open_database seq_grows seq_grows_refl w) as Ho.
  destruct (open_database w) as [[[]|e] w1] eqn:Eo; simpl in Ho;
    [|intros _; exact Ho].
  assert (Hdb : db w1 = true).
  { revert Eo. unfold open_database. destruct (fails_now w); [discriminate|].
    intros H. now inversion H. }
  assert (Hc : seq_grows (file w1)
                 (file (snd (await create_table_if_not_exists w1)))).
  { apply keeps_await; [exact seq_grows_refl|]. intros d a d'.
    unfold create_table_if_not_exists.
    destruct (expenses d); intros H; inversion H;
      unfold seq_grows, seq_value; simpl; lia. }
  destruct (await create_table_if_not_exists w1) as [[[]|e] w2] eqn:Ec;
    simpl in Hc; [|intros _; exact (seq_grows_trans _ _ _ Ho Hc)].
  assert (Hdb2 : db w2 = true).
  { revert Ec. unfold await. destruct (fails_now w1); [discriminate|].
    destruct (create_table_if_not_exists (file w1)) as [e|[a d]];
      [discriminate|].
    intros H. inversion H. exact Hdb. }
  unfold ensureCreatedAtColumn, bind, this_db, try_catch. rewrite Hdb2. simpl.
  pose proof (addColumnInPlace_keeps_seq w2) as Ha.
  destruct (addColumnInPlace w2) as [[[]|e] w3]; [|discriminate].
  intros _. simpl in *.
  exact (seq_grows_trans _ _ _ Ho (seq_grows_trans _ _ _ Hc Ha)).
Qed.

Lemma happen_assigns (ev : Event) (w w' : World) (i : Z) :
  happen ev w = (Some i, w') ->
  exists x, addExpense x w = (Return i, w').
Proof.
  destruct ev as [c| |]; simpl; try discriminate.
  intros H. apply perform_assigns in H as (x & _ & H). now exists x.
Qed.

Lemma ids_over_above (evs : list Event) :
  forall w, undisturbed evs w = true ->
    Forall (fun i => (seq_value (file w) < i)%Z) (ids_over evs w) /\
    StronglySorted Z.lt (ids_over evs w).
Proof.
  induction evs as [|ev evs IH]; simpl; intros w Hevs.
  - split; constructor.
  - apply andb_true_iff in Hevs as [Hev Hevs].
    assert (Hgrow : seq_grows (file w) (file (snd (happen ev w)))).
    { destruct ev as [c| |]; simpl.
      - apply perform_keeps_seq. now apply negb_true_iff.
      - apply start_keeps_seq. now apply negb_true_iff.
      - apply seq_grows_refl. }
    destruct (happen ev w) as [[i|] w'] eqn:E; simpl in Hgrow, Hevs;
      destruct (IH w' Hevs) as [Habove Hsorted]; unfold seq_grows in Hgrow.
    + apply happen_assigns in E as (x & Hadd).
      apply addExpense_seq in Hadd as [Hlt Heq].
      rewrite Heq in Habove. split; constructor; try assumption.
      eapply Forall_impl; [|exact Habove]. simpl. intros j Hj. lia.
    + split; [|assumption].
      eapply Forall_impl; [|exact Habove]. simpl. intros j Hj. lia.
Qed.

(** C8 (as amended).  Over the lifetime of the store, that is along any
    sequence of starts, ends of the process and calls of the public
    methods, begun in any state and under any storage failures, in which
    there is no [resetDatabase] and no start that rebuilds the table, the
    ids [addExpense] returns are strictly increasing; so no id is
    returned twice. *)
Theorem ids_increase_without_reset (evs : list Event) (w : World) :
  undisturbed evs w = true ->
  StronglySorted Z.lt (ids_over evs w) /\ NoDup (ids_over evs w).
Proof.
  intros Hevs. destruct (ids_over_above evs w Hevs) as [_ Hs].
  split; [assumption|now apply increasing_NoDup].
Qed.

(** A first run that adds, deletes and clears, then a second run: the
    ids go on from where they were. *)
Lemma ids_increase_without_reset_witness :
  undisturbed [Start; Do (Add groceries); Do (Delete 1); Do (Add fuel);
               Do Clear; Exit; Start; Do (Add movie)]
    (boot empty_file []) = true /\
  ids_over [Start; Do (Add groceries); Do (Delete 1); Do (Add fuel);
            Do Clear; Exit; Start; Do (Add movie)]
    (boot empty_file []) = [1; 2; 3]%Z /\
  StronglySorted Z.lt
    (ids_over [Start; Do (Add groceries); Do (Delete 1); Do (Add fuel);
               Do Clear; Exit; Start; Do (Add movie)]
    (boot empty_file [])) /\
  NoDup
    (ids_over [Start; Do (Add groceries); Do (Delete 1); Do (Add fuel);
               Do Clear; Exit; Start; Do (Add movie)]
    (boot empty_file [])).
Proof.
  split; [reflexivity|]. split; [reflexivity|].
  apply (ids_increase_without_reset
           [Start; Do (Add groceries); Do (Delete 1); Do (Add fuel);
            Do Clear; Exit; Start; Do (Add movie)]
    (boot empty_file [])).
  reflexivity.
Defined.

(** C8 as stated fails after [resetDatabase]: [DROP TABLE] discards the
    AUTOINCREMENT counter with the table, and the next expense gets the id
    1 again, the id the groceries had. *)
Lemma id_reuse_after_reset_counterexample :
  ids_over [Do (Add groceries); Do ResetDb; Do (Add fuel)] started
    = [1; 1]%Z /\
  ~ StronglySorted Z.lt
      (ids_over [Do (Add groceries); Do ResetDb; Do (Add fuel)] started) /\
  ~ NoDup (ids_over [Do (Add groceries); Do ResetDb; Do (Add fuel)] started).
Proof.
  split; [reflexivity|].
  replace (ids_over [Do (Add groceries); Do ResetDb; Do (Add fuel)] started)
    with [1; 1]%Z by reflexivity.
  split; intros H.
  - apply increasing_NoDup in H. inversion H as [|? ? Hnin]. apply Hnin. now left.
  - inversion H as [|? ? Hnin]. apply Hnin. now left.
Qed.

(** A start that rebuilds the table, which the amended claim leaves out,
    sets the counter to the largest id left: after three additions and
    the deletion of record 3, a second run whose PRAGMA table_info fails
    rebuilds the table, and the next addition returns 3 again. *)
Example rebuild_resets_counter_example :
  ids_over [Start; Do (Add movie); Do (Add fuel); Do (Add groceries);
            Do (Delete 3); Exit; Start; Do (Add movie)]
           (boot empty_file [false; false; false; false; false; false;
                             false; false; false; true])
    = [1; 2; 3; 3]%Z /\
  undisturbed [Start; Do (Add movie); Do (Add fuel); Do (Add groceries);
               Do (Delete 3); Exit; Start; Do (Add movie)]
              (boot empty_file [false; false; false; false; false; false;
                                false; false; false; true])
    = false.
Proof. split; reflexivity. Qed.

Lemma stays_consistent_refl (d : Database) : stays_consistent d d.
Proof. now unfold stays_consistent. Qed.

Lemma stays_consistent_trans (a b c : Database) :
  stays_consistent a b -> stays_consistent b c -> stays_consistent a c.
Proof. unfold stays_consistent. auto. Qed.

Lemma recreateTableWithCreatedAt_consistent :
  keeps stays_consistent recreateTableWithCreatedAt.
Proof.
  pose proof stays_consistent_refl as Hr.
  pose proof stays_consistent_trans as Ht.
  unfold recreateTableWithCreatedAt.
  apply keeps_bind; auto; [now apply keeps_this_db|]. intros set.
  destruct (negb set); [now apply keeps_ret|].
  apply keeps_bind; auto; [apply keeps_await; auto; keeps_consistency|].
  intros existingData.
  apply keeps_bind; auto; [apply keeps_await; auto; keeps_consistency|].
  intros _.
  apply keeps_bind; auto; [apply keeps_await; auto; keeps_consistency|].
  intros _.
  apply keeps_bind; auto; [apply keeps_await; auto; keeps_consistency|].
  intros _.
  apply keeps_bind; auto; [apply keeps_await; auto; keeps_consistency|].
  intros _.
  apply keeps_bind; auto.
  - apply keeps_for_of; auto. intros expense.
    apply keeps_bind; auto; [now apply keeps_toISOString|]. intros stamp.
    apply keeps_bind; auto; [|intros _; now apply keeps_ret].
    apply keeps_await; auto. intros d a d'. apply insert_with_id_consistent.
  - intros _.
    apply keeps_bind; auto; [apply keeps_await; auto; keeps_consistency|].
    intros _. now apply keeps_console_log.
Qed.

Lemma initializeDatabase_consistent : keeps stays_consistent initializeDatabase.
Proof.
  pose proof stays_consistent_refl as Hr.
  pose proof stays_consistent_trans as Ht.
  unfold initializeDatabase.
  apply keeps_try_catch; auto.
  - apply keeps_bind; auto; [now apply keeps_open_database|]. intros _.
    apply keeps_bind; auto; [apply keeps_await; auto; keeps_consistency|].
    intros _.
    apply keeps_bind; auto; [|intros _; now apply keeps_console_log].
    unfold ensureCreatedAtColumn.
    apply keeps_bind; auto; [now apply keeps_this_db|]. intros set.
    destruct (negb set); [now apply keeps_ret|].
    apply keeps_try_catch; auto.
    + unfold addColumnInPlace.
      apply keeps_bind; auto; [apply keeps_await; auto; keeps_consistency|].
      intros tableInfo.
      destruct (negb _); [|now apply keeps_ret].
      apply keeps_bind; auto; [now apply keeps_console_log|]. intros _.
      apply keeps_bind; auto; [apply keeps_await; auto; keeps_consistency|].
      intros _.
      apply keeps_bind; auto; [|intros _; now apply keeps_console_log].
      apply keeps_await_at; auto. intros now d a d'.
      apply backfill_created_at_consistent.
    + intros e. unfold recreateFallback.
      apply keeps_bind; auto; [now apply keeps_console_error|]. intros _.
      apply keeps_try_catch; auto.
      * apply keeps_bind; auto; [now apply keeps_console_log|]. intros _.
        apply recreateTableWithCreatedAt_consistent.
      * intros e'. now apply keeps_console_error.
  - intros e. apply keeps_bind; auto; [now apply keeps_console_error|].
    intros _. now apply keeps_throw.
Qed.

Lemma perform_consistent (c : Call) (w : World) :
  stays_consistent (file w) (file (snd (perform c w))).
Proof.
  pose proof stays_consistent_refl as Hr.
  pose proof stays_consistent_trans as Ht.
  destruct c; simpl; unfold world_after;
    try (refine (keeps_method stays_consistent Hr Ht _ _ _ w);
         solve [keeps_consistency
               | intros d a d'; apply update_by_id_consistent
               | intros d a d'; apply delete_by_id_consistent]).
  - assert (H : keeps stays_consistent (addExpense x)).
    { unfold addExpense. apply keeps_guarded, keeps_try_catch; auto.
      - apply keeps_await_at; auto. intros now d a d'.
        apply insert_consistent.
      - intros e. apply keeps_bind; auto; [now apply keeps_console_error|].
        intros _. now apply keeps_throw. }
    specialize (H w). now destruct (addExpense x w) as [[i|e] w'].
  - exact (getExpenseStats_keeps stays_consistent Hr Ht w).
  - unfold resetDatabase.
    refine (keeps_guarded stays_consistent Hr _ _ w).
    apply keeps_try_catch; auto.
    + apply keeps_bind; auto; [apply keeps_await; auto; keeps_consistency|].
      intros _.
      apply keeps_bind; auto; [apply keeps_await; auto; keeps_consistency|].
      intros _. now apply keeps_console_log.
    + intros e. apply keeps_bind; auto; [now apply keeps_console_error|].
      intros _. now apply keeps_throw.
Qed.

(** X10.  The guarantees of the table are kept by everything the service
    does.  If no two rows share an id, no id is above the AUTOINCREMENT
    counter and no amount is NaN, this is still so after
    [initializeDatabase], with its schema repair, and after any history of
    calls of the ten operations: under every pattern of storage failures,
    and whether the calls return or throw. *)
Theorem consistency_is_kept (w : World) :
  consistent (file w) ->
  consistent (file (world_after initializeDatabase w)) /\
  forall cs, consistent (file (run cs w)).
Proof.
  intros Hc. split.
  - now apply (initializeDatabase_consistent w).
  - intros cs. revert w Hc. induction cs as [|c cs IH]; intros w Hc; simpl.
    + exact Hc.
    + apply IH. now apply (perform_consistent c w).
Qed.

Lemma consistency_is_kept_witness :
  consistent legacy_file /\
  consistent
    (file (world_after initializeDatabase
             (boot legacy_file [false; false; false; true]))) /\
  consistent (file upgraded) /\
  consistent (file (run [Add groceries; Delete 1; ResetDb; Add fuel] upgraded)).
Proof.
  assert (Hc : consistent legacy_file).
  { unfold consistent. simpl. repeat split.
    - constructor; [intros [H|[]]; discriminate H|].
      constructor; [intros []|constructor].
    - repeat constructor; discriminate.
    - repeat constructor. }
  split; [exact Hc|].
  split;
    [exact (proj1 (consistency_is_kept
                     (boot legacy_file [false; false; false; true]) Hc))|].
  pose proof (proj1 (consistency_is_kept (boot legacy_file []) Hc)) as Hup.
  split; [exact Hup|].
  exact (proj2 (consistency_is_kept upgraded Hup) _).
Defined.

(* ------------------------------------------------------------------ *)
(** ** Starting up *)

Lemma quiet_after_call (w : World) (f : Database) :
  faults w = [] -> faults (after_call w f) = [].
Proof. intros H. simpl. now rewrite H. Qed.

Lemma await_quiet {A} (stmt : Database -> Result A) (w : World) :
  faults w = [] ->
  await stmt w =
    match stmt (file w) with
    | inl e => (Throw (EngineError e), after_call w (file w))
    | inr (a, f) => (Return a, after_call w f)
    end.
Proof. intros H. unfold await. now rewrite (fails_now_nil w H). Qed.

(** X11.  [initializeDatabase] passes on the failures of its first two
    steps.  When opening the database fails, it logs and rethrows, the
    handle stays unset and the file is as it was; when the open succeeds
    and CREATE TABLE IF NOT EXISTS fails, it logs and rethrows with the
    file as it was, and the handle stays set. *)
Theorem initializeDatabase_passes_on (w : World) (fl : list bool) :
  (faults w = true :: fl ->
   passes_on initializeDatabase "Error initializing database:" io_failure w /\
   db (world_after initializeDatabase w) = db w)
  /\
  (faults w = false :: true :: fl ->
   passes_on initializeDatabase "Error initializing database:" io_failure w /\
   db (world_after initializeDatabase w) = true).
Proof.
  split; intros Hfl;
    unfold passes_on, world_after, initializeDatabase, try_catch, bind,
           open_database, await, fails_now;
    rewrite Hfl; simpl; rewrite ?Hfl; simpl;
    (split; [eexists; repeat split|reflexivity]).
Qed.

Lemma initializeDatabase_passes_on_witness :
  passes_on initializeDatabase "Error initializing database:" io_failure
            (boot legacy_file [true]) /\
  db (world_after initializeDatabase (boot legacy_file [true])) = false /\
  passes_on initializeDatabase "Error initializing database:" io_failure
            (boot legacy_file [false; true]) /\
  db (world_after initializeDatabase (boot legacy_file [false; true])) = true.
Proof.
  destruct (initializeDatabase_passes_on (boot legacy_file [true]) [])
    as [Hopen _].
  destruct (initializeDatabase_passes_on (boot legacy_file [false; true]) [])
    as [_ Hcreate].
  destruct (Hopen eq_refl) as [H1 H2]. destruct (Hcreate eq_refl) as [H3 H4].
  repeat split; assumption.
Defined.

(** X12.  A start that meets no storage failure and finds the table with
    its [created_at] column changes nothing in the file, so starting
    twice is starting once; one that finds no table creates the empty
    one.  Either way it returns normally with the handle set and the
    store operational. *)
Theorem initializeDatabase_idempotent (w : World) :
  faults w = [] ->
  (forall t, expenses (file w) = Some t -> created_at_column t <> Absent ->
     exists w1,
       initializeDatabase w = (Return tt, w1) /\
       file w1 = file w /\ operational w1 t /\
       console w1 = console w ++ [log "Database initialized successfully"])
  /\
  (expenses (file w) = None ->
     exists w1,
       initializeDatabase w = (Return tt, w1) /\
       file w1 = with_table (file w) (Some fresh_table) /\
       operational w1 fresh_table).
Proof.
  destruct w as [set f out fl k clock iso]. simpl. intros ->. split.
  - intros t Ht Hcol.
    unfold initializeDatabase, try_catch, bind, open_database,
           ensureCreatedAtColumn, addColumnInPlace, this_db, bind,
           try_catch, await, fails_now. simpl.
    unfold create_table_if_not_exists. rewrite Ht. simpl.
    unfold table_info. rewrite Ht.
    destruct (created_at_column t) eqn:Ecol; [congruence| |]; simpl;
      (eexists; split; [reflexivity|]; repeat split; simpl; auto).
  - intros Ht.
    unfold initializeDatabase, try_catch, bind, open_database,
           ensureCreatedAtColumn, addColumnInPlace, this_db, bind,
           try_catch, await, fails_now. simpl.
    unfold create_table_if_not_exists. rewrite Ht. simpl.
    eexists. split; [reflexivity|]. repeat split; simpl; auto.
Qed.

Lemma initializeDatabase_idempotent_witness :
  faults started = [] /\
  expenses (file started) = Some fresh_table /\
  faults (boot empty_file []) = [] /\
  (exists w1,
     initializeDatabase started = (Return tt, w1) /\ file w1 = file started) /\
  (exists w1,
     initializeDatabase (boot empty_file []) = (Return tt, w1) /\
     operational w1 fresh_table).
Proof.
  split; [reflexivity|]. split; [reflexivity|]. split; [reflexivity|].
  destruct (initializeDatabase_idempotent started eq_refl) as [Hsame _].
  destruct (initializeDatabase_idempotent (boot empty_file []) eq_refl)
    as [_ Hnew].
  split.
  - destruct (Hsame fresh_table eq_refl ltac:(discriminate))
      as (w1 & Hrun & Hfile & _).
    now exists w1.
  - destruct (Hnew eq_refl) as (w1 & Hrun & _ & Hop).
    now exists w1.
Defined.

Lemma backfill_content (now : text) (r : Expense) :
  content (backfill now r) = content r.
Proof. unfold backfill. now destruct (created_at r). Qed.

Lemma backfill_stamped (now : text) (r : Expense) :
  created_at (backfill now r) <> None.
Proof. unfold backfill. destruct (created_at r) eqn:E; simpl; congruence. Qed.

(** X13.  A start that meets no storage failure and finds a table without
    the [created_at] column repairs it in place and loses nothing: the
    table has the same rows with the same id, title, amount, category,
    date and description, every row has a [created_at], and the counter
    is unchanged.  The column it adds carries no default. *)
Theorem initializeDatabase_repairs_in_place (w : World) (t : Table) :
  faults w = [] ->
  expenses (file w) = Some t -> created_at_column t = Absent ->
  exists w1 rs,
    initializeDatabase w = (Return tt, w1) /\
    operational w1 (mkTable Plain rs) /\
    map content rs = map content (rows t) /\
    Forall (fun r => created_at r <> None) rs /\
    sqlite_sequence (file w1) = sqlite_sequence (file w).
Proof.
  destruct w as [set f out fl k clock iso]. simpl. intros -> Ht Hcol.
  unfold initializeDatabase, try_catch, bind, open_database,
         ensureCreatedAtColumn, addColumnInPlace, this_db, bind,
         try_catch, await_at, await, fails_now, console_log. simpl.
  unfold create_table_if_not_exists. rewrite Ht. simpl.
  unfold table_info. rewrite Ht, Hcol. simpl.
  unfold add_created_at_column. rewrite Ht, Hcol. simpl.
  do 2 eexists. split; [reflexivity|].
  split; [repeat split|].
  split.
  - rewrite map_map. apply map_ext. intros r. apply backfill_content.
  - split; [|reflexivity].
    apply Forall_forall. intros y Hy. apply in_map_iff in Hy as (r & <- & _).
    apply backfill_stamped.
Qed.

Lemma initializeDatabase_repairs_in_place_witness :
  faults (boot legacy_file []) = [] /\
  expenses (file (boot legacy_file [])) = Some (table_of (boot legacy_file [])) /\
  created_at_column (table_of (boot legacy_file [])) = Absent /\
  exists w1 rs,
    initializeDatabase (boot legacy_file []) = (Return tt, w1) /\
    operational w1 (mkTable Plain rs) /\
    map title rs = ["Rent"; "Lunch"].
Proof.
  split; [reflexivity|]. split; [reflexivity|]. split; [reflexivity|].
  destruct (initializeDatabase_repairs_in_place
              (boot legacy_file []) (table_of (boot legacy_file []))
              eq_refl eq_refl eq_refl)
    as (w1 & rs & Hrun & Hop & _).
  exists w1, rs. split; [exact Hrun|]. split; [exact Hop|].
  vm_compute in Hrun. injection Hrun as <-.
  destruct Hop as (_ & _ & Ht). simpl in Ht. now injection Ht as <-.
Defined.

(* ------------------------------------------------------------------ *)
(** ** Reconstruction of the table *)

Lemma max_rowid_nonneg (rs : list Expense) : (0 <= max_rowid rs)%Z.
Proof. induction rs as [|r rs IH]; simpl; lia. Qed.

Lemma lookup_absent (i : Z) (rs : list Expense) :
  ~ In i (map id rs) -> lookup i rs = None.
Proof.
  intros Hnin. destruct (lookup i rs) as [r|] eqn:E; [|reflexivity].
  apply lookup_In in E as [Hin <-]. exfalso. apply Hnin. now apply in_map.
Qed.

Lemma bind_returns {A B} (m : M A) (k : A -> M B) (w w' : World) (a : A) :
  m w = (Return a, w') -> bind m k w = k a w'.
Proof. intros H. unfold bind. now rewrite H. Qed.

Lemma restoreRow_returns (x : Expense) (w : World) (acc : list Expense) :
  faults w = [] ->
  expenses (file w) = Some (mkTable DefaultNow acc) ->
  lookup (id x) acc = None ->
  PrimFloat.is_nan (amount x) = false ->
  restoreRow x w =
    (Return tt,
     after_call w
       (mkDatabase
          (Some (mkTable DefaultNow
                   (insert_row (restored_row x (toISOString_now w (ticks w)))
                               acc)))
          (expenses_backup (file w))
          (Some (Z.max (seq_value (file w)) (id x))))).
Proof.
  intros Hfl Ht Hnew Hnum. unfold restoreRow, bind, toISOString, ret.
  rewrite (await_quiet _ w Hfl). unfold insert_with_id.
  rewrite Ht. simpl. unfold real_value. now rewrite Hnum, Hnew.
Qed.

Lemma restored_row_restored (x : Expense) (stamp : text) :
  restored x (restored_row x stamp).
Proof.
  repeat split; simpl; try discriminate. intros c s ->. reflexivity.
Qed.

(** The loop of [recreateTableWithCreatedAt] over rows with distinct ids,
    none of them in the table yet. *)
Lemma restore_rows (xs : list Expense) :
  forall (w : World) (acc : list Expense),
    faults w = [] ->
    expenses (file w) = Some (mkTable DefaultNow acc) ->
    (0 <= seq_value (file w))%Z ->
    NoDup (map id xs) ->
    (forall x, In x xs -> lookup (id x) acc = None) ->
    Forall (fun r => PrimFloat.is_nan (amount r) = false) xs ->
    exists w1 acc',
      for_of xs restoreRow w = (Return tt, w1) /\
      faults w1 = [] /\ db w1 = db w /\ console w1 = console w /\
      expenses (file w1) = Some (mkTable DefaultNow acc') /\
      expenses_backup (file w1) = expenses_backup (file w) /\
      seq_value (file w1) = Z.max (seq_value (file w)) (max_rowid xs) /\
      Permutation (map id acc') (map id xs ++ map id acc) /\
      forall i,
        (lookup i xs = None -> lookup i acc' = lookup i acc) /\
        (forall r, lookup i xs = Some r ->
                   exists r', lookup i acc' = Some r' /\ restored r r').
Proof.
  induction xs as [|x xs IH]; intros w acc Hfl Ht Hseq Hnd Hnew Hnum.
  - exists w, acc. simpl. unfold ret. repeat split; auto; try discriminate.
    lia.
  - inversion Hnd as [|? ? Hx Hnd']; subst.
    inversion Hnum as [|? ? Hxnum Hnum']; subst.
    pose proof (restoreRow_returns x w acc Hfl Ht
                  (Hnew x (or_introl eq_refl)) Hxnum) as Hstep.
    set (x' := restored_row x (toISOString_now w (ticks w))) in *.
    match type of Hstep with _ = (_, ?v) => set (w' := v) in * end.
    pose proof (restored_row_restored x (toISOString_now w (ticks w)))
      as Hrest. fold x' in Hrest.
    destruct (IH w' (insert_row x' acc)) as
        (w1 & acc' & Hrun & Hfl1 & Hdb1 & Hout1 & Ht1 & Hbk1 & Hseq1
            & Hperm & Hlook); auto.
    + now apply quiet_after_call.
    + subst w'. unfold seq_value. simpl. unfold seq_value in Hseq. lia.
    + intros y Hy. rewrite lookup_insert_row_other; [now apply Hnew; right|].
      subst x'. simpl. intros Heq. apply Hx. rewrite Heq. now apply in_map.
    + exists w1, acc'. simpl for_of.
      rewrite (bind_returns _ _ w w' tt Hstep).
      split; [exact Hrun|]. repeat split; auto.
      * rewrite Hseq1. subst w'. unfold seq_value at 1. simpl. lia.
      * rewrite Hperm, ids_insert_row. subst x'. simpl.
        symmetry. apply Permutation_middle.
      * unfold lookup at 1. simpl. destruct (has_id i x) eqn:Ei;
          [discriminate|]. intros Hnone.
        rewrite (proj1 (Hlook i) Hnone).
        apply (lookup_insert_row_other i x' acc).
        subst x'. simpl. unfold has_id in Ei. now apply Z.eqb_neq.
      * intros r Hr. unfold lookup in Hr. simpl in Hr.
        destruct (has_id i x) eqn:Ei.
        -- inversion Hr; subst r. exists x'. split; [|exact Hrest].
           apply Z.eqb_eq in Ei. subst i.
           rewrite (proj1 (Hlook (id x)) (lookup_absent _ _ Hx)).
           apply (lookup_insert_row x' acc).
           subst x'. simpl. now apply Hnew; left.
        -- now apply (proj2 (Hlook i)).
Qed.

Lemma recreateTableWithCreatedAt_unfolded :
  recreateTableWithCreatedAt =
    (set <- this_db ;;
     if negb set then ret tt else
     existingData <- await select_all ;;
     await drop_backup_if_exists ;;
     await create_backup ;;
     await drop_table ;;
     await create_table ;;
     for_of existingData restoreRow ;;
     await drop_backup_if_exists ;;
     console_log "Table recreated successfully with created_at column").
Proof. reflexivity. Qed.

(** X14.  When it meets no storage failure, [recreateTableWithCreatedAt]
    rebuilds a consistent table without losing a row: the new table has
    [created_at] with its default and exactly the old ids; each row comes
    back with its id, title, amount, category and date, its description
    made a string, and a [created_at] (the old one when it was set); the
    scratch table is dropped.  The AUTOINCREMENT counter is set to the
    largest id of the rows, whatever it was. *)
Theorem recreateTableWithCreatedAt_keeps_rows (w : World) (t : Table) :
  db w = true -> faults w = [] ->
  expenses (file w) = Some t -> consistent (file w) ->
  exists w1 rs,
    recreateTableWithCreatedAt w = (Return tt, w1) /\
    operational w1 (mkTable DefaultNow rs) /\
    expenses_backup (file w1) = None /\
    seq_value (file w1) = max_rowid (rows t) /\
    Permutation (map id rs) (map id (rows t)) /\
    (forall i, lookup i (rows t) = None -> lookup i rs = None) /\
    (forall i r, lookup i (rows t) = Some r ->
                 exists r', lookup i rs = Some r' /\ restored r r').
Proof.
  intros Hdb Hfl Ht Hc. unfold consistent in Hc. rewrite Ht in Hc.
  destruct Hc as (Hnd & _ & Hnum).
  rewrite recreateTableWithCreatedAt_unfolded.
  rewrite (bind_returns this_db _ w w true) by (unfold this_db; now rewrite Hdb).
  cbv beta. change (negb true) with false. cbv iota.
  rewrite (bind_returns _ _ w (after_call w (file w)) (rows t))
    by (rewrite (await_quiet _ w Hfl); unfold select_all; now rewrite Ht).
  cbv beta. set (w1 := after_call w (file w)).
  assert (Hfl1 : faults w1 = []) by now apply quiet_after_call.
  rewrite (bind_returns _ _ w1
             (after_call w1 (mkDatabase (expenses (file w1)) None
                                        (sqlite_sequence (file w1)))) tt)
    by now rewrite (await_quiet _ w1 Hfl1).
  cbv beta.
  match goal with |- context [after_call w1 ?f] => set (w2 := after_call w1 f) end.
  assert (Hfl2 : faults w2 = []) by now apply quiet_after_call.
  rewrite (bind_returns _ _ w2
             (after_call w2 (mkDatabase (expenses (file w2)) (Some (rows t))
                                        (sqlite_sequence (file w2)))) tt)
    by (rewrite (await_quiet _ w2 Hfl2); unfold create_backup; simpl;
        now rewrite Ht).
  cbv beta.
  match goal with |- context [after_call w2 ?f] => set (w3 := after_call w2 f) end.
  assert (Hfl3 : faults w3 = []) by now apply quiet_after_call.
  rewrite (bind_returns _ _ w3
             (after_call w3 (mkDatabase None (expenses_backup (file w3)) None))
             tt)
    by (rewrite (await_quiet _ w3 Hfl3); unfold drop_table; simpl;
        now rewrite Ht).
  cbv beta.
  match goal with |- context [after_call w3 ?f] => set (w4 := after_call w3 f) end.
  assert (Hfl4 : faults w4 = []) by now apply quiet_after_call.
  rewrite (bind_returns _ _ w4
             (after_call w4 (with_table (file w4) (Some fresh_table))) tt)
    by now rewrite (await_quiet _ w4 Hfl4).
  cbv beta.
  match goal with |- context [after_call w4 ?f] => set (w5 := after_call w4 f) end.
  assert (Hfl5 : faults w5 = []) by now apply quiet_after_call.
  destruct (restore_rows (rows t) w5 []) as
      (w6 & rs & Hrun & Hfl6 & Hdb6 & Hout6 & Ht6 & Hbk6 & Hseq6
          & Hperm & Hlook); auto; try reflexivity.
  rewrite (bind_returns _ _ w5 w6 tt Hrun). cbv beta.
  rewrite (bind_returns _ _ w6
             (after_call w6 (mkDatabase (expenses (file w6)) None
                                        (sqlite_sequence (file w6)))) tt)
    by now rewrite (await_quiet _ w6 Hfl6).
  cbv beta.
  unfold console_log.
  eexists. exists rs. split; [reflexivity|].
  split; [unfold operational; simpl; rewrite Hdb6, Hfl6, Ht6; now repeat split|].
  split; [reflexivity|]. split; [|split; [|split]].
  - match goal with |- seq_value ?d = _ =>
      change (seq_value d) with (seq_value (file w6)) end.
    rewrite Hseq6. change (seq_value (file w5)) with 0%Z.
    pose proof (max_rowid_nonneg (rows t)). lia.
  - now rewrite Hperm, app_nil_r.
  - intros i Hnone. now rewrite (proj1 (Hlook i) Hnone).
  - intros i r Hr. now apply (proj2 (Hlook i)).
Qed.

Lemma legacy_file_consistent : consistent legacy_file.
Proof.
  unfold consistent. simpl. repeat split.
  - constructor; [intros [H|[]]; discriminate H|].
    constructor; [intros []|constructor].
  - repeat constructor; discriminate.
  - repeat constructor.
Qed.

Lemma recreateTableWithCreatedAt_keeps_rows_witness :
  consistent (file (opened legacy_file [])) /\
  exists w1 rs,
    recreateTableWithCreatedAt (opened legacy_file []) = (Return tt, w1) /\
    operational w1 (mkTable DefaultNow rs) /\
    Permutation (map id rs) [1; 2]%Z.
Proof.
  assert (Hc : consistent (file (opened legacy_file []))).
  { unfold consistent. simpl. repeat split.
    - constructor; [intros [H|[]]; discriminate H|].
      constructor; [intros []|constructor].
    - repeat constructor; discriminate.
    - repeat constructor. }
  split; [exact Hc|].
  destruct (recreateTableWithCreatedAt_keeps_rows
              (opened legacy_file []) (table_of (opened legacy_file []))
              eq_refl eq_refl eq_refl Hc)
    as (w1 & rs & Hrun & Hop & _ & _ & Hperm & _).
  now exists w1, rs.
Defined.

Lemma initializeDatabase_creates (w : World) :
  faults w = [] -> expenses (file w) = None ->
  exists w1,
    initializeDatabase w = (Return tt, w1) /\
    file w1 = with_table (file w) (Some fresh_table).
Proof.
  destruct w as [set f out fl k clock iso]. simpl. intros -> Ht.
  unfold initializeDatabase, try_catch, bind, open_database,
         ensureCreatedAtColumn, addColumnInPlace, this_db, bind,
         try_catch, await, fails_now. simpl.
  unfold create_table_if_not_exists. rewrite Ht. simpl.
  eexists. split; reflexivity.
Qed.

(** X15.  [recreateTableWithCreatedAt] is not atomic.  When the storage
    layer fails right after DROP TABLE expenses, the method throws with
    the [expenses] table and its counter gone and the rows held by the
    scratch table [expenses_backup] only.  No later start brings them
    back: the next one, meeting no failure, creates an empty [expenses]
    table and leaves [expenses_backup] as it is. *)
Theorem recreateTableWithCreatedAt_interrupted (w : World) (t : Table) :
  db w = true -> expenses (file w) = Some t ->
  faults w = [false; false; false; false; true] ->
  exists w1,
    recreateTableWithCreatedAt w = (Throw io_failure, w1) /\
    expenses (file w1) = None /\
    sqlite_sequence (file w1) = None /\
    expenses_backup (file w1) = Some (rows t) /\
    exists w2,
      initializeDatabase w1 = (Return tt, w2) /\
      expenses (file w2) = Some fresh_table /\
      expenses_backup (file w2) = Some (rows t).
Proof.
  destruct w as [set f out fl k clock iso]. simpl. intros -> Ht ->.
  unfold recreateTableWithCreatedAt, bind, this_db, await, fails_now. simpl.
  unfold select_all, create_backup, drop_table.
  rewrite Ht. simpl. rewrite ?Ht. simpl.
  eexists. split; [reflexivity|]. simpl.
  split; [reflexivity|]. split; [reflexivity|]. split; [reflexivity|].
  match goal with |- context [initializeDatabase ?v] =>
    destruct (initializeDatabase_creates v eq_refl eq_refl) as (w2 & Hrun & Hfile)
  end.
  exists w2. split; [exact Hrun|]. now rewrite Hfile.
Qed.

Lemma recreateTableWithCreatedAt_interrupted_witness :
  exists w1,
    recreateTableWithCreatedAt
      (opened (file scenario) [false; false; false; false; true])
    = (Throw io_failure, w1) /\
    expenses (file w1) = None /\
    option_map (map title) (expenses_backup (file w1))
    = Some ["Movie Tickets"; "Gas Station"; "Grocery Shopping"].
Proof.
  destruct (recreateTableWithCreatedAt_interrupted
              (opened (file scenario) [false; false; false; false; true])
              (table_of scenario) eq_refl eq_refl eq_refl)
    as (w1 & Hrun & Hgone & _ & Hbackup & _).
  exists w1. split; [exact Hrun|]. split; [exact Hgone|].
  now rewrite Hbackup.
Defined.
Lemma initializeDatabase_finds_column (w : World) (t : Table) :
  faults w = [] -> expenses (file w) = Some t ->
  created_at_column t <> Absent ->
  exists w1,
    initializeDatabase w = (Return tt, w1) /\
    file w1 = file w /\ operational w1 t.
Proof.
  destruct w as [set f out fl k clock iso]. simpl. intros -> Ht Hcol.
  unfold initializeDatabase, try_catch, bind, open_database,
         ensureCreatedAtColumn, addColumnInPlace, this_db, bind,
         try_catch, await, fails_now. simpl.
  unfold create_table_if_not_exists. rewrite Ht. simpl.
  unfold table_info. rewrite Ht.
  destruct (created_at_column t) eqn:Ecol; [congruence| |]; simpl;
    (eexists; split; [reflexivity|]; repeat split; simpl; auto).
Qed.

(** X16.  A record added to a table that got its [created_at] column in
    place (by ALTER TABLE, which declares no default) has no creation
    time, and never gets one: [addExpense] stores NULL there, and a later
    start, which finds the column, fills nothing in, so that
    [getExpenseById] still returns the record with [created_at] null. *)
Theorem created_at_stays_null (w : World) (t : Table) (x : NewExpense) :
  operational w t -> created_at_column t = Plain ->
  valid x -> has_room w t ->
  exists i w1 w2 w3 r,
    addExpense x w = (Return i, w1) /\
    initializeDatabase w1 = (Return tt, w2) /\
    getExpenseById i w2 = (Return (Some r), w3) /\
    id r = i /\ title r = n_title x /\ created_at r = None.
Proof.
  intros Hop Hcol Hv Hroom. pose proof Hop as (Hdb & Hfl & Ht).
  pose proof (addExpense_operational w t Hop x Hv Hroom) as E.
  set (t1 := mkTable (created_at_column t)
                     (insert_row (added_row w t x) (rows t))) in *.
  assert (Hop1 : operational
                   (after_call w
                      (mkDatabase (Some t1) (expenses_backup (file w))
                                  (Some (last_rowid (file w) t + 1)%Z))) t1)
    by (now apply (operational_after_call w t)).
  destruct (initializeDatabase_finds_column _ t1 (proj1 (proj2 Hop1))
              (proj2 (proj2 Hop1)))
    as (w2 & Ei & Hf & Hop2).
  { unfold t1. simpl. rewrite Hcol. discriminate. }
  pose proof (getExpenseById_operational w2 t1 Hop2
                (last_rowid (file w) t + 1)%Z) as Eg.
  assert (El : lookup (last_rowid (file w) t + 1)%Z (rows t1)
               = Some (added_row w t x)).
  { unfold t1. simpl rows.
    apply (lookup_insert_row (added_row w t x)).
    apply lookup_above. simpl. unfold last_rowid. lia. }
  rewrite El in Eg.
  do 5 eexists. split; [exact E|]. split; [exact Ei|]. split; [exact Eg|].
  unfold added_row. simpl. rewrite Hcol. auto.
Qed.

(** On the upgraded installation the fuel gets id 3 and no creation
    time. *)
Lemma created_at_stays_null_witness :
  operational upgraded (table_of upgraded) /\
  exists i w1 w2 w3 r,
    addExpense fuel upgraded = (Return i, w1) /\
    initializeDatabase w1 = (Return tt, w2) /\
    getExpenseById i w2 = (Return (Some r), w3) /\
    id r = i /\ title r = n_title fuel /\ created_at r = None.
Proof.
  assert (H : operational upgraded (table_of upgraded)) by (repeat split).
  split; [exact H|].
  apply (created_at_stays_null upgraded (table_of upgraded) fuel H).
  - reflexivity.
  - exact valid_fuel.
  - now vm_compute.
Defined.



(* ================================================================== *)
(** * The mediator and the screens *)

Import AppContext Screens.

(* ------------------------------------------------------------------ *)
(** ** Loading the list *)

(** [getAllExpenses] returns the ordered rows after one engine call, or
    throws an error whose message does not name a missing [created_at]
    column, without a change of the file. *)
Lemma getAllExpenses_outcomes (w : World) :
  (exists l, getAllExpenses w = (Return l, after_call w (file w))) \/
  (exists e w', getAllExpenses w = (Throw e, w') /\
                file w' = file w /\ db w' = db w /\
                includes (message e) "no such column: created_at" = false).
Proof.
  unfold getAllExpenses, guarded, bind, this_db, try_catch, await,
    select_all_ordered, throw.
  destruct (db w) eqn:Hdb; simpl.
  - destruct (fails_now w).
    + right. do 2 eexists. split; [reflexivity|]. now simpl.
    + destruct (expenses (file w)) as [t|].
      * left. eexists. reflexivity.
      * right. do 2 eexists. split; [reflexivity|]. now simpl.
  - right. do 2 eexists. split; [reflexivity|]. now simpl.
Qed.

(** So [loadExpenses] takes one of two ways, and never the recovery. *)
Lemma loadExpenses_outcomes (s : AppState) (w : World) :
  (exists l,
     getAllExpenses w = (Return l, after_call w (file w)) /\
     loadExpenses s w =
       (Return tt,
        mkApp l (st_settings s) (st_loading s) (st_isAuthenticated s),
        after_call w (file w))) \/
  (exists e w1 w2,
     getAllExpenses w = (Throw e, w1) /\
     loadExpenses s w = (Return tt, s, w2) /\
     file w2 = file w /\ db w2 = db w).
Proof.
  destruct (getAllExpenses_outcomes w) as [(l & E)|(e & w1 & E & Hf & Hd & Hm)].
  - left. exists l. split; [exact E|].
    unfold loadExpenses, ctry_catch, cbind, call, setExpenses. now rewrite E.
  - right. exists e, w1. eexists. split; [exact E|].
    unfold loadExpenses, ctry_catch, cbind, call, setExpenses, cret.
    rewrite E, Hm. simpl. split; [reflexivity|]. now simpl.
Qed.

(** X17.  [loadExpenses] of the provider never throws and never resets the
    database: whatever the state of the store, it returns, the file is as
    before, and the list is either the one [getAllExpenses] returned or,
    when that call failed, the list as it was.  The recovery that resets
    the database on the message "no such column: created_at" is never
    taken, since [getAllExpenses] cannot fail with that message. *)
Theorem loadExpenses_never_throws (s : AppState) (w : World) :
  exists s' w',
    loadExpenses s w = (Return tt, s', w') /\
    file w' = file w /\
    st_settings s' = st_settings s /\
    st_isAuthenticated s' = st_isAuthenticated s /\
    match fst (getAllExpenses w) with
    | Return l => st_expenses s' = l
    | Throw _ => s' = s
    end.
Proof.
  destruct (loadExpenses_outcomes s w)
    as [(l & E & El)|(e & w1 & w2 & E & El & Hf & _)].
  - do 2 eexists. split; [exact El|]. rewrite E. simpl. auto.
  - exists s, w2. split; [exact El|]. rewrite E. simpl. auto.
Qed.

(* ------------------------------------------------------------------ *)
(** ** Writing through the provider *)

(** A write of the service that succeeds and leaves the store
    operational, followed by the refresh: the provider returns, and its
    list is the table in the order of [getAllExpenses]. *)
Lemma write_then_refresh {A} (m : M A) (msg : string)
      (s : AppState) (w w1 : World) (a : A) (t1 : Table) :
  m w = (Return a, w1) -> operational w1 t1 ->
  exists s' w',
    ctry_catch (cbind (call m) (fun _ => refreshExpenses))
               (fun e => cbind (call (console_error msg e))
                               (fun _ => cthrow e)) s w
      = (Return tt, s', w') /\
    st_expenses s' = order_by date_desc_id_desc (rows t1) /\
    file w' = file w1 /\
    in_sync s' w'.
Proof.
  intros E Hop.
  pose proof (getAllExpenses_operational w1 t1 Hop) as Eg.
  assert (Hop' : operational (after_call w1 (file w1)) t1)
    by (apply (operational_after_call w1 t1 t1); [exact Hop|apply Hop]).
  do 2 eexists. split; [|split; [|split]].
  - unfold ctry_catch, cbind, call, refreshExpenses, loadExpenses, setExpenses.
    rewrite E. unfold ctry_catch, cbind, call. rewrite Eg. reflexivity.
  - reflexivity.
  - reflexivity.
  - unfold in_sync. now rewrite (getAllExpenses_operational _ t1 Hop').
Qed.

Lemma write_then_refresh_call {A} (m : M A) (msg : string)
      (s : AppState) (w : World) (t : Table) (f : Database) (a : A)
      (t1 : Table) :
  operational w t -> m w = (Return a, after_call w f) ->
  expenses f = Some t1 ->
  exists s' w',
    ctry_catch (cbind (call m) (fun _ => refreshExpenses))
               (fun e => cbind (call (console_error msg e))
                               (fun _ => cthrow e)) s w
      = (Return tt, s', w') /\
    st_expenses s' = order_by date_desc_id_desc (rows t1) /\
    file w' = f /\
    in_sync s' w'.
Proof.
  intros Hop E Hf.
  apply (write_then_refresh m msg s w _ a t1 E).
  now apply (operational_after_call w t).
Qed.

(** X18.  On an operational store the provider keeps its list in step
    with the table: after [addExpense] (of a valid expense, while a rowid
    is left), [updateExpense] (of a valid expense), [deleteExpense] and
    [resetDatabase] of the provider, which all return normally, the list
    [expenses] is exactly what [getAllExpenses] of the service returns
    now; it contains the record just added, no record of the id just
    deleted, and nothing after a reset. *)
Theorem provider_list_in_step (s : AppState) (w : World) (t : Table) :
  operational w t ->
  (forall x, valid x -> has_room w t ->
     exists s' w',
       AppContext.addExpense x s w = (Return tt, s', w') /\
       in_sync s' w' /\ In (added_row w t x) (st_expenses s')) /\
  (forall i x, valid x ->
     exists s' w',
       AppContext.updateExpense i x s w = (Return tt, s', w') /\
       in_sync s' w') /\
  (forall i,
     exists s' w',
       AppContext.deleteExpense i s w = (Return tt, s', w') /\
       in_sync s' w' /\
       forall r, In r (st_expenses s') -> id r <> i) /\
  (exists s' w',
     AppContext.resetDatabase s w = (Return tt, s', w') /\
     in_sync s' w' /\ st_expenses s' = []).
Proof.
  intros Hop. pose proof Hop as (Hdb & Hfl & Ht).
  split; [|split; [|split]].
  - intros x Hv Hroom.
    pose proof (addExpense_operational w t Hop x Hv Hroom) as E.
    destruct (write_then_refresh_call _ "Error adding expense:" s _ _ _ _ _
                Hop E eq_refl) as (s' & w' & Er & Hl & _ & Hs).
    exists s', w'. split; [exact Er|]. split; [exact Hs|].
    rewrite Hl. apply In_order_by. simpl. apply In_insert_row. now left.
  - intros i x Hv.
    pose proof (updateExpense_operational w t Hop i x Hv) as E.
    destruct (lookup i (rows t)) eqn:El.
    + destruct (write_then_refresh_call _ "Error updating expense:" s _ _ _ _ _
                  Hop E eq_refl) as (s' & w' & Er & _ & _ & Hs).
      exists s', w'. now split.
    + destruct (write_then_refresh_call _ "Error updating expense:" s _ _ _ _ _
                  Hop E Ht) as (s' & w' & Er & _ & _ & Hs).
      exists s', w'. now split.
  - intros i.
    pose proof (deleteExpense_operational w t Hop i) as E.
    destruct (write_then_refresh_call _ "Error deleting expense:" s _ _ _ _ _
                Hop E eq_refl) as (s' & w' & Er & Hl & _ & Hs).
    exists s', w'. split; [exact Er|]. split; [exact Hs|].
    intros r Hr. rewrite Hl in Hr. apply In_order_by in Hr. simpl in Hr.
    apply filter_In in Hr. destruct Hr as [_ Hr].
    unfold has_id in Hr. intros Heq.
    rewrite Heq, Z.eqb_refl in Hr. discriminate.
  - destruct (resetDatabase_operational w t Hop) as (w1 & E & Hop1 & _).
    destruct (write_then_refresh _ "Error resetting database:" s _ _ _ _ E Hop1)
      as (s' & w' & Er & Hl & _ & Hs).
    exists s', w'. split; [exact Er|]. split; [exact Hs|].
    rewrite Hl. reflexivity.
Qed.

(** On the store with the groceries: deleting record 1 through the
    provider empties its list too. *)
Lemma provider_list_in_step_witness :
  operational stocked (table_of stocked) /\
  exists s' w',
    AppContext.deleteExpense 1 initial_state stocked = (Return tt, s', w') /\
    in_sync s' w' /\
    forall r, In r (st_expenses s') -> id r <> 1%Z.
Proof.
  assert (H : operational stocked (table_of stocked)) by (repeat split).
  split; [exact H|].
  exact (proj1 (proj2 (proj2
           (provider_list_in_step initial_state stocked _ H))) 1%Z).
Defined.

(** A call of the service that throws: the provider logs the error and
    throws it again, and its list is not refreshed. *)
Lemma write_rethrown {A} (m : M A) (msg : string)
      (s : AppState) (w w1 : World) (e : Exception) :
  m w = (Throw e, w1) ->
  ctry_catch (cbind (call m) (fun _ => refreshExpenses))
             (fun e => cbind (call (console_error msg e))
                             (fun _ => cthrow e)) s w
    = (Throw e, s,
       mkWorld (db w1) (file w1) (console w1 ++ [error msg e]) (faults w1)
               (ticks w1) (datetime_now w1) (toISOString_now w1)).
Proof.
  intros E. unfold ctry_catch, cbind, call, console_error, cthrow.
  now rewrite E.
Qed.

(** X19.  A failure of the service in [addExpense], [updateExpense],
    [deleteExpense] or [resetDatabase] of the provider reaches the
    caller: the provider throws the same error, leaves its state (the
    list included) as it was, and its only trace is one more line on the
    console after those of the service. *)
Theorem provider_passes_failure_on (s : AppState) (w w1 : World)
        (e : Exception) :
  (forall x, Service.addExpense x w = (Throw e, w1) ->
     AppContext.addExpense x s w
       = (Throw e, s, snd (console_error "Error adding expense:" e w1))) /\
  (forall i x, Service.updateExpense i x w = (Throw e, w1) ->
     AppContext.updateExpense i x s w
       = (Throw e, s, snd (console_error "Error updating expense:" e w1))) /\
  (forall i, Service.deleteExpense i w = (Throw e, w1) ->
     AppContext.deleteExpense i s w
       = (Throw e, s, snd (console_error "Error deleting expense:" e w1))) /\
  (Service.resetDatabase w = (Throw e, w1) ->
     AppContext.resetDatabase s w
       = (Throw e, s, snd (console_error "Error resetting database:" e w1))).
Proof.
  repeat split; intros; now apply write_rethrown.
Qed.

(** Before the store is initialized, deleting through the provider throws
    the error of the guard. *)
Lemma provider_passes_failure_on_witness :
  Service.deleteExpense 1 cold = (Throw NotInitialized, cold) /\
  AppContext.deleteExpense 1 initial_state cold
    = (Throw NotInitialized, initial_state,
       snd (console_error "Error deleting expense:" NotInitialized cold)).
Proof.
  split; [reflexivity|].
  apply (proj1 (proj2 (proj2
           (provider_passes_failure_on initial_state cold cold
              NotInitialized)))).
  reflexivity.
Defined.

(* ------------------------------------------------------------------ *)
(** ** Searching through the provider *)

(** X20.  [searchExpenses] of the provider never throws and changes
    neither the state of the provider nor the file: it returns what the
    service returns, and the empty list when the service throws, so that
    a failed search looks like a search without a match. *)
Theorem provider_search_never_throws (q : text) (s : AppState) (w : World) :
  exists l w',
    AppContext.searchExpenses q s w = (Return l, s, w') /\
    file w' = file w /\
    match fst (Service.searchExpenses q w) with
    | Return l' => l = l'
    | Throw _ => l = []
    end.
Proof.
  unfold AppContext.searchExpenses, ctry_catch, call, cbind, cret,
    console_error.
  unfold Service.searchExpenses, guarded, bind, this_db, try_catch, await,
    select_like, throw, console_error.
  destruct (db w); simpl.
  - destruct (fails_now w); simpl.
    + do 2 eexists. split; [reflexivity|]. now simpl.
    + destruct (expenses (file w)) as [t|]; simpl;
        [destruct (too_complex _ && negb (no_row (rows t)))%bool; simpl|];
        do 2 eexists; (split; [reflexivity|]); now simpl.
  - do 2 eexists. split; [reflexivity|]. now simpl.
Qed.

(* ------------------------------------------------------------------ *)
(** ** Starting and unlocking *)

(** X21.  [authenticate] refuses nobody and never fails: in every state
    of the provider and of the store, even one that is not initialized or
    whose storage fails, it returns [true] and marks the user as
    authenticated, and leaves the file as it was. *)
Theorem authenticate_always_grants (s : AppState) (w : World) :
  exists s' w',
    authenticate s w = (Return true, s', w') /\
    st_isAuthenticated s' = true /\
    file w' = file w.
Proof.
  unfold authenticate, cbind, setIsAuthenticated, cret.
  destruct (loadExpenses_outcomes
              (mkApp (st_expenses s) (st_settings s) (st_loading s) true) w)
    as [(l & _ & El)|(e & w1 & w2 & _ & El & Hf & _)]; rewrite El.
  - do 2 eexists. split; [reflexivity|]. now simpl.
  - do 2 eexists. split; [reflexivity|]. now simpl.
Qed.

(** X22.  [initializeApp] never throws and always ends the loading state,
    whatever the settings service does (return settings or throw).  If
    the start of the database fails, the provider stays as it was apart
    from [loading]: not a record is loaded and the authentication flag is
    untouched. *)
Theorem initializeApp_ends_loading (getSettings : M AppSettings)
        (s : AppState) (w : World) :
  exists s' w',
    initializeApp getSettings s w = (Return tt, s', w') /\
    st_loading s' = false /\
    (forall e w1, initializeDatabase w = (Throw e, w1) ->
       s' = mkApp (st_expenses s) (st_settings s) false
                  (st_isAuthenticated s)).
Proof.
  unfold initializeApp, ctry_finally, ctry_catch, cbind, call, setLoading,
    setSettings, setIsAuthenticated, console_error.
  destruct (initializeDatabase w) as [[[]|e] w1] eqn:Ei.
  - destruct (getSettings w1) as [[v|e] w2].
    + destruct (pinEnabled v || biometricEnabled v)%bool.
      * do 2 eexists. split; [reflexivity|]. split; [reflexivity|].
        intros e w' H. discriminate.
      * cbn [st_expenses st_settings st_loading st_isAuthenticated].
        destruct (loadExpenses_outcomes
                    (mkApp (st_expenses s) v true true) w2)
          as [(l & _ & El)|(e & w3 & w4 & _ & El & _)]; rewrite El;
          do 2 eexists; (split; [reflexivity|]); (split; [reflexivity|]);
          intros e' w' H; discriminate.
    + do 2 eexists. split; [reflexivity|]. split; [reflexivity|].
      intros e' w' H. discriminate.
  - do 2 eexists. split; [reflexivity|]. split; [reflexivity|].
    intros e' w' H. reflexivity.
Qed.

(* ------------------------------------------------------------------ *)
(** ** The settings screen *)

(** X23.  [confirmClearData] of the settings screen empties the table
    behind the back of the provider: on an operational store it reports
    success and the table has no row left, while the state of the
    provider is untouched, so that a list that showed records still shows
    them and no longer agrees with [getAllExpenses]. *)
Theorem confirmClearData_leaves_list (s : AppState) (w : World) (t : Table) :
  operational w t -> st_expenses s <> [] ->
  exists w',
    confirmClearData s w
      = (Return ("Success", "All data has been cleared"), s, w') /\
    rows (table_of w') = [] /\
    ~ in_sync s w'.
Proof.
  intros Hop Hne.
  pose proof (clearAllData_operational w t Hop) as E.
  eexists. split; [|split].
  - unfold confirmClearData, ctry_catch, cbind, call, cret. rewrite E.
    reflexivity.
  - reflexivity.
  - unfold in_sync.
    rewrite (getAllExpenses_operational _ (mkTable (created_at_column t) []));
      [|now apply (operational_after_call w t)].
    simpl. intros H. inversion H. now apply Hne.
Qed.

(** The provider shows the groceries; after the screen cleared the data
    it still does. *)
Lemma confirmClearData_leaves_list_witness :
  operational stocked (table_of stocked) /\
  exists w',
    confirmClearData
      (mkApp [stored_groceries] (st_settings initial_state) false true) stocked
      = (Return ("Success", "All data has been cleared"),
         mkApp [stored_groceries] (st_settings initial_state) false true, w') /\
    rows (table_of w') = [] /\
    ~ in_sync (mkApp [stored_groceries] (st_settings initial_state) false true)
              w'.
Proof.
  assert (H : operational stocked (table_of stocked)) by (repeat split).
  split; [exact H|].
  apply (confirmClearData_leaves_list _ stocked _ H). discriminate.
Defined.

(* ------------------------------------------------------------------ *)
(** ** The list screen *)

Lemma nonempty_false (s : text) : nonempty s = false -> s = "".
Proof. now destruct s. Qed.

Lemma nonempty_true (s : text) : nonempty s = true -> s <> "".
Proof. now destruct s. Qed.

(** A search of the service leaves the file as it is. *)
Lemma searchExpenses_file (q : text) (w : World) :
  file (snd (Service.searchExpenses q w)) = file w.
Proof.
  unfold Service.searchExpenses, guarded, bind, this_db, try_catch, await,
    throw, console_error, select_like.
  destruct (db w); simpl; [|reflexivity].
  destruct (fails_now w); simpl; [reflexivity|].
  destruct (expenses (file w)) as [t|]; [|reflexivity].
  destruct (too_complex _ && negb (no_row (rows t)))%bool; reflexivity.
Qed.

(** Whether the pattern of a query is refused on a table. *)
Lemma refused_iff (q : text) (rs : list Expense) :
  (too_complex ("%" ++ q ++ "%")%string && negb (no_row rs))%bool = true <->
  (MAX_QUERY_LENGTH < utf8_length q)%Z /\ rs <> [].
Proof.
  rewrite andb_true_iff, negb_true_iff. split.
  - intros [Hc Hr]. split.
    + destruct (Z.le_gt_cases (utf8_length q) MAX_QUERY_LENGTH) as [H|H];
        [|exact H].
      rewrite (short_query q H) in Hc. discriminate.
    + intros ->. discriminate.
  - intros [Hc Hr]. split; [now apply long_query|].
    destruct rs; [contradiction|reflexivity].
Qed.

(** X24.  [handleSearch] of the list screen never throws and changes
    neither the provider nor the file.  For a query that is blank after
    trimming it shows the list of the provider without a call of the
    store.  For any other query, on an operational store, it shows the
    rows that match the query as typed, blanks around it included, newest
    date first, as long as the query has at most 49998 bytes of UTF-8 or
    the table is empty; for a longer query on a table with rows LIKE
    refuses the pattern and the screen shows nothing, whatever the rows
    hold. *)
Theorem handleSearch_shows (q : text) (s : AppState) (w : World) :
  exists l w',
    handleSearch q s w = (Return l, s, w') /\
    file w' = file w /\
    (trim q = "" -> l = st_expenses s /\ w' = w) /\
    (forall t, trim q <> "" -> operational w t ->
       ((utf8_length q <= MAX_QUERY_LENGTH)%Z \/ rows t = [] ->
        l = order_by date_desc
              (filter (matches ("%" ++ q ++ "%")%string) (rows t))) /\
       ((MAX_QUERY_LENGTH < utf8_length q)%Z -> rows t <> [] -> l = [])).
Proof.
  unfold handleSearch. destruct (nonempty (trim q)) eqn:En.
  - apply nonempty_true in En.
    unfold AppContext.searchExpenses, ctry_catch, call, cbind, cret.
    pose proof (searchExpenses_file q w) as Hf.
    destruct (Service.searchExpenses q w) as [[l|e] w1] eqn:E.
    + exists l, w1. split; [reflexivity|]. split; [exact Hf|]. split.
      * intros H. contradiction.
      * intros t _ Hop.
        destruct (too_complex ("%" ++ q ++ "%")%string
                  && negb (no_row (rows t)))%bool eqn:Eb.
        -- rewrite (searchExpenses_too_complex w t Hop q Eb) in E.
           discriminate.
        -- rewrite (searchExpenses_operational w t Hop q Eb) in E.
           inversion E; subst. split; [reflexivity|].
           intros Hlong Hne.
           assert (Hb : (too_complex ("%" ++ q ++ "%")%string
                         && negb (no_row (rows t)))%bool = true)
             by (now apply refused_iff).
           rewrite Hb in Eb. discriminate.
    + eexists [], _. split; [reflexivity|]. split; [exact Hf|]. split.
      * intros H. contradiction.
      * intros t _ Hop.
        destruct (too_complex ("%" ++ q ++ "%")%string
                  && negb (no_row (rows t)))%bool eqn:Eb.
        -- apply refused_iff in Eb as [Hlong Hne]. split; [|reflexivity].
           intros [Hshort|Hnil]; [lia|contradiction].
        -- rewrite (searchExpenses_operational w t Hop q Eb) in E.
           discriminate.
  - apply nonempty_false in En.
    exists (st_expenses s), w. split; [reflexivity|]. split; [reflexivity|].
    split; [now intros _|]. intros t H. contradiction.
Qed.

(* ------------------------------------------------------------------ *)
(** ** The form of the add screen *)

(** A number that is not NaN and not at most zero is positive. *)
Lemma not_le_positive (a : float) :
  PrimFloat.is_nan a = false -> (a <=? 0)%float = false ->
  (0 <? a)%float = true.
Proof.
  unfold PrimFloat.is_nan.
  rewrite FloatAxioms.eqb_spec, FloatAxioms.leb_spec, FloatAxioms.ltb_spec.
  unfold SFeqb, SFleb, SFltb.
  change (Prim2SF 0) with (S754_zero false).
  destruct (Prim2SF a) as [ [|] | [|] | | [|] m e]; simpl;
    try discriminate; try reflexivity.
Qed.

Lemma positive_not_le (a : float) :
  (0 <? a)%float = true -> (a <=? 0)%float = false.
Proof.
  rewrite FloatAxioms.leb_spec, FloatAxioms.ltb_spec.
  unfold SFleb, SFltb.
  change (Prim2SF 0) with (S754_zero false).
  destruct (Prim2SF a) as [ [|] | [|] | | [|] m e]; simpl;
    try discriminate; try reflexivity.
Qed.

Section AddForm.
Variable parseFloat : text -> float.
Variable toISOString_of : Z -> text.

(** X25.  [validateForm] of the add screen accepts exactly the forms whose
    title and amount are not blank, whose amount parses to a positive
    number (so neither NaN nor zero nor a negative number), whose
    category is chosen and whose date is not after the present moment. *)
Theorem validateForm_accepts (now : Z) (f : Form) :
  validateForm parseFloat now f = true <->
  trim (f_title f) <> "" /\ trim (f_amount f) <> "" /\
  (0 <? parseFloat (f_amount f))%float = true /\
  f_category f <> "" /\ (f_date f <= now)%Z.
Proof.
  unfold validateForm, newErrors. split.
  - destruct (nonempty (trim (f_title f))) eqn:E1; [|discriminate].
    destruct (nonempty (trim (f_amount f))) eqn:E2; [|discriminate].
    destruct (PrimFloat.is_nan (parseFloat (f_amount f))) eqn:E3;
      [discriminate|].
    destruct (parseFloat (f_amount f) <=? 0)%float eqn:E4; [discriminate|].
    destruct (nonempty (f_category f)) eqn:E5; [|discriminate].
    destruct (now <? f_date f)%Z eqn:E6; [discriminate|].
    intros _. repeat split; try now apply nonempty_true.
    + now apply not_le_positive.
    + lia.
  - intros (H1 & H2 & H3 & H4 & H5).
    destruct (trim (f_title f)); [contradiction|].
    destruct (trim (f_amount f)); [contradiction|].
    rewrite (positive_not_nan _ H3), (positive_not_le _ H3).
    destruct (f_category f); [contradiction|].
    destruct (Z.ltb_spec now (f_date f)); [lia|]. reflexivity.
Qed.

(** What a validated form submits is a valid input of the store. *)
Lemma newExpense_valid (now : Z) (f : Form) :
  validateForm parseFloat now f = true ->
  valid (newExpense parseFloat toISOString_of f).
Proof.
  unfold validateForm, newErrors.
  destruct (nonempty (trim (f_title f))) eqn:E1; [|discriminate].
  destruct (nonempty (trim (f_amount f))) eqn:E2; [|discriminate].
  destruct (PrimFloat.is_nan (parseFloat (f_amount f))) eqn:E3;
    [discriminate|].
  destruct (parseFloat (f_amount f) <=? 0)%float eqn:E4; [discriminate|].
  intros _. split; simpl.
  - now apply nonempty_true.
  - now apply not_le_positive.
Qed.

(** [handleSave] never throws: a failure of the provider ends in the
    error alert. *)
Lemma handleSave_returns (now : Z) (f : Form) (s : AppState) (w : World) :
  exists a s' w',
    handleSave parseFloat toISOString_of now f s w = (Return a, s', w').
Proof.
  unfold handleSave.
  destruct (validateForm parseFloat now f); simpl.
  - unfold ctry_catch, cbind, cret, call, console_error.
    destruct (AppContext.addExpense _ s w) as [[[[]|e] s1] w1];
      do 3 eexists; reflexivity.
  - do 3 eexists. reflexivity.
Qed.

(** X26.  [handleSave] of the add screen, end to end.  It never throws.
    A form that fails the validation changes nothing and shows no alert.
    A form that passes it, on an operational store with a rowid left, is
    stored: the success alert is shown, the record, with the title and
    the description trimmed and the date cut at the letter T of the ISO
    text, is in the list of the provider under the next rowid, and the
    list agrees with [getAllExpenses]. *)
Theorem handleSave_stores (now : Z) (f : Form) (s : AppState) (w : World)
        (t : Table) :
  (exists a s' w',
     handleSave parseFloat toISOString_of now f s w = (Return a, s', w')) /\
  (validateForm parseFloat now f = false ->
     handleSave parseFloat toISOString_of now f s w = (Return None, s, w)) /\
  (validateForm parseFloat now f = true ->
   operational w t -> has_room w t ->
     exists s' w',
       handleSave parseFloat toISOString_of now f s w
         = (Return (Some ("Success", "Expense added successfully!")), s', w') /\
       in_sync s' w' /\
       In (mkExpense (last_rowid (file w) t + 1)
                     (trim (f_title f)) (parseFloat (f_amount f))
                     (f_category f) (before_T (toISOString_of (f_date f)))
                     (Some (trim (f_description f)))
                     (match created_at_column t with
                      | DefaultNow => Some (datetime_now w (ticks w))
                      | _ => None
                      end))
          (st_expenses s')).
Proof.
  split; [apply handleSave_returns|]. split.
  - intros Hv. unfold handleSave. now rewrite Hv.
  - intros Hv Hop Hroom.
    pose proof (newExpense_valid now f Hv) as Hx.
    pose proof (addExpense_operational w t Hop _ Hx Hroom) as E.
    destruct (write_then_refresh_call _ "Error adding expense:" s _ _ _ _ _
                Hop E eq_refl) as (s' & w' & Er & Hl & _ & Hs).
    exists s', w'. split; [|split; [exact Hs|]].
    + unfold handleSave. rewrite Hv. simpl.
      unfold ctry_catch, cbind, cret.
      unfold AppContext.addExpense. rewrite Er. reflexivity.
    + rewrite Hl. apply In_order_by. simpl. apply In_insert_row. left.
      unfold added_row, newExpense.
      cbn [n_title n_amount n_category n_date n_description].
      now rewrite or_empty_some.
Qed.

End AddForm.

(** The sample form passes the validation and is stored on the new
    installation as record 1, trimmed. *)
Lemma handleSave_stores_witness :
  validateForm sample_parseFloat 1755511200000 lunch_form = true /\
  operational started fresh_table /\
  has_room started fresh_table /\
  exists s' w',
    handleSave sample_parseFloat sample_toISOString 1755511200000 lunch_form
               initial_state started
      = (Return (Some ("Success", "Expense added successfully!")), s', w') /\
    in_sync s' w' /\
    In (mkExpense 1 "Lunch" 12.5 "Food" "2025-08-18" (Some "with Ana")
                  (Some "2025-08-18 10:00:00"))
       (st_expenses s').
Proof.
  assert (Hv : validateForm sample_parseFloat 1755511200000 lunch_form = true)
    by reflexivity.
  assert (Hroom : has_room started fresh_table) by (now vm_compute).
  split; [exact Hv|]. split; [exact started_operational|].
  split; [exact Hroom|].
  exact (proj2 (proj2
           (handleSave_stores sample_parseFloat sample_toISOString
              1755511200000 lunch_form initial_state started fresh_table))
           Hv started_operational Hroom).
Defined.

(* ------------------------------------------------------------------ *)
(** ** Demo data *)

Lemma addExpense_returns (x : NewExpense) (w : World) (t : Table) :
  db w = true -> fails_now w = false -> expenses (file w) = Some t ->
  valid x -> has_room w t ->
  Service.addExpense x w =
    (Return (last_rowid (file w) t + 1)%Z,
     after_call w
       (mkDatabase (Some (mkTable (created_at_column t)
                                  (insert_row (added_row w t x) (rows t))))
                   (expenses_backup (file w))
                   (Some (last_rowid (file w) t + 1)%Z))).
Proof.
  intros Hdb Hq Ht Hv Hroom.
  unfold Service.addExpense. rewrite guarded_open by assumption.
  apply try_catch_returns. unfold await_at.
  apply await_returns; [exact Hq|].
  unfold insert. rewrite Ht, (real_value_valid _ Hv).
  unfold has_room in Hroom.
  destruct (Z.leb_spec MAX_ROWID (last_rowid (file w) t)); [lia|].
  reflexivity.
Qed.

Lemma max_rowid_insert_row (r : Expense) (rs : list Expense) :
  max_rowid (insert_row r rs) = Z.max (id r) (max_rowid rs).
Proof.
  induction rs as [|r' rs IH]; simpl; [reflexivity|].
  destruct (id r <? id r')%Z; simpl; [reflexivity|]. rewrite IH. lia.
Qed.

Lemma length_insert_row (r : Expense) (rs : list Expense) :
  length (insert_row r rs) = S (length rs).
Proof.
  induction rs as [|r' rs IH]; simpl; [reflexivity|].
  destruct (id r <? id r')%Z; simpl; [reflexivity|]. now rewrite IH.
Qed.

Lemma quiet_for_nil (n : nat) : quiet_for n [] = true.
Proof. now destruct n. Qed.

Lemma quiet_for_step (n : nat) (fl : list bool) :
  quiet_for (S n) fl = true ->
  match fl with b :: _ => b | [] => false end = false /\
  quiet_for n (tl fl) = true.
Proof.
  destruct fl as [|b fl]; simpl.
  - intros _. split; [reflexivity|apply quiet_for_nil].
  - destruct b; simpl; [discriminate|]. now split.
Qed.

Lemma quiet_for_repeat (k : nat) (fl : list bool) :
  quiet_for k (repeat false k ++ fl) = true.
Proof. induction k as [|k IH]; simpl; [reflexivity|exact IH]. Qed.

Lemma skipn_repeat (k : nat) (fl : list bool) :
  skipn k (repeat false k ++ fl) = fl.
Proof. induction k as [|k IH]; simpl; [reflexivity|exact IH]. Qed.

Lemma skipn_tl {A} (n : nat) (l : list A) : skipn (S n) l = skipn n (tl l).
Proof. destruct l; simpl; [now rewrite skipn_nil|reflexivity]. Qed.

(** The loop of [insertDemoData] over valid expenses, while no engine
    call fails and rowids are left: each expense is added in turn. *)
Lemma add_each (xs : list NewExpense) :
  forall (w : World) (t : Table),
    db w = true -> expenses (file w) = Some t ->
    quiet_for (length xs) (faults w) = true ->
    Forall valid xs ->
    (last_rowid (file w) t + Z.of_nat (length xs) <= MAX_ROWID)%Z ->
    exists w' rs',
      for_of xs (fun expense => bind (Service.addExpense expense)
                                     (fun _ => ret tt)) w
        = (Return tt, w') /\
      db w' = true /\
      expenses (file w') = Some (mkTable (created_at_column t) rs') /\
      faults w' = skipn (length xs) (faults w) /\
      console w' = console w /\
      length rs' = (length (rows t) + length xs)%nat /\
      (forall r, In r (rows t) -> In r rs') /\
      (forall x, In x xs ->
         exists r, In r rs' /\ carries x r /\
                   (last_rowid (file w) t < id r)%Z) /\
      last_rowid (file w') (mkTable (created_at_column t) rs')
        = (last_rowid (file w) t + Z.of_nat (length xs))%Z.
Proof.
  induction xs as [|x xs IH]; intros w t Hdb Ht Hq Hv Hroom.
  - exists w, (rows t). simpl. destruct t as [col rs]. simpl in *.
    repeat split; auto; try lia; try (now intros x []).
  - apply quiet_for_step in Hq as [Hnow Hq].
    inversion Hv as [|? ? Hx Hxs]; subst.
    assert (Hr : has_room w t)
      by (unfold has_room; simpl length in Hroom; lia).
    pose proof (addExpense_returns x w t Hdb Hnow Ht Hx Hr) as E.
    set (t1 := mkTable (created_at_column t)
                       (insert_row (added_row w t x) (rows t))) in *.
    set (f1 := mkDatabase (Some t1) (expenses_backup (file w))
                          (Some (last_rowid (file w) t + 1)%Z)) in *.
    assert (Hl1 : last_rowid f1 t1 = (last_rowid (file w) t + 1)%Z).
    { unfold last_rowid at 1. unfold f1, t1, seq_value. simpl.
      rewrite max_rowid_insert_row. simpl.
      unfold last_rowid. lia. }
    destruct (IH (after_call w f1) t1) as
      (w' & rs' & El & Hdb' & Ht' & Hfl' & Hc' & Hlen & Hold & Hnew & Hlast).
    + exact Hdb.
    + reflexivity.
    + exact Hq.
    + exact Hxs.
    + simpl file. rewrite Hl1. simpl length in Hroom. lia.
    + change (created_at_column t1) with (created_at_column t) in *.
      exists w', rs'. split; [|split; [|split; [|split; [|split;
        [|split; [|split; [|split]]]]]]].
      * simpl. unfold bind at 1. unfold bind at 1. rewrite E.
        unfold ret at 1. exact El.
      * exact Hdb'.
      * exact Ht'.
      * rewrite Hfl'. simpl faults. simpl length. now rewrite skipn_tl.
      * exact Hc'.
      * rewrite Hlen. unfold t1. simpl rows. rewrite length_insert_row.
        simpl. lia.
      * intros r Hin. apply Hold. unfold t1. simpl.
        apply In_insert_row. now right.
      * intros x' [<-|Hin].
        -- exists (added_row w t x). split; [|split].
           ++ apply Hold. unfold t1. simpl. apply In_insert_row. now left.
           ++ repeat split.
           ++ simpl. lia.
        -- destruct (Hnew x' Hin) as (r & Hr1 & Hr2 & Hr3).
           exists r. split; [exact Hr1|]. split; [exact Hr2|].
           simpl file in Hr3. rewrite Hl1 in Hr3. lia.
      * rewrite Hlast. simpl file. rewrite Hl1. simpl length. lia.
Qed.

Lemma for_of_app {A} (xs ys : list A) (body : A -> M unit) (w : World) :
  for_of (xs ++ ys) body w =
    bind (for_of xs body) (fun _ => for_of ys body) w.
Proof.
  revert w. induction xs as [|x xs IH]; intros w; simpl.
  - reflexivity.
  - unfold bind. destruct (body x w) as [[[]|e] w1]; [|reflexivity].
    rewrite IH. reflexivity.
Qed.

Lemma demoExpenses_valid : Forall valid demoExpenses.
Proof. repeat constructor; discriminate. Qed.

(** X27.  On an operational store with ten rowids left [insertDemoData]
    adds all ten demo expenses on top of what is there: the table has
    ten more rows, every row it had is still in it, each demo expense is
    held by a row with a new rowid, and the last line on the console is
    the success message. *)
Theorem insertDemoData_inserts_all (w : World) (t : Table) :
  operational w t ->
  (last_rowid (file w) t + 10 <= MAX_ROWID)%Z ->
  exists w' rs',
    insertDemoData w = (Return tt, w') /\
    expenses (file w') = Some (mkTable (created_at_column t) rs') /\
    length rs' = (length (rows t) + 10)%nat /\
    (forall r, In r (rows t) -> In r rs') /\
    (forall x, In x demoExpenses ->
       exists r, In r rs' /\ carries x r /\ (last_rowid (file w) t < id r)%Z) /\
    console w' = console w ++ [log "Demo data inserted successfully"].
Proof.
  intros (Hdb & Hfl & Ht) Hroom.
  destruct (add_each demoExpenses w t Hdb Ht) as
    (w1 & rs' & El & _ & Ht' & _ & Hc & Hlen & Hold & Hnew & _).
  - rewrite Hfl. apply quiet_for_nil.
  - exact demoExpenses_valid.
  - exact Hroom.
  - exists (snd (console_log "Demo data inserted successfully" w1)), rs'.
    split; [|split; [|split; [|split; [|split]]]].
    + unfold insertDemoData, try_catch. unfold bind at 1. now rewrite El.
    + exact Ht'.
    + exact Hlen.
    + exact Hold.
    + exact Hnew.
    + simpl. now rewrite Hc.
Qed.

Lemma insertDemoData_inserts_all_witness :
  operational stocked (table_of stocked) /\
  exists w' rs',
    insertDemoData stocked = (Return tt, w') /\
    expenses (file w') = Some (mkTable DefaultNow rs') /\
    length rs' = 11%nat /\
    (forall r, In r (rows (table_of stocked)) -> In r rs') /\
    (forall x, In x demoExpenses ->
       exists r, In r rs' /\ carries x r /\ (1 < id r)%Z) /\
    console w' = console stocked ++ [log "Demo data inserted successfully"].
Proof.
  assert (H : operational stocked (table_of stocked)) by (repeat split).
  split; [exact H|].
  apply (insertDemoData_inserts_all stocked (table_of stocked) H).
  now vm_compute.
Defined.

(** X28.  [insertDemoData] is not all or nothing.  When the storage layer
    fails at the engine call after [k] insertions, [k] below ten, the
    function still returns normally; the first [k] demo expenses stay in
    the table, which has exactly [k] more rows, the others are not
    added, and the console shows the error of [addExpense] and then that
    of [insertDemoData], not the success message. *)
Theorem insertDemoData_stops_at_failure (w : World) (t : Table) (k : nat)
        (rest : list bool) :
  db w = true -> expenses (file w) = Some t ->
  (k < 10)%nat ->
  faults w = repeat false k ++ true :: rest ->
  (last_rowid (file w) t + 10 <= MAX_ROWID)%Z ->
  exists w' rs',
    insertDemoData w = (Return tt, w') /\
    expenses (file w') = Some (mkTable (created_at_column t) rs') /\
    length rs' = (length (rows t) + k)%nat /\
    (forall r, In r (rows t) -> In r rs') /\
    (forall x, In x (firstn k demoExpenses) ->
       exists r, In r rs' /\ carries x r /\ (last_rowid (file w) t < id r)%Z) /\
    console w' = console w ++ [error "Error adding expense:" io_failure;
                               error "Error inserting demo data:" io_failure].
Proof.
  intros Hdb Ht Hk Hfl Hroom.
  assert (Hlen : length (firstn k demoExpenses) = k)
    by (rewrite length_firstn; simpl length; lia).
  destruct (add_each (firstn k demoExpenses) w t Hdb Ht) as
    (w1 & rs' & El & Hdb1 & Ht1 & Hfl1 & Hc & Hl & Hold & Hnew & _).
  - rewrite Hlen, Hfl. apply quiet_for_repeat.
  - apply Forall_forall. intros x Hin.
    apply (proj1 (Forall_forall _ _) demoExpenses_valid).
    rewrite <- (firstn_skipn k demoExpenses). apply in_or_app. now left.
  - rewrite Hlen. lia.
  - rewrite Hlen, Hfl, skipn_repeat in Hfl1.
    destruct (skipn k demoExpenses) as [|x xs] eqn:Es.
    { apply (f_equal (@length _)) in Es. rewrite length_skipn in Es.
      simpl length in Es. lia. }
    eexists _, rs'. split; [|split; [|split; [|split; [|split]]]].
    + unfold insertDemoData, try_catch.
      rewrite <- (firstn_skipn k demoExpenses), Es.
      unfold bind at 1. rewrite for_of_app. unfold bind at 1. rewrite El.
      simpl for_of. unfold bind at 1. unfold bind at 1.
      unfold Service.addExpense. rewrite guarded_open by exact Hdb1.
      unfold try_catch, await_at, await, fails_now. rewrite Hfl1.
      unfold bind, console_error, throw. reflexivity.
    + simpl. exact Ht1.
    + now rewrite Hl, Hlen.
    + exact Hold.
    + exact Hnew.
    + simpl. rewrite Hc, <- app_assoc. reflexivity.
Qed.

Lemma insertDemoData_stops_at_failure_witness :
  exists w' rs',
    insertDemoData (opened (file started) [false; false; false; true])
      = (Return tt, w') /\
    expenses (file w') = Some (mkTable DefaultNow rs') /\
    length rs' = 3%nat.
Proof.
  destruct (insertDemoData_stops_at_failure
              (opened (file started) [false; false; false; true])
              fresh_table 3 [])
    as (w' & rs' & E & Ht & Hl & _); try reflexivity; try lia.
  - now vm_compute.
  - now exists w', rs'.
Defined.

(** X29.  [insertDemoData] never throws, whatever the state of the store.
    Before the store is initialized it writes nothing: the file is as it
    was and the only trace is the error line on the console. *)
Theorem insertDemoData_never_throws (w : World) :
  exists w',
    insertDemoData w = (Return tt, w') /\
    (db w = false ->
       file w' = file w /\
       console w' = console w ++ [error "Error inserting demo data:"
                                        NotInitialized]).
Proof.
  unfold insertDemoData, try_catch.
  destruct (db w) eqn:Hdb.
  - destruct (bind _ _ w) as [[[]|e] w1]; eexists;
      (split; [reflexivity|]); discriminate.
  - assert (E : for_of demoExpenses
                  (fun expense => bind (Service.addExpense expense)
                                       (fun _ => ret tt)) w
                = (Throw NotInitialized, w)).
    { simpl for_of. unfold bind at 1. unfold bind at 1.
      unfold Service.addExpense. rewrite guarded_closed by exact Hdb.
      reflexivity. }
    unfold bind at 1. rewrite E.
    eexists. split; [reflexivity|]. intros _. now split.
Qed.
